(** * WiFi-Robot controller: the ESP8266 protocol engine, the UART FIFO and
      the drive dispatch, embedded from the C sources

    Sources embedded here:
    - [Robot/RobotController/src/Esp8266.c]  (receive state machine,
      [Esp8266_ReceiveMsg], [WaitForResponse]);
    - [Robot/RobotController/src/Uart.c]     (the circular FIFO);
    - [Robot/RobotController/src/main.c] and [DriveController.c]
      (packet dispatch and motor commands).

    Conventions.  An [unsigned char] is a [Z] in [0, 256); arrays are lists
    indexed through [load] and [store], which report an access outside the
    array instead of performing it (the C program has undefined behaviour
    there).  Functions that touch an array therefore return an [Outcome]. *)

From Stdlib Require Import ZArith List Bool Lia String Ascii.
From stdpp Require Import base list.
Import ListNotations.
Local Open Scope Z_scope.

(* ===================================================================== *)
(** ** Array accesses that may leave the array *)
(* ===================================================================== *)

Inductive Outcome (A : Type) : Type :=
| Ok (a : A)
| OutOfBounds (idx : Z).
Arguments Ok {A} a.
Arguments OutOfBounds {A} idx.

Definition bind {A B : Type} (m : Outcome A) (k : A -> Outcome B) : Outcome B :=
  match m with
  | Ok a => k a
  | OutOfBounds i => OutOfBounds i
  end.

Notation "'let*' x := m 'in' k" := (bind m (fun x => k))
  (at level 10, x name, m at level 100, k at level 200).

(** [buf[i]] as an rvalue. *)
Definition load (buf : list Z) (i : Z) : Outcome Z :=
  if (0 <=? i) && (i <? Z.of_nat (length buf))
  then Ok (nth (Z.to_nat i) buf 0)
  else OutOfBounds i.

(** [buf[i] = v]. *)
Definition store (buf : list Z) (i v : Z) : Outcome (list Z) :=
  if (0 <=? i) && (i <? Z.of_nat (length buf))
  then Ok (<[Z.to_nat i := v]> buf)
  else OutOfBounds i.

(** [memcpy(dst, src, n)] with [n] an [int] converted to [size_t]: a
    negative [n] becomes a count larger than either array. *)
Definition memcpy (dst src : list Z) (n : Z) : Outcome (list Z) :=
  if (0 <=? n) && (n <=? Z.of_nat (length src)) && (n <=? Z.of_nat (length dst))
  then Ok (take (Z.to_nat n) src ++ drop (Z.to_nat n) dst)
  else OutOfBounds n.

(** Truncation to [unsigned char] and to the 16-bit [int] of the STM8
    Cosmic compiler. *)
Definition to_uchar (z : Z) : Z := z mod 256.
Definition to_int (z : Z) : Z := (z + 32768) mod 65536 - 32768.

(* ===================================================================== *)
(** ** Esp8266.h / Esp8266.c : constants and engine state *)
(* ===================================================================== *)

Definition ESP8266_RX_BUFFER_SIZE : Z := 64.
Definition TIMEOUT_LONG  : Z := 0xFFFFFFFF.
Definition TIMEOUT_SHORT : Z := 0x00FFFFFF.

Inductive RxState : Type :=
| ESP8266_RESET
| ESP8266_GET_READY
| ESP8266_GET_OK
| ESP8266_GET_RX_HEADER
| ESP8266_GET_RX_PACKET_SIZE
| ESP8266_GET_RX_PACKET
| ESP8266_GET_TX.

(** Status word bits. *)
Definition ESP8266_OK_MESSAGE        : Z := 0x01.
Definition ESP8266_READY_MESSAGE     : Z := 0x02.
Definition ESP8266_TX_READY_MESSAGE  : Z := 0x04.
Definition ESP8266_RX_PACKET_MESSAGE : Z := 0x08.

Definition bytes_of (s : string) : list Z :=
  map (fun c => Z.of_N (N_of_ascii c)) (list_ascii_of_string s).

(** The four literals, as the arrays the compiler lays out: the characters
    followed by the terminating NUL, so that [sizeof] is the list length. *)
Definition OK_MSG        : list Z := Eval cbv in bytes_of "OK" ++ [13; 10; 0].
Definition READY_MSG     : list Z := Eval cbv in bytes_of "ready" ++ [13; 10; 0].
Definition TX_READY_MSG  : list Z := Eval cbv in bytes_of "> " ++ [0].
Definition RX_PACKET_MSG : list Z := Eval cbv in bytes_of "+IPD,1," ++ [0].

Definition sizeof (a : list Z) : Z := Z.of_nat (length a).

(** The characters of a literal, without the terminator. *)
Definition chars (msg : list Z) : list Z := removelast msg.

(** The file-level variables [packet], [packetSize], [status] together with
    the two [static] locals of [Esp8266_ProcessRxByte]. *)
Record Engine : Type := mkEngine {
  esp_state  : RxState;
  count      : Z;
  packet     : list Z;
  packetSize : Z;
  status     : Z
}.

Definition set_state (s : RxState) (e : Engine) : Engine :=
  mkEngine s (count e) (packet e) (packetSize e) (status e).
Definition set_count (c : Z) (e : Engine) : Engine :=
  mkEngine (esp_state e) c (packet e) (packetSize e) (status e).
Definition set_packet (p : list Z) (e : Engine) : Engine :=
  mkEngine (esp_state e) (count e) p (packetSize e) (status e).
Definition set_packetSize (n : Z) (e : Engine) : Engine :=
  mkEngine (esp_state e) (count e) (packet e) n (status e).
Definition set_status (s : Z) (e : Engine) : Engine :=
  mkEngine (esp_state e) (count e) (packet e) (packetSize e) s.

(** [status |= flag] on an [unsigned char]. *)
Definition raise (flag : Z) (e : Engine) : Engine :=
  set_status (to_uchar (Z.lor (status e) flag)) e.

(** [status &= ~mask] : the complement is taken on the promoted [int] and
    the result is truncated back to [unsigned char]. *)
Definition clear (mask : Z) (e : Engine) : Engine :=
  set_status (to_uchar (Z.land (status e) (Z.lnot mask))) e.

(** The engine after the initialisers of Esp8266.c. *)
Definition Esp8266_boot : Engine :=
  mkEngine ESP8266_RESET 0 (replicate 64 0) 0 0.

(* ===================================================================== *)
(** ** sscanf(packet, "%d", &size) *)
(* ===================================================================== *)

Definition isspace (c : Z) : bool := (c =? 32) || ((9 <=? c) && (c <=? 13)).
Definition isdigit (c : Z) : bool := (48 <=? c) && (c <=? 57).

(** The C string held in an array: the bytes before the first NUL. *)
Fixpoint c_str (buf : list Z) : list Z :=
  match buf with
  | [] => []
  | c :: rest => if c =? 0 then [] else c :: c_str rest
  end.

Fixpoint skip_space (s : list Z) : list Z :=
  match s with
  | [] => []
  | c :: rest => if isspace c then skip_space rest else s
  end.

Fixpoint scan_digits (acc : Z) (s : list Z) : Z :=
  match s with
  | [] => acc
  | c :: rest => if isdigit c then scan_digits (10 * acc + (c - 48)) rest else acc
  end.

Definition scan_sign (s : list Z) : bool * list Z :=
  match s with
  | c :: rest =>
      if c =? 45 then (true, rest)
      else if c =? 43 then (false, rest)
      else (false, s)
  | [] => (false, s)
  end.

(** Modelled from the spec: the C library function [sscanf] is called by
    [Esp8266_ProcessRxByte] but is not part of the repository sources.  The
    spec says the accumulated text "is parsed as a decimal integer giving
    the declared body length" and that a parse failure resets the machine.
    The definition follows the "%d" conversion of the C standard: leading
    white space is skipped, an optional sign is read, then the longest run
    of decimal digits; with no digit the conversion fails ([None], the call
    does not return 1).  The value is stored in an [int]. *)
Definition scan_d (s : list Z) : option Z :=
  let '(neg, s1) := scan_sign (skip_space s) in
  match s1 with
  | c :: _ =>
      if isdigit c
      then Some (to_int (if neg then - scan_digits 0 s1 else scan_digits 0 s1))
      else None
  | [] => None
  end.

Definition sscanf_d (buf : list Z) : option Z := scan_d (c_str buf).

(* ===================================================================== *)
(** ** Esp8266_ProcessRxByte *)
(* ===================================================================== *)

(** The body shared by the cases [ESP8266_GET_READY], [ESP8266_GET_OK],
    [ESP8266_GET_RX_HEADER] and [ESP8266_GET_TX]:
<<
    if (byte == MSG[count]) { if (++count >= sizeof(MSG) - 1) { complete } }
    else                    { esp_state = ESP8266_RESET; }
>> *)
Definition match_literal (msg : list Z) (complete : Engine -> Engine)
    (e : Engine) (byte : Z) : Outcome Engine :=
  let* c := load msg (count e) in
  if byte =? c
  then
    let e1 := set_count (count e + 1) e in
    if count e1 >=? sizeof msg - 1 then Ok (complete e1) else Ok e1
  else Ok (set_state ESP8266_RESET e).

(** The inner [switch(byte)] of the [ESP8266_RESET] case. *)
Definition first_byte (byte : Z) : RxState :=
  if byte =? nth 0 OK_MSG 0 then ESP8266_GET_OK
  else if byte =? nth 0 READY_MSG 0 then ESP8266_GET_READY
  else if byte =? nth 0 RX_PACKET_MSG 0 then ESP8266_GET_RX_HEADER
  else if byte =? nth 0 TX_READY_MSG 0 then ESP8266_GET_TX
  else ESP8266_RESET.

(** [esp_state] only ever holds the seven enumerators, so the [default:]
    case of the outer [switch] has no counterpart here.  [count] stays
    below 65 on every run that remains inside [packet], far from the range
    of [long]. *)
Definition Esp8266_ProcessRxByte (e : Engine) (byte : Z) : Outcome Engine :=
  match esp_state e with
  | ESP8266_RESET =>
      let e1 := set_count 0 e in
      let e2 := set_state (first_byte byte) e1 in
      Ok (set_count (count e2 + 1) e2)
  | ESP8266_GET_READY =>
      match_literal READY_MSG
        (fun e1 => raise ESP8266_READY_MESSAGE (set_state ESP8266_RESET e1))
        e byte
  | ESP8266_GET_OK =>
      match_literal OK_MSG
        (fun e1 => raise ESP8266_OK_MESSAGE (set_state ESP8266_RESET e1))
        e byte
  | ESP8266_GET_RX_HEADER =>
      match_literal RX_PACKET_MSG
        (fun e1 => set_count 0 (set_state ESP8266_GET_RX_PACKET_SIZE e1))
        e byte
  | ESP8266_GET_RX_PACKET_SIZE =>
      if negb (byte =? 58)
      then
        let* p := store (packet e) (count e) byte in
        Ok (set_count (count e + 1) (set_packet p e))
      else
        let* p := store (packet e) (count e) 0 in
        let e1 := set_packet p e in
        match sscanf_d (packet e1) with
        | Some size =>
            Ok (set_count 0
                  (set_state ESP8266_GET_RX_PACKET (set_packetSize size e1)))
        | None => Ok (set_state ESP8266_RESET e1)
        end
  | ESP8266_GET_RX_PACKET =>
      let* p := store (packet e) (count e) byte in
      let e1 := set_count (count e + 1) (set_packet p e) in
      if count e1 >=? packetSize e1
      then Ok (raise ESP8266_RX_PACKET_MESSAGE (set_state ESP8266_RESET e1))
      else Ok e1
  | ESP8266_GET_TX =>
      match_literal TX_READY_MSG
        (fun e1 => raise ESP8266_TX_READY_MESSAGE (set_state ESP8266_RESET e1))
        e byte
  end.

(** The receive interrupt runs the registered callback once per byte
    ([Uart_ReceiveISR] with [rxCallback = Esp8266_ProcessRxByte]); [feed]
    is a burst of such interrupts. *)
Fixpoint feed (e : Engine) (bytes : list Z) : Outcome Engine :=
  match bytes with
  | [] => Ok e
  | b :: rest => let* e' := Esp8266_ProcessRxByte e b in feed e' rest
  end.

(* ===================================================================== *)
(** ** Esp8266_ReceiveMsg and WaitForResponse *)
(* ===================================================================== *)

(** [Esp8266_ReceiveMsg(p)] : the result is the returned [int], the engine
    afterwards and the caller's buffer afterwards. *)
Definition Esp8266_ReceiveMsg (e : Engine) (p : list Z)
    : Outcome (Z * Engine * list Z) :=
  if negb (Z.land (status e) ESP8266_RX_PACKET_MESSAGE =? 0)
  then
    let e1 := clear ESP8266_RX_PACKET_MESSAGE e in
    let* p1 := memcpy p (packet e1) (packetSize e1) in
    Ok (packetSize e1, e1, p1)
  else Ok (0, e, p).

(** What a call of [WaitForResponse] can be observed to do against a finite
    schedule of receive interrupts: return, still be polling when the
    schedule is used up, or have the interrupt handler leave [packet]. *)
Inductive Waited : Type :=
| Returned (r : Z) (e : Engine) (rest : list (list Z))
| Spinning (e : Engine)
| Crashed (idx : Z).

(** [WaitForResponse(msgType, timeout)].  The loop is [while(1)]: the
    decrement of [timeout] is commented out in the source, and the
    [return 0] after the loop cannot be reached.  Between two evaluations of
    the loop condition the receive interrupt may deliver a burst of bytes;
    [irq] lists these bursts in order (a burst may be empty).  The test and
    the clearing of the status bits are taken as one step with respect to
    the interrupt. *)
Fixpoint WaitForResponse (msgType timeout : Z) (e : Engine)
    (irq : list (list Z)) : Waited :=
  if Z.land (status e) msgType =? msgType
  then Returned 1 (clear msgType e) irq
  else
    match irq with
    | [] => Spinning e
    | burst :: later =>
        match feed e burst with
        | Ok e' => WaitForResponse msgType timeout e' later
        | OutOfBounds i => Crashed i
        end
    end.

(* ===================================================================== *)
(** ** Uart.c : the circular FIFO *)
(* ===================================================================== *)

Definition UART_BUFFER_SIZE : Z := 64.

Definition to_ulong (z : Z) : Z := z mod 2 ^ 32.

Record Fifo : Type := mkFifo {
  fifo         : list Z;
  enqueueIndex : Z;
  dequeueIndex : Z
}.

Definition Uart_FifoGetNextIndex (index : Z) : Z :=
  let next_index := to_ulong (index + 1) in
  if next_index >=? UART_BUFFER_SIZE then 0 else next_index.

Definition Uart_FifoIsEmpty (f : Fifo) : bool :=
  dequeueIndex f =? enqueueIndex f.

Definition Uart_FifoIsFull (f : Fifo) : bool :=
  Uart_FifoGetNextIndex (enqueueIndex f) =? dequeueIndex f.

(** Returns the [int] result and the FIFO afterwards. *)
Definition Uart_FifoEnqueue (f : Fifo) (data : Z) : Outcome (Z * Fifo) :=
  if negb (Uart_FifoIsFull f)
  then
    let* buf := store (fifo f) (enqueueIndex f) data in
    Ok (1, mkFifo buf (Uart_FifoGetNextIndex (enqueueIndex f)) (dequeueIndex f))
  else Ok (0, f).

(** Returns the dequeued byte (0 when empty) and the FIFO afterwards. *)
Definition Uart_FifoDequeue (f : Fifo) : Outcome (Z * Fifo) :=
  if negb (Uart_FifoIsEmpty f)
  then
    let* data := load (fifo f) (dequeueIndex f) in
    Ok (data, mkFifo (fifo f) (enqueueIndex f)
                (Uart_FifoGetNextIndex (dequeueIndex f)))
  else Ok (0, f).

Definition Uart_FifoClear (f : Fifo) : Fifo :=
  mkFifo (replicate (Z.to_nat UART_BUFFER_SIZE) 0) 0 0.

(** The FIFO after the initialisers of Uart.c. *)
Definition Uart_boot : Fifo := mkFifo (replicate 64 0) 0 0.

(** Successive calls of [Uart_FifoEnqueue], collecting the results. *)
Fixpoint enqueue_all (f : Fifo) (data : list Z) : Outcome (list Z * Fifo) :=
  match data with
  | [] => Ok ([], f)
  | x :: rest =>
      let* rf := Uart_FifoEnqueue f x in
      let* rsf := enqueue_all (snd rf) rest in
      Ok (fst rf :: fst rsf, snd rsf)
  end.

(** [n] successive calls of [Uart_FifoDequeue], collecting the bytes. *)
Fixpoint dequeue_n (f : Fifo) (n : nat) : Outcome (list Z * Fifo) :=
  match n with
  | O => Ok ([], f)
  | S m =>
      let* xf := Uart_FifoDequeue f in
      let* xsf := dequeue_n (snd xf) m in
      Ok (fst xf :: fst xsf, snd xsf)
  end.

(* ===================================================================== *)
(** ** DriveController.h / DriveController.c / main.c *)
(* ===================================================================== *)

(** [enum Directions]. *)
Definition STOP        : Z := 0.
Definition FORWARD     : Z := 1.
Definition BACKWARD    : Z := 2.
Definition LEFT        : Z := 3.
Definition SHARP_LEFT  : Z := 4.
Definition RIGHT       : Z := 5.
Definition SHARP_RIGHT : Z := 6.

Definition PWM_TIMER_MAX_COUNT : Z := 1000.

Inductive Port : Type := GPIOA | GPIOG.
Inductive Pin : Type := GPIO_PIN_0 | GPIO_PIN_1 | GPIO_PIN_3 | GPIO_PIN_4.

(** The peripheral calls the drive controller issues, in program order. *)
Inductive HwOp : Type :=
| GPIO_WriteLow (port : Port) (pin : Pin)
| GPIO_WriteHigh (port : Port) (pin : Pin)
| TIM2_SetCompare1 (v : Z)
| TIM2_SetCompare2 (v : Z).

Definition Motor (motor direction : Z) : list HwOp :=
  let pins :=
    if motor =? LEFT then Some (GPIOA, GPIO_PIN_3, GPIO_PIN_4)
    else if motor =? RIGHT then Some (GPIOG, GPIO_PIN_0, GPIO_PIN_1)
    else None in
  match pins with
  | None => []
  | Some (port, pin1, pin2) =>
      if direction =? STOP
      then [GPIO_WriteLow port pin1; GPIO_WriteLow port pin2]
      else if direction =? FORWARD
      then [GPIO_WriteHigh port pin1; GPIO_WriteLow port pin2]
      else if direction =? BACKWARD
      then [GPIO_WriteLow port pin1; GPIO_WriteHigh port pin2]
      else []
  end.

(** The parameter is an [unsigned char]: the argument is converted on
    entry.  [SCALE_FACTOR] is [PWM_TIMER_MAX_COUNT / 100] (an integer
    division) and the compare value is [SCALE_FACTOR * percentSpeed + 0.5]
    truncated, which is the integer product for a percentage of at most
    100. *)
Definition DriveCtrl_SetSpeed (percentSpeed : Z) : list HwOp :=
  let percentSpeed := to_uchar percentSpeed in
  let SCALE_FACTOR := PWM_TIMER_MAX_COUNT / 100 in
  let percentSpeed := if percentSpeed >? 100 then 100 else percentSpeed in
  [TIM2_SetCompare1 (SCALE_FACTOR * percentSpeed);
   TIM2_SetCompare2 (SCALE_FACTOR * percentSpeed)].

Definition DriveCtrl_Stop : list HwOp := Motor LEFT STOP ++ Motor RIGHT STOP.
Definition DriveCtrl_Forward : list HwOp :=
  Motor LEFT FORWARD ++ Motor RIGHT FORWARD.
Definition DriveCtrl_Backward : list HwOp :=
  Motor LEFT BACKWARD ++ Motor RIGHT BACKWARD.

Definition DriveCtrl_Turn (direction : Z) : list HwOp :=
  if direction =? LEFT then Motor LEFT STOP ++ Motor RIGHT FORWARD
  else if direction =? SHARP_LEFT then Motor LEFT BACKWARD ++ Motor RIGHT FORWARD
  else if direction =? RIGHT then Motor LEFT FORWARD ++ Motor RIGHT STOP
  else if direction =? SHARP_RIGHT then Motor LEFT FORWARD ++ Motor RIGHT BACKWARD
  else [].

(** The [switch(packet[0])] of the main loop, on main's local copy of the
    packet (the echo through [Esp8266_SendMsg] follows it in the source). *)
Definition main_dispatch (pkt : list Z) : list HwOp :=
  let d := nth 0 pkt 0 in
  if d =? STOP then DriveCtrl_Stop ++ DriveCtrl_SetSpeed 0
  else if d =? FORWARD then DriveCtrl_Forward ++ DriveCtrl_SetSpeed (nth 1 pkt 0)
  else if d =? BACKWARD then DriveCtrl_Backward ++ DriveCtrl_SetSpeed (nth 1 pkt 0)
  else if d =? LEFT then DriveCtrl_Turn LEFT ++ DriveCtrl_SetSpeed (nth 1 pkt 0)
  else if d =? RIGHT then DriveCtrl_Turn RIGHT ++ DriveCtrl_SetSpeed (nth 1 pkt 0)
  else [].

(** The packet layout as documented, for comparison with [main_dispatch]:
    byte 0 is the direction code (0 stop, 1 forward, 2 backward, 3 left,
    4 sharp-left, 5 right, 6 sharp-right) and selects the drive call of that
    direction; byte 1 is the speed passed on for the movement codes. *)
Definition layout_drive_action (d speed : Z) : list HwOp :=
  if d =? STOP then DriveCtrl_Stop ++ DriveCtrl_SetSpeed 0
  else if d =? FORWARD then DriveCtrl_Forward ++ DriveCtrl_SetSpeed speed
  else if d =? BACKWARD then DriveCtrl_Backward ++ DriveCtrl_SetSpeed speed
  else DriveCtrl_Turn d ++ DriveCtrl_SetSpeed speed.

(* ===================================================================== *)
(** ** Streams and observations used in the statements *)
(* ===================================================================== *)

(** ASCII decimal digits of a non-negative number (most significant
    first), as a sender writes the length field. *)
Definition digit (d : Z) : Z := 48 + d.
Definition decimal (n : Z) : list Z :=
  if n <? 10 then [digit n]
  else if n <? 100 then [digit (n / 10); digit (n mod 10)]
  else [digit (n / 100); digit (n / 10 mod 10); digit (n mod 10)].

(** The wire form of an inbound packet: header, decimal length, colon and
    body. *)
Definition packet_stream (L : Z) (body : list Z) : list Z :=
  chars RX_PACKET_MSG ++ decimal L ++ [58] ++ body.

(** The test [status & ESP8266_RX_PACKET_MESSAGE] of [Esp8266_ReceiveMsg]. *)
Definition packet_available (e : Engine) : bool :=
  negb (Z.land (status e) ESP8266_RX_PACKET_MESSAGE =? 0).

(** Feeding the packet to [e] byte by byte ends with the packet available,
    its length recorded, its body at the front of [packet] and the machine
    idle again. *)
Definition delivered (e : Engine) (L : Z) (body : list Z) : Prop :=
  exists e',
    feed e (packet_stream L body) = Ok e' /\
    packet_available e' = true /\
    packetSize e' = L /\
    take (Z.to_nat L) (packet e') = body /\
    esp_state e' = ESP8266_RESET.

(** The four literals the idle machine looks for. *)
Definition literals : list (list Z) :=
  [OK_MSG; READY_MSG; TX_READY_MSG; RX_PACKET_MSG].

(** A literal's characters with the byte at [off] replaced by [b]. *)
Definition corrupt (msg : list Z) (off : nat) (b : Z) : list Z :=
  <[off := b]> (chars msg).

(** The literal a matching state compares against. *)
Definition literal_of (st : RxState) : option (list Z) :=
  match st with
  | ESP8266_GET_READY => Some READY_MSG
  | ESP8266_GET_OK => Some OK_MSG
  | ESP8266_GET_RX_HEADER => Some RX_PACKET_MSG
  | ESP8266_GET_TX => Some TX_READY_MSG
  | _ => None
  end.

(** Feeding the characters of [msg] to [e] raises [flag], and nothing else
    in the status word, and leaves the machine idle. *)
Definition recognised (e : Engine) (msg : list Z) (flag : Z) : Prop :=
  exists e',
    feed e (chars msg) = Ok e' /\
    esp_state e' = ESP8266_RESET /\
    status e' = Z.lor (status e) flag /\
    packet e' = packet e /\ packetSize e' = packetSize e.

(** Feeding [bytes] to [e] raises no flag and leaves the machine idle. *)
Definition rejected (e : Engine) (bytes : list Z) : Prop :=
  exists e',
    feed e bytes = Ok e' /\
    esp_state e' = ESP8266_RESET /\
    status e' = status e /\
    packet e' = packet e /\ packetSize e' = packetSize e.

(** The interrupt bursts [seen] were delivered to [e], one after the
    other, and left the engine as [e_at]. *)
Definition delivered_bursts (e : Engine) (seen : list (list Z)) (e_at : Engine)
    : Prop :=
  feed e (concat seen) = Ok e_at.

(** What a call of [Esp8266_ReceiveMsg] made with the packet-available bit
    set is said to do: return the recorded length with that many bytes of
    the packet at the front of the caller's buffer and the bit cleared, so
    that the next call returns 0. *)
Definition consumed (e : Engine) (p : list Z) : Prop :=
  exists e1 p1,
    Esp8266_ReceiveMsg e p = Ok (packetSize e, e1, p1) /\
    take (Z.to_nat (packetSize e)) p1
    = take (Z.to_nat (packetSize e)) (packet e) /\
    packet_available e1 = false /\
    Esp8266_ReceiveMsg e1 p1 = Ok (0, e1, p1).

(** A wait for [mask] started on [e] against the schedule [irq] ends on
    [e'] with the bursts [rest] still to come: the bursts before [rest]
    were delivered, the poll after the last of them found every bit of
    [mask] in the status word, no earlier poll did, and the wait cleared
    these bits. *)
Definition wait_ends (mask : Z) (e : Engine) (irq : list (list Z))
    (e' : Engine) (rest : list (list Z)) : Prop :=
  exists seen e_at,
    irq = seen ++ rest /\
    delivered_bursts e seen e_at /\
    Z.land (status e_at) mask = mask /\
    (forall k e_k, (k < length seen)%nat ->
       delivered_bursts e (take k seen) e_k ->
       Z.land (status e_k) mask <> mask) /\
    e' = clear mask e_at.

(** No poll of a wait for [mask] started on [e] finds the mask: neither
    the first one nor the one after any burst of [irq]. *)
Definition wait_starves (mask : Z) (e : Engine) (irq : list (list Z)) : Prop :=
  forall k, (k <= length irq)%nat ->
    exists e_k,
      delivered_bursts e (take k irq) e_k /\
      Z.land (status e_k) mask <> mask.

(** The interrupt handler leaves an array at index [i] while the bursts
    of [irq] are delivered to [e]. *)
Definition bursts_overflow (e : Engine) (irq : list (list Z)) (i : Z) : Prop :=
  exists seen rest,
    irq = seen ++ rest /\ feed e (concat seen) = OutOfBounds i.

(** Well-formed FIFO: a 64-byte array and both cursors inside it. *)
Definition fifo_wf (f : Fifo) : Prop :=
  length (fifo f) = Z.to_nat UART_BUFFER_SIZE /\
  0 <= enqueueIndex f < UART_BUFFER_SIZE /\
  0 <= dequeueIndex f < UART_BUFFER_SIZE.

(** Number of bytes waiting between the read and the write cursor. *)
Definition fifo_count (f : Fifo) : Z :=
  (enqueueIndex f - dequeueIndex f) mod UART_BUFFER_SIZE.

(** [n] bytes read circularly from index [i] on. *)
Fixpoint read_from (buf : list Z) (i : Z) (n : nat) : list Z :=
  match n with
  | O => []
  | S m => nth (Z.to_nat i) buf 0 :: read_from buf (Uart_FifoGetNextIndex i) m
  end.

(** The queue a FIFO stands for, oldest byte first. *)
Definition fifo_contents (f : Fifo) : list Z :=
  read_from (fifo f) (dequeueIndex f) (Z.to_nat (fifo_count f)).

Definition in_state (e : Engine) (s : RxState) : bool :=
  match esp_state e, s with
  | ESP8266_RESET, ESP8266_RESET
  | ESP8266_GET_READY, ESP8266_GET_READY
  | ESP8266_GET_OK, ESP8266_GET_OK
  | ESP8266_GET_RX_HEADER, ESP8266_GET_RX_HEADER
  | ESP8266_GET_RX_PACKET_SIZE, ESP8266_GET_RX_PACKET_SIZE
  | ESP8266_GET_RX_PACKET, ESP8266_GET_RX_PACKET
  | ESP8266_GET_TX, ESP8266_GET_TX => true
  | _, _ => false
  end.

(** Every packet length the stream declares to the engine is at most
    [cap]: whenever a colon ends a length field and the text parses, the
    value recorded in [packetSize] is at most [cap]. *)
Fixpoint declared_within (cap : Z) (e : Engine) (bytes : list Z) : bool :=
  match bytes with
  | [] => true
  | b :: rest =>
      match Esp8266_ProcessRxByte e b with
      | Ok e' =>
          (if in_state e ESP8266_GET_RX_PACKET_SIZE
              && in_state e' ESP8266_GET_RX_PACKET
           then packetSize e' <=? cap else true)
          && declared_within cap e' rest
      | OutOfBounds _ => true
      end
  end.

(** Every length field of the stream is short: whenever a byte reaches the
    engine in [ESP8266_GET_RX_PACKET_SIZE], fewer than [cap] bytes of the
    field have been collected before it. *)
Fixpoint fields_within (cap : Z) (e : Engine) (bytes : list Z) : bool :=
  match bytes with
  | [] => true
  | b :: rest =>
      (if in_state e ESP8266_GET_RX_PACKET_SIZE then count e <? cap else true)
      && match Esp8266_ProcessRxByte e b with
         | Ok e' => fields_within cap e' rest
         | OutOfBounds _ => true
         end
  end.

(** No access of the run leaves an array. *)
Definition in_bounds (e : Engine) (bytes : list Z) : Prop :=
  exists e', feed e bytes = Ok e'.

(** What holds of the engine between two interrupts. *)
Definition engine_inv (e : Engine) : Prop :=
  length (packet e) = Z.to_nat ESP8266_RX_BUFFER_SIZE /\
  match esp_state e with
  | ESP8266_RESET => True
  | ESP8266_GET_READY => 1 <= count e < sizeof READY_MSG - 1
  | ESP8266_GET_OK => 1 <= count e < sizeof OK_MSG - 1
  | ESP8266_GET_RX_HEADER => 1 <= count e < sizeof RX_PACKET_MSG - 1
  | ESP8266_GET_TX => 1 <= count e < sizeof TX_READY_MSG - 1
  | ESP8266_GET_RX_PACKET_SIZE => 0 <= count e
  | ESP8266_GET_RX_PACKET =>
      0 <= count e /\ (count e = 0 \/ count e < packetSize e) /\
      packetSize e <= ESP8266_RX_BUFFER_SIZE
  end.

(** The shape every engine has between two interrupts, whatever lengths
    the stream declared: literal counters inside their literal, and the
    packet cursor at most one past the end of [packet]. *)
Definition engine_shape (e : Engine) : Prop :=
  length (packet e) = Z.to_nat ESP8266_RX_BUFFER_SIZE /\
  match esp_state e with
  | ESP8266_RESET => True
  | ESP8266_GET_READY => 1 <= count e < sizeof READY_MSG - 1
  | ESP8266_GET_OK => 1 <= count e < sizeof OK_MSG - 1
  | ESP8266_GET_RX_HEADER => 1 <= count e < sizeof RX_PACKET_MSG - 1
  | ESP8266_GET_TX => 1 <= count e < sizeof TX_READY_MSG - 1
  | ESP8266_GET_RX_PACKET_SIZE | ESP8266_GET_RX_PACKET =>
      0 <= count e <= ESP8266_RX_BUFFER_SIZE
  end.

(** The bytes that start one of the four literals. *)
Definition starts_literal (b : Z) : bool :=
  (b =? 79) || (b =? 114) || (b =? 43) || (b =? 62).

(** An inbound packet whose length field is the arbitrary text [field]. *)
Definition field_stream (field body : list Z) : list Z :=
  chars RX_PACKET_MSG ++ field ++ [58] ++ body.

(** The three literals that raise a flag, each with its flag. *)
Definition flag_literals : list (list Z * Z) :=
  [(OK_MSG, ESP8266_OK_MESSAGE);
   (READY_MSG, ESP8266_READY_MESSAGE);
   (TX_READY_MSG, ESP8266_TX_READY_MESSAGE)].

(* ===================================================================== *)
(** ** Uart.c : the polled receive interface over the FIFO *)
(* ===================================================================== *)

Definition Uart_IsRxDataReady (f : Fifo) : Z :=
  if negb (Uart_FifoIsEmpty f) then 1 else 0.

Definition Uart_GetRxData (f : Fifo) : Outcome (Z * Fifo) := Uart_FifoDequeue f.

Definition Uart_ClearRxFifo (f : Fifo) : Fifo := Uart_FifoClear f.

(** A call of one of the FIFO functions. *)
Inductive FifoOp : Type :=
| Enqueue (x : Z)
| Dequeue
| IsRxDataReady
| ClearRxFifo.

(** The calls of [ops] in order on [f]: the values returned ([ClearRxFifo]
    returns nothing, noted 0 here) and the FIFO afterwards. *)
Fixpoint run_ops (f : Fifo) (ops : list FifoOp) : Outcome (list Z * Fifo) :=
  match ops with
  | [] => Ok ([], f)
  | op :: rest =>
      let* rf :=
        match op with
        | Enqueue x => Uart_FifoEnqueue f x
        | Dequeue => Uart_GetRxData f
        | IsRxDataReady => Ok (Uart_IsRxDataReady f, f)
        | ClearRxFifo => Ok (0, Uart_ClearRxFifo f)
        end in
      let* rsf := run_ops (snd rf) rest in
      Ok (fst rf :: fst rsf, snd rsf)
  end.

(** The same calls on a plain queue that holds at most 63 bytes, for
    comparison with [run_ops]: an enqueue on a full queue is refused with 0,
    a dequeue on an empty queue yields 0. *)
Fixpoint queue_ops (q : list Z) (ops : list FifoOp) : list Z * list Z :=
  match ops with
  | [] => ([], q)
  | op :: rest =>
      let '(r, q1) :=
        match op with
        | Enqueue x =>
            if (length q <? 63)%nat then (1, q ++ [x]) else (0, q)
        | Dequeue =>
            match q with
            | [] => (0, [])
            | x :: q' => (x, q')
            end
        | IsRxDataReady => (match q with [] => 0 | _ => 1 end, q)
        | ClearRxFifo => (0, [])
        end in
      let '(rs, q2) := queue_ops q1 rest in
      (r :: rs, q2)
  end.

(* ===================================================================== *)
(** ** Uart.c : transmission *)
(* ===================================================================== *)

(** The loop of [Uart_Send]: byte [i], then the [n] - 1 bytes after it, each
    handed to [UART2_SendData8]; the result is what goes out on the wire.
    The wait for the transmit flag after each byte is taken to end.  The
    loop counter is an [int]; it leaves the buffer long before it leaves
    the range of [int], the buffers of this program holding 64 bytes at
    most. *)
Fixpoint send_loop (buffer : list Z) (i : Z) (n : nat) : Outcome (list Z) :=
  match n with
  | O => Ok []
  | S m =>
      let* c := load buffer i in
      let* rest := send_loop buffer (i + 1) m in
      Ok (c :: rest)
  end.

Definition Uart_Send (buffer : list Z) (length : Z) : Outcome (list Z) :=
  send_loop buffer 0 (Z.to_nat length).

(** [strlen] and [Uart_Print]. *)
Definition strlen (str : list Z) : Z := Z.of_nat (length (c_str str)).
Definition Uart_Print (str : list Z) : Outcome (list Z) :=
  Uart_Send str (strlen str).

(* ===================================================================== *)
(** ** sprintf *)
(* ===================================================================== *)

Fixpoint utoa_aux (fuel : nat) (n : Z) (acc : list Z) : list Z :=
  match fuel with
  | O => acc
  | S f =>
      let acc' := (48 + n mod 10) :: acc in
      if n / 10 =? 0 then acc' else utoa_aux f (n / 10) acc'
  end.

(** Decimal digits of an unsigned value of at most ten digits ("%u"), and
    of a signed one ("%d"). *)
Definition utoa (n : Z) : list Z := utoa_aux 10 n [].
Definition itoa (n : Z) : list Z := if n <? 0 then 45 :: utoa (- n) else utoa n.

(** Truncation to the 16-bit [unsigned short] / [unsigned int]. *)
Definition to_ushort (z : Z) : Z := z mod 65536.

(** Modelled from the spec: the C library function [sprintf] is called by
    the command functions of Esp8266.c but is not part of the repository
    sources; the spec gives the command texts it has to produce.  [text] is
    the expansion of the format; it is written into [buf] followed by a NUL
    and its length is returned; a text that does not leave room for the NUL
    runs past the end of [buf]. *)
Definition sprintf (buf text : list Z) : Outcome (list Z * Z) :=
  if (length text <? length buf)%nat
  then Ok (text ++ 0 :: drop (S (length text)) buf, Z.of_nat (length text))
  else OutOfBounds (Z.of_nat (length buf)).

Definition CR_LF : list Z := [13; 10].
Definition QUOTE : Z := 34.

(* ===================================================================== *)
(** ** Esp8266.c : the command functions *)
(* ===================================================================== *)

(** The protocol engine together with its surroundings: the bursts the
    receive interrupt still has to deliver, everything transmitted so far
    and every peripheral call of the drive controller so far. *)
Record World : Type := mkWorld {
  eng   : Engine;
  irq   : list (list Z);
  tx    : list Z;
  drive : list HwOp
}.

(** A command function returns, or is still polling in [WaitForResponse]
    when the interrupt schedule is used up, or has left an array. *)
Inductive Result (A : Type) : Type :=
| Finished (a : A) (w : World)
| Blocked (w : World)
| Failed (idx : Z).
Arguments Finished {A} a w.
Arguments Blocked {A} w.
Arguments Failed {A} idx.

Definition and_then {A B : Type} (m : Result A) (k : A -> World -> Result B)
    : Result B :=
  match m with
  | Finished a w => k a w
  | Blocked w => Blocked w
  | Failed i => Failed i
  end.

Notation "'do' x := m 'in' k" := (and_then m (fun x => k))
  (at level 10, x pattern, m at level 100, k at level 200).

(** [Uart_Send(buffer, length)] in a world. *)
Definition send (buffer : list Z) (length : Z) (w : World) : Result unit :=
  match Uart_Send buffer length with
  | Ok bytes => Finished tt (mkWorld (eng w) (irq w) (tx w ++ bytes) (drive w))
  | OutOfBounds i => Failed i
  end.

(** [WaitForResponse(msgType, timeout)] in a world. *)
Definition wait (msgType timeout : Z) (w : World) : Result Z :=
  match WaitForResponse msgType timeout (eng w) (irq w) with
  | Returned r e rest => Finished r (mkWorld e rest (tx w) (drive w))
  | Spinning e => Blocked (mkWorld e [] (tx w) (drive w))
  | Crashed i => Failed i
  end.

(** [sprintf(buf, ...)] followed by [Uart_Send(buf, size)]. *)
Definition print_and_send (buf text : list Z) (w : World) : Result (list Z) :=
  match sprintf buf text with
  | Ok (buf', size) => and_then (send buf' size w) (fun _ w' => Finished buf' w')
  | OutOfBounds i => Failed i
  end.

Definition Esp8266_Validate (w : World) : Result unit :=
  let cmd := bytes_of "AT" ++ CR_LF ++ [0] in
  do _ := send cmd (sizeof cmd - 1) w in
  fun w => do _ := wait ESP8266_OK_MESSAGE TIMEOUT_SHORT w in Finished tt.

Definition Esp8266_Reset (w : World) : Result unit :=
  let cmd := bytes_of "AT+RST" ++ CR_LF ++ [0] in
  do _ := send cmd (sizeof cmd - 1) w in
  fun w => do _ := wait ESP8266_READY_MESSAGE TIMEOUT_LONG w in Finished tt.

Definition Esp8266_DisableEcho (w : World) : Result unit :=
  let cmd := bytes_of "ATE0" ++ CR_LF ++ [0] in
  do _ := send cmd (sizeof cmd - 1) w in
  fun w => do _ := wait ESP8266_OK_MESSAGE TIMEOUT_SHORT w in Finished tt.

Definition Esp8266_SetAccessPointName (name : list Z) (w : World) : Result unit :=
  let buf := replicate 64 0 in
  let text := bytes_of "AT+CWSAP=" ++ [QUOTE] ++ c_str name ++ [QUOTE]
              ++ bytes_of "," ++ [QUOTE; QUOTE] ++ bytes_of ",5,0" ++ CR_LF in
  do _ := print_and_send buf text w in
  fun w => do _ := wait ESP8266_OK_MESSAGE TIMEOUT_SHORT w in Finished tt.

Definition Esp8266_StartClient (type ip : list Z) (port : Z) (w : World)
    : Result unit :=
  let buf := replicate 64 0 in
  do buf1 := print_and_send buf (bytes_of "AT+CIPMUX=1" ++ CR_LF) w in
  fun w =>
  do _ := wait ESP8266_OK_MESSAGE TIMEOUT_SHORT w in
  fun w =>
  let text := bytes_of "AT+CIPSTART=1," ++ [QUOTE] ++ c_str type ++ [QUOTE]
              ++ bytes_of "," ++ [QUOTE] ++ c_str ip ++ [QUOTE]
              ++ bytes_of "," ++ utoa (to_ushort port)
              ++ bytes_of "," ++ utoa (to_ushort port)
              ++ bytes_of ",0" ++ CR_LF in
  do _ := print_and_send buf1 text w in
  fun w => do _ := wait ESP8266_OK_MESSAGE TIMEOUT_SHORT w in Finished tt.

Definition Esp8266_SetTcpServerTimeout (seconds : Z) (w : World) : Result unit :=
  let buf := replicate 64 0 in
  let text := bytes_of "AT+CIPSTO=" ++ utoa (to_ushort seconds) ++ CR_LF in
  do _ := print_and_send buf text w in
  fun w => do _ := wait ESP8266_OK_MESSAGE TIMEOUT_SHORT w in Finished tt.

Definition ESP8266_SERVER_TIMEOUT : Z := 300.

Definition Esp8266_StartTcpServer (port : Z) (w : World) : Result unit :=
  let buf := replicate 64 0 in
  do buf1 := print_and_send buf (bytes_of "AT+CIPMUX=1" ++ CR_LF) w in
  fun w =>
  do _ := wait ESP8266_OK_MESSAGE TIMEOUT_SHORT w in
  fun w =>
  let text := bytes_of "AT+CIPSERVER=1," ++ utoa (to_ushort port) ++ CR_LF in
  do _ := print_and_send buf1 text w in
  fun w =>
  do _ := wait ESP8266_OK_MESSAGE TIMEOUT_SHORT w in
  Esp8266_SetTcpServerTimeout ESP8266_SERVER_TIMEOUT.

(** The text "%d" gives for the [unsigned short] length, read as an
    [int]. *)
Definition send_command (length : Z) : list Z :=
  bytes_of "AT+CIPSEND=1," ++ itoa (to_int length) ++ CR_LF.

Definition Esp8266_SendMsg (buffer : list Z) (length : Z) (w : World)
    : Result unit :=
  let buf := replicate 32 0 in
  do _ := print_and_send buf (send_command length) w in
  fun w =>
  do _ := wait ESP8266_TX_READY_MESSAGE TIMEOUT_SHORT w in
  fun w =>
  do _ := send buffer length w in
  send (CR_LF ++ [0]) 2.

Definition set_world_status (s : Z) (w : World) : World :=
  mkWorld (set_status s (eng w)) (irq w) (tx w) (drive w).

(** [Esp8266_Initialize]: the UART set-up calls configure the peripheral
    and register [Esp8266_ProcessRxByte] as the receive callback, which is
    what [irq] and [feed] stand for. *)
Definition Esp8266_Initialize (w : World) : Result unit :=
  let w := set_world_status 0 w in
  do _ := Esp8266_Validate w in
  fun w =>
  do _ := Esp8266_Reset w in
  fun w =>
  do _ := Esp8266_DisableEcho w in
  fun w => Finished tt (set_world_status 0 w).

(** What a command function has done to the wire and the pins when it
    returns ([after]) or is left waiting ([during]). *)
Definition wire_outcome {A : Type} (r : Result A)
    (after during : World -> Prop) : Prop :=
  match r with
  | Finished _ w' => after w'
  | Blocked w' => during w'
  | Failed _ => True
  end.

(* ===================================================================== *)
(** ** main.c : the packet branch of the main loop *)
(* ===================================================================== *)

(** The statement [if(length = Esp8266_ReceiveMsg(packet)) { switch ...;
    Esp8266_SendMsg(packet, length); }] of the main loop, on main's local
    buffer [p]; the result is that buffer afterwards. *)
Definition main_poll (p : list Z) (w : World) : Result (list Z) :=
  match Esp8266_ReceiveMsg (eng w) p with
  | OutOfBounds i => Failed i
  | Ok (r, e1, p1) =>
      let length := to_ushort r in
      if negb (length =? 0)
      then
        let w1 := mkWorld e1 (irq w) (tx w) (drive w ++ main_dispatch p1) in
        do _ := Esp8266_SendMsg p1 length w1 in
        Finished p1
      else Finished p1 (mkWorld e1 (irq w) (tx w) (drive w))
  end.

(** The LED statement of the main loop, run when [IsTimerExpired()]
    holds: [if(++led_count >= 250) { ToggleLED(); led_count = 0; }].  The
    state is [led_count] and the level of the LED pin. *)
Definition led_tick (st : Z * bool) : Z * bool :=
  let '(led_count, led) := st in
  let led_count := led_count + 1 in
  if led_count >=? 250 then (0, negb led) else (led_count, led).

(** [n] expirations of the timer, one after the other. *)
Definition led_ticks (n : nat) (st : Z * bool) : Z * bool :=
  Nat.iter n led_tick st.

(* ===================================================================== *)
(** ** The peripherals behind the drive calls *)
(* ===================================================================== *)

(** The output latches of the four motor pins and the two compare
    registers of timer 2, as the peripheral calls of [HwOp] leave them:
    [GPIO_WriteHigh] sets a pin, [GPIO_WriteLow] clears it,
    [TIM2_SetCompare1/2] load a compare register. *)
Record Hw : Type := mkHw {
  pa3 : bool; pa4 : bool; pg0 : bool; pg1 : bool;
  ccr1 : Z; ccr2 : Z
}.

Definition write_pin (port : Port) (pin : Pin) (v : bool) (h : Hw) : Hw :=
  match port, pin with
  | GPIOA, GPIO_PIN_3 => mkHw v (pa4 h) (pg0 h) (pg1 h) (ccr1 h) (ccr2 h)
  | GPIOA, GPIO_PIN_4 => mkHw (pa3 h) v (pg0 h) (pg1 h) (ccr1 h) (ccr2 h)
  | GPIOG, GPIO_PIN_0 => mkHw (pa3 h) (pa4 h) v (pg1 h) (ccr1 h) (ccr2 h)
  | GPIOG, GPIO_PIN_1 => mkHw (pa3 h) (pa4 h) (pg0 h) v (ccr1 h) (ccr2 h)
  | _, _ => h
  end.

Definition exec_op (h : Hw) (op : HwOp) : Hw :=
  match op with
  | GPIO_WriteLow port pin => write_pin port pin false h
  | GPIO_WriteHigh port pin => write_pin port pin true h
  | TIM2_SetCompare1 v => mkHw (pa3 h) (pa4 h) (pg0 h) (pg1 h) v (ccr2 h)
  | TIM2_SetCompare2 v => mkHw (pa3 h) (pa4 h) (pg0 h) (pg1 h) (ccr1 h) v
  end.

Definition exec (h : Hw) (ops : list HwOp) : Hw := fold_left exec_op ops h.

(** The two inputs of the left and of the right motor driver. *)
Definition left_inputs (h : Hw) : bool * bool := (pa3 h, pa4 h).
Definition right_inputs (h : Hw) : bool * bool := (pg0 h, pg1 h).

(** Inputs of one motor: coasting, turning forward, turning backward. *)
Definition OFF : bool * bool := (false, false).
Definition FWD : bool * bool := (true, false).
Definition BWD : bool * bool := (false, true).

(** Every state the peripherals pass through while [ops] execute, the
    starting state left out. *)
Fixpoint passes (h : Hw) (ops : list HwOp) : list Hw :=
  match ops with
  | [] => []
  | op :: rest => exec_op h op :: passes (exec_op h op) rest
  end.

(** No motor has both inputs high, and the two PWM channels carry the same
    duty, between 0 and the timer period. *)
Definition hw_ok (h : Hw) : Prop :=
  left_inputs h <> (true, true) /\
  right_inputs h <> (true, true) /\
  ccr1 h = ccr2 h /\
  0 <= ccr1 h <= PWM_TIMER_MAX_COUNT.

(* ===================================================================== *)
(** * Properties *)
(* ===================================================================== *)

(** *** Arrays *)

Lemma store_in (buf : list Z) (i v : Z) :
  0 <= i < Z.of_nat (length buf) ->
  store buf i v = Ok (take (Z.to_nat i) buf ++ v :: drop (S (Z.to_nat i)) buf).
Proof.
  intros Hi. unfold store.
  replace ((0 <=? i) && (i <? Z.of_nat (length buf))) with true
    by (symmetry; apply andb_true_iff; split; [apply Z.leb_le | apply Z.ltb_lt]; lia).
  f_equal. apply insert_take_drop. lia.
Qed.

Lemma store_out (buf : list Z) (i v : Z) :
  Z.of_nat (length buf) <= i -> store buf i v = OutOfBounds i.
Proof.
  intros Hi. unfold store.
  replace (i <? Z.of_nat (length buf)) with false
    by (symmetry; apply Z.ltb_ge; lia).
  now rewrite andb_false_r.
Qed.

Lemma load_in (buf : list Z) (i : Z) :
  0 <= i < Z.of_nat (length buf) -> load buf i = Ok (nth (Z.to_nat i) buf 0).
Proof.
  intros Hi. unfold load.
  replace ((0 <=? i) && (i <? Z.of_nat (length buf))) with true
    by (symmetry; apply andb_true_iff; split; [apply Z.leb_le | apply Z.ltb_lt]; lia).
  reflexivity.
Qed.

Lemma bind_Ok_inv {A B : Type} (m : Outcome A) (k : A -> Outcome B) (b : B) :
  bind m k = Ok b -> exists a, m = Ok a /\ k a = Ok b.
Proof. destruct m as [a|i]; simpl; intros H; [eauto | discriminate]. Qed.

(** *** Bursts *)

Lemma feed_app (e : Engine) (xs ys : list Z) :
  feed e (xs ++ ys) = bind (feed e xs) (fun e' => feed e' ys).
Proof.
  revert e. induction xs as [|x xs IH]; intros e; simpl; [reflexivity|].
  destruct (Esp8266_ProcessRxByte e x) as [e1|i]; simpl; [apply IH | reflexivity].
Qed.

Lemma feed_Ok_app (e e1 : Engine) (xs ys : list Z) :
  feed e xs = Ok e1 -> feed e (xs ++ ys) = feed e1 ys.
Proof. intros H. now rewrite feed_app, H. Qed.

Example feed_OK :
  feed Esp8266_boot (chars OK_MSG)
  = Ok (mkEngine ESP8266_RESET 4 (replicate 64 0) 0 1).
Proof. reflexivity. Qed.

Example feed_packet_1_75 :
  feed Esp8266_boot (chars RX_PACKET_MSG ++ decimal 2 ++ [58] ++ [1; 75])
  = Ok (mkEngine ESP8266_RESET 2 ([1; 75] ++ replicate 62 0) 2 8).
Proof. reflexivity. Qed.

(** *** The inbound packet, stage by stage *)

(** The header literal takes the idle machine to the length field. *)
Lemma feed_header (e : Engine) :
  esp_state e = ESP8266_RESET ->
  feed e (chars RX_PACKET_MSG)
  = Ok (mkEngine ESP8266_GET_RX_PACKET_SIZE 0 (packet e) (packetSize e) (status e)).
Proof. destruct e as [st c pk ps s]; simpl; intros ->; reflexivity. Qed.

Lemma store_middle (pre post : list Z) (old v : Z) :
  store (pre ++ old :: post) (Z.of_nat (length pre)) v = Ok (pre ++ v :: post).
Proof.
  unfold store.
  replace ((0 <=? Z.of_nat (length pre))
           && (Z.of_nat (length pre) <? Z.of_nat (length (pre ++ old :: post))))
    with true.
  - rewrite Nat2Z.id, insert_app_r_alt, Nat.sub_diag by lia. reflexivity.
  - symmetry. apply andb_true_iff. rewrite length_app. simpl.
    split; [apply Z.leb_le | apply Z.ltb_lt]; lia.
Qed.

(** Bytes other than the colon pile up in [packet] from [count] on,
    replacing what was there. *)
Lemma feed_length_field (ds : list Z) : forall (pre mid post : list Z) (e : Engine),
  esp_state e = ESP8266_GET_RX_PACKET_SIZE ->
  packet e = pre ++ mid ++ post ->
  count e = Z.of_nat (length pre) ->
  length mid = length ds ->
  Forall (fun d => d <> 58) ds ->
  feed e ds
  = Ok (mkEngine ESP8266_GET_RX_PACKET_SIZE
          (Z.of_nat (length pre) + Z.of_nat (length ds))
          (pre ++ ds ++ post) (packetSize e) (status e)).
Proof.
  induction ds as [|d ds IH]; intros pre mid post [st c pk ps s] Hst Hpk Hc Hmid Hne;
    simpl in Hst, Hpk, Hc; subst st pk c.
  - destruct mid; [|discriminate]. simpl. now rewrite Z.add_0_r.
  - destruct mid as [|m mid]; [discriminate|].
    injection Hmid as Hmid. inversion Hne as [|? ? Hd Hds]; subst.
    cbn [feed]. unfold Esp8266_ProcessRxByte. cbn [esp_state packet count].
    replace (d =? 58) with false by (symmetry; now apply Z.eqb_neq).
    cbn [negb app]. rewrite store_middle. cbn [bind].
    unfold set_count, set_packet; cbn [esp_state packet count packetSize status].
    rewrite (IH (pre ++ [d]) mid post); cbn [esp_state packet count packetSize status];
      try easy.
    + rewrite length_app, <- !app_assoc. cbn [length app].
      f_equal. f_equal. lia.
    + now rewrite <- app_assoc.
    + rewrite length_app. simpl. lia.
Qed.

Lemma c_str_app_nul (pre post : list Z) :
  Forall (fun c => c <> 0) pre -> c_str (pre ++ 0 :: post) = pre.
Proof.
  induction 1 as [|c pre Hc _ IH]; simpl; [reflexivity|].
  replace (c =? 0) with false by (symmetry; now apply Z.eqb_neq).
  now rewrite IH.
Qed.

(** The colon terminates the text collected so far and has it parsed. *)
Lemma step_colon (pre post : list Z) (old : Z) (e : Engine) :
  esp_state e = ESP8266_GET_RX_PACKET_SIZE ->
  packet e = pre ++ old :: post ->
  count e = Z.of_nat (length pre) ->
  Forall (fun c => c <> 0) pre ->
  Esp8266_ProcessRxByte e 58
  = Ok match scan_d pre with
       | Some size =>
           mkEngine ESP8266_GET_RX_PACKET 0 (pre ++ 0 :: post) size (status e)
       | None =>
           mkEngine ESP8266_RESET (count e) (pre ++ 0 :: post)
             (packetSize e) (status e)
       end.
Proof.
  destruct e as [st c pk ps s]; simpl; intros -> -> -> Hnz.
  unfold Esp8266_ProcessRxByte; simpl.
  rewrite store_middle; simpl.
  unfold sscanf_d. rewrite c_str_app_nul by assumption.
  now destruct (scan_d pre).
Qed.

(** Body bytes are stored from [count] on; the byte that brings the count
    up to [packetSize] raises the flag and resets the machine. *)
Lemma feed_body (bs : list Z) : forall (pre mid post : list Z) (e : Engine),
  esp_state e = ESP8266_GET_RX_PACKET ->
  packet e = pre ++ mid ++ post ->
  count e = Z.of_nat (length pre) ->
  length mid = length bs ->
  bs <> [] ->
  packetSize e = Z.of_nat (length pre) + Z.of_nat (length bs) ->
  feed e bs
  = Ok (mkEngine ESP8266_RESET (packetSize e) (pre ++ bs ++ post) (packetSize e)
          (to_uchar (Z.lor (status e) ESP8266_RX_PACKET_MESSAGE))).
Proof.
  induction bs as [|b bs IH]; intros pre mid post [st c pk ps s] Hst Hpk Hc Hmid Hbs Hps;
    simpl in Hst, Hpk, Hc, Hps; subst st pk c; [congruence|].
  destruct mid as [|m mid]; [discriminate|]. injection Hmid as Hmid.
  cbn [length] in Hps. rewrite Nat2Z.inj_succ in Hps.
  cbn [feed]. unfold Esp8266_ProcessRxByte. cbn [esp_state packet count app].
  rewrite store_middle. cbn [bind].
  unfold set_count, set_packet; cbn [esp_state packet count packetSize status].
  destruct bs as [|b' bs].
  - destruct mid; [|discriminate].
    replace (Z.of_nat (length pre) + 1 >=? ps) with true
      by (symmetry; rewrite Z.geb_leb; apply Z.leb_le; simpl in Hps; lia).
    simpl. unfold raise, set_status, set_state; simpl.
    f_equal. f_equal. simpl in Hps. lia.
  - replace (Z.of_nat (length pre) + 1 >=? ps) with false
      by (symmetry; rewrite Z.geb_leb; apply Z.leb_gt; cbn [length] in Hps; lia).
    cbn [bind].
    rewrite (IH (pre ++ [b]) mid post);
      cbn [esp_state packet count packetSize status]; try easy.
    + now rewrite <- !app_assoc.
    + now rewrite <- app_assoc.
    + rewrite length_app. simpl. lia.
    + rewrite length_app. cbn [length] in *. lia.
Qed.

(** *** The length field written in decimal *)

Ltac zcases :=
  repeat match goal with
  | |- context [?a =? ?b] => destruct (Z.eqb_spec a b); try lia
  | |- context [?a <=? ?b] => destruct (Z.leb_spec a b); try lia
  | |- context [?a <? ?b] => destruct (Z.ltb_spec a b); try lia
  end.

Lemma scan_digit (d acc : Z) (rest : list Z) :
  0 <= d <= 9 ->
  scan_digits acc (digit d :: rest) = scan_digits (10 * acc + d) rest.
Proof.
  intros Hd. unfold digit. cbn [scan_digits]. unfold isdigit.
  zcases. cbn [andb]. f_equal. lia.
Qed.

Lemma scan_d_digits (d : Z) (rest : list Z) :
  0 <= d <= 9 ->
  scan_d (digit d :: rest) = Some (to_int (scan_digits d rest)).
Proof.
  intros Hd. unfold scan_d.
  assert (Hsp : skip_space (digit d :: rest) = digit d :: rest).
  { unfold digit. cbn [skip_space]. unfold isspace. zcases. reflexivity. }
  rewrite Hsp. unfold scan_sign.
  assert (H45 : (digit d =? 45) = false) by (unfold digit; zcases; reflexivity).
  assert (H43 : (digit d =? 43) = false) by (unfold digit; zcases; reflexivity).
  rewrite H45, H43.
  assert (Hdig : isdigit (digit d) = true)
    by (unfold isdigit, digit; zcases; reflexivity).
  rewrite Hdig, scan_digit by assumption.
  do 3 f_equal.
Qed.

Lemma to_int_small (z : Z) : -32768 <= z < 32768 -> to_int z = z.
Proof. intros H. unfold to_int. rewrite Z.mod_small; lia. Qed.

(** Parsing undoes printing, for every length that fits three digits. *)
Lemma scan_d_decimal (n : Z) : 0 <= n < 1000 -> scan_d (decimal n) = Some n.
Proof.
  intros Hn. unfold decimal.
  destruct (Z.ltb_spec n 10); [|destruct (Z.ltb_spec n 100)].
  - rewrite scan_d_digits by lia. cbn [scan_digits]. now rewrite to_int_small by lia.
  - pose proof (Z.div_mod n 10 ltac:(lia)).
    pose proof (Z.mod_pos_bound n 10 ltac:(lia)).
    assert (1 <= n / 10 <= 9) by lia.
    rewrite scan_d_digits, scan_digit by lia. cbn [scan_digits].
    rewrite to_int_small by lia. f_equal. lia.
  - pose proof (Z.div_mod n 10 ltac:(lia)).
    pose proof (Z.mod_pos_bound n 10 ltac:(lia)).
    pose proof (Z.div_mod (n / 10) 10 ltac:(lia)).
    pose proof (Z.mod_pos_bound (n / 10) 10 ltac:(lia)).
    assert (Hh : n / 100 = n / 10 / 10) by (change 100 with (10 * 10); rewrite Z.div_div; lia).
    assert (1 <= n / 100 <= 9) by lia.
    rewrite scan_d_digits, !scan_digit by lia. cbn [scan_digits].
    rewrite to_int_small by lia. f_equal. lia.
Qed.

Lemma decimal_chars (n : Z) :
  0 <= n < 1000 ->
  Forall (fun c => 48 <= c <= 57) (decimal n).
Proof.
  intros Hn. unfold decimal, digit.
  pose proof (Z.mod_pos_bound n 10 ltac:(lia)).
  pose proof (Z.mod_pos_bound (n / 10) 10 ltac:(lia)).
  pose proof (Z.div_mod n 10 ltac:(lia)).
  pose proof (Z.div_mod (n / 10) 10 ltac:(lia)).
  assert (Hh : n / 100 = n / 10 / 10) by (change 100 with (10 * 10); rewrite Z.div_div; lia).
  destruct (Z.ltb_spec n 10); [|destruct (Z.ltb_spec n 100)];
    repeat constructor; lia.
Qed.

Lemma decimal_length (n : Z) : (1 <= length (decimal n) <= 3)%nat.
Proof.
  unfold decimal.
  destruct (n <? 10); [|destruct (n <? 100)]; simpl; lia.
Qed.


(** *** Single bits of the status word *)

Lemma land_pow2 (s i : Z) :
  0 <= i -> Z.land s (2 ^ i) = if Z.testbit s i then 2 ^ i else 0.
Proof.
  intros Hi. apply Z.bits_inj'. intros n Hn.
  rewrite Z.land_spec, Z.pow2_bits_eqb by lia.
  destruct (Z.eqb_spec i n) as [->|Hne].
  - destruct (Z.testbit s n); [|now rewrite Z.bits_0].
    rewrite Z.pow2_bits_eqb, Z.eqb_refl by lia. reflexivity.
  - rewrite andb_false_r.
    destruct (Z.testbit s i); [|now rewrite Z.bits_0].
    rewrite Z.pow2_bits_eqb by lia. symmetry. now apply Z.eqb_neq.
Qed.

Lemma packet_available_bit (e : Engine) :
  packet_available e = Z.testbit (status e) 3.
Proof.
  unfold packet_available, ESP8266_RX_PACKET_MESSAGE.
  change 8 with (2 ^ 3). rewrite land_pow2 by lia.
  now destruct (Z.testbit (status e) 3).
Qed.

(** *** C1 *)

Lemma raised_bit (s flag : Z) (i : Z) :
  0 <= i < 8 -> Z.testbit flag i = true ->
  Z.testbit (to_uchar (Z.lor s flag)) i = true.
Proof.
  intros Hi Hf. unfold to_uchar. change 256 with (2 ^ 8).
  rewrite Z.mod_pow2_bits_low by lia.
  now rewrite Z.lor_spec, Hf, orb_true_r.
Qed.

(** C1 (amended): for every declared length L in [1, 64], feeding the idle
    engine the header "+IPD,1,", the decimal digits of L, ':' and exactly L
    arbitrary body bytes sets the packet-available bit, records length L,
    leaves the first L bytes of the packet buffer equal to the body, and
    returns the machine to idle. *)
Theorem packet_delivered (L : Z) (body : list Z) (e : Engine) :
  1 <= L <= ESP8266_RX_BUFFER_SIZE ->
  Z.of_nat (length body) = L ->
  esp_state e = ESP8266_RESET ->
  length (packet e) = Z.to_nat ESP8266_RX_BUFFER_SIZE ->
  delivered e L body.
Proof.
  unfold ESP8266_RX_BUFFER_SIZE. intros HL Hbody Hst Hlen.
  change (Z.to_nat 64) with 64%nat in Hlen.
  unfold delivered, packet_stream.
  rewrite (feed_Ok_app _ _ _ _ (feed_header e Hst)).
  pose proof (decimal_length L) as Hk.
  pose proof (decimal_chars L ltac:(lia)) as Hch.
  set (k := length (decimal L)) in *.
  (* the length field overwrites the first k bytes *)
  set (e1 := mkEngine ESP8266_GET_RX_PACKET_SIZE 0 (packet e) (packetSize e) (status e)).
  assert (H1 : feed e1 (decimal L)
               = Ok (mkEngine ESP8266_GET_RX_PACKET_SIZE (Z.of_nat k)
                       (decimal L ++ drop k (packet e)) (packetSize e) (status e))).
  { apply (feed_length_field (decimal L) [] (take k (packet e)) (drop k (packet e)) e1).
    - reflexivity.
    - symmetry. apply (take_drop k (packet e)).
    - reflexivity.
    - rewrite length_take. fold k. lia.
    - eapply Forall_impl; [exact Hch | simpl; lia]. }
  rewrite (feed_Ok_app _ _ _ _ H1). clear H1.
  (* the colon *)
  destruct (drop k (packet e)) as [|old post] eqn:Hdrop.
  { apply (f_equal length) in Hdrop. rewrite length_drop in Hdrop. simpl in Hdrop. lia. }
  cbn [feed app].
  erewrite (step_colon (decimal L) post old);
    [ | reflexivity | reflexivity | reflexivity
      | eapply Forall_impl; [exact Hch | simpl; lia] ].
  rewrite scan_d_decimal by lia. cbn [bind status].
  (* the body *)
  set (pk2 := decimal L ++ 0 :: post).
  assert (Hpk2 : length pk2 = 64%nat).
  { unfold pk2. rewrite length_app. cbn [length]. fold k.
    apply (f_equal length) in Hdrop. rewrite length_drop in Hdrop.
    cbn [length] in Hdrop. lia. }
  rewrite (feed_body body [] (take (Z.to_nat L) pk2) (drop (Z.to_nat L) pk2));
    cbn [esp_state packet count packetSize status length app Z.of_nat Z.add];
    try easy.
  - eexists. split; [reflexivity|].
    cbn [esp_state packet count packetSize status].
    rewrite packet_available_bit. cbn [status].
    repeat split.
    + now apply raised_bit.
    + rewrite take_app_length'; [reflexivity | lia].
  - now rewrite take_drop.
  - rewrite length_take. lia.
  - destruct body; [simpl in Hbody; lia | discriminate].
Qed.

(** C1, witness: a two-byte packet delivered to the freshly booted engine. *)
Lemma packet_delivered_witness : delivered Esp8266_boot 2 [1; 75].
Proof.
  apply packet_delivered; [unfold ESP8266_RX_BUFFER_SIZE; lia | reflexivity..].
Defined.

(** C1, counterexample: with declared length 0 and no body byte the flag is
    not raised and the machine waits in [ESP8266_GET_RX_PACKET]. *)
Lemma zero_length_not_delivered : ~ delivered Esp8266_boot 0 [].
Proof.
  intros (e' & Hfeed & Havail & _).
  vm_compute in Hfeed. injection Hfeed as <-. discriminate Havail.
Qed.

Example zero_length_waits :
  feed Esp8266_boot (packet_stream 0 [])
  = Ok (mkEngine ESP8266_GET_RX_PACKET 0 ([48] ++ replicate 63 0) 0 0).
Proof. reflexivity. Qed.


(** *** C2 *)

Lemma feed_cons (e : Engine) (b : Z) (bs : list Z) :
  feed e (b :: bs) = bind (Esp8266_ProcessRxByte e b) (fun e' => feed e' bs).
Proof. reflexivity. Qed.

(** In the idle state every byte is consumed; the first byte of a literal
    selects its matching state. *)
Lemma step_idle (e : Engine) (b : Z) :
  esp_state e = ESP8266_RESET ->
  Esp8266_ProcessRxByte e b
  = Ok (mkEngine (first_byte b) 1 (packet e) (packetSize e) (status e)).
Proof. destruct e; simpl; intros ->; reflexivity. Qed.

Lemma first_byte_other (b : Z) :
  b <> 79 -> b <> 114 -> b <> 43 -> b <> 62 -> first_byte b = ESP8266_RESET.
Proof.
  intros. unfold first_byte. cbn [nth OK_MSG READY_MSG RX_PACKET_MSG TX_READY_MSG].
  zcases. reflexivity.
Qed.

(** In a matching state a byte that differs from the expected one resets
    the machine and touches nothing else. *)
Lemma step_mismatch (e : Engine) (b : Z) (msg : list Z) (c : Z) :
  literal_of (esp_state e) = Some msg ->
  load msg (count e) = Ok c ->
  b <> c ->
  Esp8266_ProcessRxByte e b = Ok (set_state ESP8266_RESET e).
Proof.
  intros Hlit Hload Hne.
  assert (Hm : forall k, match_literal msg k e b = Ok (set_state ESP8266_RESET e)).
  { intros k. unfold match_literal. rewrite Hload. cbn [bind].
    now replace (b =? c) with false by (symmetry; now apply Z.eqb_neq). }
  unfold Esp8266_ProcessRxByte.
  destruct (esp_state e); try discriminate; injection Hlit as <-; apply Hm.
Qed.

(** Evaluate one step of the machine on a known byte. *)
Ltac step_known :=
  rewrite feed_cons;
  match goal with
  | |- context [Esp8266_ProcessRxByte ?e ?b] =>
      tryif is_var b then fail else idtac;
      let r := eval vm_compute in (Esp8266_ProcessRxByte e b) in
      change (Esp8266_ProcessRxByte e b) with r
  end;
  cbn [bind].

(** One step on a byte known only to differ from the expected one. *)
Ltac step_wrong :=
  rewrite feed_cons;
  erewrite step_mismatch;
    [ cbn [bind]; unfold set_state; cbn [esp_state count packet packetSize status]
    | reflexivity | vm_compute; reflexivity | congruence ].

Lemma corrupt_resets (e : Engine) (msg : list Z) (off : nat) (b : Z) :
  esp_state e = ESP8266_RESET ->
  In msg literals ->
  (off < length (chars msg))%nat ->
  nth off (chars msg) 0 <> b ->
  rejected e (corrupt msg off b).
Proof.
  unfold rejected.
  destruct e as [st c pk ps s]. cbn [esp_state status packet packetSize].
  intros -> Hin Hoff Hb.
  unfold literals in Hin. cbn [In] in Hin.
  destruct Hin as [<-|[<-|[<-|[<-|[]]]]];
    cbn in Hoff;
    repeat (destruct off as [|off]; [ | try (exfalso; lia) ]);
    cbn in Hb;
    match goal with
    | |- context [corrupt ?m ?o ?x] =>
        let l := eval cbv in (corrupt m o x) in change (corrupt m o x) with l
    end.
  all: try (repeat step_known; step_wrong; repeat step_known;
            eexists; split; [reflexivity | repeat split]).
  all: rewrite feed_cons, step_idle by reflexivity; cbn [bind packet packetSize status].
  all: destruct (Z.eq_dec b 79) as [->|?];
         [| destruct (Z.eq_dec b 114) as [->|?];
            [| destruct (Z.eq_dec b 43) as [->|?];
               [| destruct (Z.eq_dec b 62) as [->|?];
                  [| rewrite first_byte_other by assumption ]]]].
  all: try congruence.
  all: try (change (first_byte 79) with ESP8266_GET_OK).
  all: try (change (first_byte 114) with ESP8266_GET_READY).
  all: try (change (first_byte 43) with ESP8266_GET_RX_HEADER).
  all: try (change (first_byte 62) with ESP8266_GET_TX).
  all: repeat step_known; eexists; (split; [reflexivity | repeat split]).
Qed.

Lemma raise_byte (s flag : Z) :
  0 <= s < 256 -> 0 <= flag < 256 -> to_uchar (Z.lor s flag) = Z.lor s flag.
Proof.
  intros Hs Hf. unfold to_uchar. apply Z.mod_small.
  split; [apply Z.lor_nonneg; lia|].
  destruct (Z.eq_dec (Z.lor s flag) 0) as [->|Hnz]; [lia|].
  assert (Hpos : 0 < Z.lor s flag) by (pose proof (proj2 (Z.lor_nonneg s flag)); lia).
  apply Z.log2_lt_pow2 with (b := 8); [exact Hpos|].
  rewrite Z.log2_lor by lia.
  destruct (Z.eq_dec s 0) as [->|]; destruct (Z.eq_dec flag 0) as [->|];
    try (change (Z.log2 0) with 0);
    repeat match goal with
           | H : ?x <> 0 |- context [Z.log2 ?x] =>
               lazymatch goal with
               | _ : Z.log2 x < 8 |- _ => fail
               | _ => assert (Z.log2 x < 8) by (apply Z.log2_lt_pow2; lia)
               end
           end; lia.
Qed.

Lemma literal_recognised (e : Engine) (msg : list Z) (flag : Z) :
  esp_state e = ESP8266_RESET ->
  0 <= status e < 256 ->
  In (msg, flag) [(OK_MSG, ESP8266_OK_MESSAGE);
                  (READY_MSG, ESP8266_READY_MESSAGE);
                  (TX_READY_MSG, ESP8266_TX_READY_MESSAGE)] ->
  recognised e msg flag.
Proof.
  destruct e as [st c pk ps s]. cbn [esp_state status].
  intros -> Hs Hin. unfold recognised. cbn [status packet packetSize].
  cbn [In] in Hin.
  destruct Hin as [H|[H|[H|[]]]]; injection H as <- <-;
    (eexists; split; [reflexivity|]);
    cbn [esp_state status packet packetSize]; repeat split;
    apply raise_byte; (assumption || (vm_compute; split; congruence)).
Qed.

(** C2: each of "OK\r\n", "ready\r\n" and "> ", fed byte by byte to the idle
    engine, raises exactly its own status bit and leaves the machine idle;
    the header "+IPD,1," raises nothing and hands over to the length field;
    and any of the four with one byte replaced by a different one, at any
    offset, raises nothing and leaves the machine idle. *)
Theorem literals_recognised (e : Engine) :
  esp_state e = ESP8266_RESET ->
  0 <= status e < 256 ->
  recognised e OK_MSG ESP8266_OK_MESSAGE /\
  recognised e READY_MSG ESP8266_READY_MESSAGE /\
  recognised e TX_READY_MSG ESP8266_TX_READY_MESSAGE /\
  feed e (chars RX_PACKET_MSG)
  = Ok (mkEngine ESP8266_GET_RX_PACKET_SIZE 0
          (packet e) (packetSize e) (status e)) /\
  forall (msg : list Z) (off : nat) (b : Z),
    In msg literals ->
    (off < length (chars msg))%nat ->
    nth off (chars msg) 0 <> b ->
    rejected e (corrupt msg off b).
Proof.
  intros Hst Hs.
  repeat split.
  - apply literal_recognised; cbn [In]; auto.
  - apply literal_recognised; cbn [In]; auto.
  - apply literal_recognised; cbn [In]; auto.
  - now apply feed_header.
  - intros msg off b. now apply corrupt_resets.
Qed.

(** C2, witness: on the booted engine "OK\r\n" is recognised and "rea\0y\r\n"
    is rejected. *)
Lemma literals_recognised_witness :
  recognised Esp8266_boot OK_MSG ESP8266_OK_MESSAGE /\
  rejected Esp8266_boot (corrupt READY_MSG 3 0).
Proof.
  destruct (literals_recognised Esp8266_boot eq_refl
              ltac:(cbn [status Esp8266_boot]; lia)) as (Hok & _ & _ & _ & Hbad).
  split; [exact Hok|].
  apply Hbad; [cbn; auto | cbn; lia | cbn; lia].
Defined.

(** *** Esp8266_ReceiveMsg : C6, C10 *)

Lemma clear_bit (s mask i : Z) :
  0 <= i < 8 ->
  Z.testbit (to_uchar (Z.land s (Z.lnot mask))) i
  = Z.testbit s i && negb (Z.testbit mask i).
Proof.
  intros Hi. unfold to_uchar. change 256 with (2 ^ 8).
  rewrite Z.mod_pow2_bits_low by lia.
  now rewrite Z.land_spec, Z.lnot_spec by lia.
Qed.

Lemma byte_high_bits (s n : Z) :
  0 <= s < 256 -> 8 <= n -> Z.testbit s n = false.
Proof.
  intros Hs Hn. destruct (Z.eq_dec s 0) as [->|Hnz]; [apply Z.bits_0|].
  apply Z.bits_above_log2; [lia|].
  assert (Z.log2 s < 8) by (apply Z.log2_lt_pow2; lia). lia.
Qed.

Lemma clear_byte (s mask : Z) :
  0 <= s < 256 -> to_uchar (Z.land s (Z.lnot mask)) = Z.land s (Z.lnot mask).
Proof.
  intros Hs. unfold to_uchar. change 256 with (2 ^ 8).
  apply Z.bits_inj'. intros n Hn.
  destruct (Z.ltb_spec n 8).
  - now rewrite Z.mod_pow2_bits_low by lia.
  - rewrite Z.mod_pow2_bits_high by lia.
    now rewrite Z.land_spec, byte_high_bits by lia.
Qed.

Lemma receive_nothing (e : Engine) (p : list Z) :
  packet_available e = false -> Esp8266_ReceiveMsg e p = Ok (0, e, p).
Proof.
  unfold packet_available, Esp8266_ReceiveMsg. now intros ->.
Qed.

Lemma cleared_not_available (e : Engine) :
  packet_available (clear ESP8266_RX_PACKET_MESSAGE e) = false.
Proof.
  rewrite packet_available_bit. unfold clear, set_status. cbn [status].
  rewrite clear_bit by lia.
  change (Z.testbit ESP8266_RX_PACKET_MESSAGE 3) with true.
  apply andb_false_r.
Qed.

Lemma receive_packet (e : Engine) (p : list Z) :
  packet_available e = true ->
  0 <= packetSize e <= Z.of_nat (length (packet e)) ->
  packetSize e <= Z.of_nat (length p) ->
  Esp8266_ReceiveMsg e p
  = Ok (packetSize e, clear ESP8266_RX_PACKET_MESSAGE e,
        take (Z.to_nat (packetSize e)) (packet e)
          ++ drop (Z.to_nat (packetSize e)) p).
Proof.
  unfold packet_available, Esp8266_ReceiveMsg. intros -> Hsz Hp.
  unfold clear, set_status, memcpy. cbn [packet packetSize].
  replace ((0 <=? packetSize e)
           && (packetSize e <=? Z.of_nat (length (packet e)))
           && (packetSize e <=? Z.of_nat (length p))) with true; [reflexivity|].
  symmetry. rewrite !andb_true_iff, !Z.leb_le. lia.
Qed.

(** C6: with the packet-available bit clear the call returns 0 and copies
    nothing; with the bit set (and a recorded length that fits both
    buffers) it returns the recorded length, copies that many bytes of the
    packet to the caller and clears the bit, so that an immediate second
    call returns 0 and changes nothing. *)
Theorem receive_consumes (e : Engine) (p : list Z) :
  (packet_available e = false -> Esp8266_ReceiveMsg e p = Ok (0, e, p)) /\
  (packet_available e = true ->
   0 <= packetSize e <= Z.of_nat (length (packet e)) ->
   packetSize e <= Z.of_nat (length p) ->
   exists e1 p1,
     Esp8266_ReceiveMsg e p = Ok (packetSize e, e1, p1) /\
     take (Z.to_nat (packetSize e)) p1 = take (Z.to_nat (packetSize e)) (packet e) /\
     drop (Z.to_nat (packetSize e)) p1 = drop (Z.to_nat (packetSize e)) p /\
     packet_available e1 = false /\
     Esp8266_ReceiveMsg e1 p1 = Ok (0, e1, p1)).
Proof.
  split; [apply receive_nothing|].
  intros Hav Hsz Hp. do 2 eexists.
  split; [now apply receive_packet|].
  assert (Hlen : length (take (Z.to_nat (packetSize e)) (packet e))
                 = Z.to_nat (packetSize e)) by (rewrite length_take; lia).
  repeat split.
  - now rewrite take_app_length'.
  - now rewrite drop_app_length'.
  - apply cleared_not_available.
  - apply receive_nothing, cleared_not_available.
Qed.

(** C6, witness: a delivered two-byte packet is handed out once. *)
Lemma receive_consumes_witness :
  let e := mkEngine ESP8266_RESET 2 ([1; 75] ++ replicate 62 0) 2 8 in
  exists e1 p1,
    Esp8266_ReceiveMsg e (replicate 64 0) = Ok (2, e1, p1) /\
    take 2 p1 = [1; 75] /\
    drop 2 p1 = replicate 62 0 /\
    packet_available e1 = false /\
    Esp8266_ReceiveMsg e1 p1 = Ok (0, e1, p1).
Proof.
  intros e.
  exact (proj2 (receive_consumes e (replicate 64 0)) eq_refl
           ltac:(vm_compute; split; discriminate) ltac:(vm_compute; discriminate)).
Defined.

(** C6, counterexample: the recorded length is not checked against either
    buffer.  The packet "+IPD,1,-5:" completes with its first body byte and
    raises the flag with -5 recorded; a pending two-byte packet followed by
    "+IPD,1,100:" leaves the flag set with 100 recorded.  Every access of
    the interrupt handler was inside the arrays, yet the call that follows
    asks [memcpy] for a count that leaves main's 64-byte buffer and the
    packet buffer. *)
Lemma unchecked_length_not_consumed :
  let p := replicate 64 0 in
  (exists e,
     feed Esp8266_boot (chars RX_PACKET_MSG ++ [45; 53; 58; 7]) = Ok e /\
     packet_available e = true /\ packetSize e = -5 /\
     Esp8266_ReceiveMsg e p = OutOfBounds (-5) /\
     ~ consumed e p) /\
  (exists e,
     feed Esp8266_boot
       (packet_stream 2 [1; 75] ++ chars RX_PACKET_MSG ++ [49; 48; 48; 58])
     = Ok e /\
     packet_available e = true /\ packetSize e = 100 /\
     Esp8266_ReceiveMsg e p = OutOfBounds 100 /\
     ~ consumed e p).
Proof.
  intros p. split; eexists; (split; [vm_compute; reflexivity|]);
    (split; [reflexivity|]); (split; [reflexivity|]);
    (split; [reflexivity|]);
    intros (e1 & p1 & H & _); vm_compute in H; discriminate H.
Qed.



(** *** The truncated packet : C8 *)

Lemma truncated_trace (c ps s x y : Z) (pk : list Z) (n : nat) :
  exists e',
    feed (mkEngine ESP8266_RESET c (x :: y :: pk) ps s)
      (take n (packet_stream 2 [0])) = Ok e' /\
    status e' = s /\
    ((10 <= n)%nat -> e' = mkEngine ESP8266_GET_RX_PACKET 1 (0 :: 0 :: pk) 2 s).
Proof.
  assert (Hcolon :
    feed (mkEngine ESP8266_RESET c (x :: y :: pk) ps s)
      (take 9 (packet_stream 2 [0]))
    = Ok (mkEngine ESP8266_GET_RX_PACKET 0 (50 :: 0 :: pk) 2 s)).
  { change (take 9 (packet_stream 2 [0])) with (take 8 (packet_stream 2 [0]) ++ [58]).
    erewrite feed_Ok_app by reflexivity.
    rewrite feed_cons.
    rewrite (step_colon [50] pk y) by (try reflexivity; repeat constructor; lia).
    reflexivity. }
  do 9 (destruct n as [|n];
        [eexists; split; [reflexivity | split; [reflexivity | intros; lia]]|]).
  destruct n as [|n].
  { eexists. split; [exact Hcolon | split; [reflexivity | intros; lia]]. }
  eexists. split; [|split; [|reflexivity]]; [|reflexivity].
  rewrite take_ge by (cbn; lia).
  change (packet_stream 2 [0]) with (take 9 (packet_stream 2 [0]) ++ [0]).
  now rewrite (feed_Ok_app _ _ _ _ Hcolon).
Qed.

(** C8: fed "+IPD,1,2:" and the single body byte 0, the idle engine has the
    packet-available bit clear after every prefix of the stream, and a call
    of [Esp8266_ReceiveMsg] after the stream returns 0. *)
Theorem truncated_packet_never_available (e : Engine) (p : list Z) :
  esp_state e = ESP8266_RESET ->
  packet_available e = false ->
  length (packet e) = Z.to_nat ESP8266_RX_BUFFER_SIZE ->
  (forall n : nat, exists e',
      feed e (take n (packet_stream 2 [0])) = Ok e' /\
      packet_available e' = false) /\
  (exists e',
      feed e (packet_stream 2 [0]) = Ok e' /\
      esp_state e' = ESP8266_GET_RX_PACKET /\
      Esp8266_ReceiveMsg e' p = Ok (0, e', p)).
Proof.
  destruct e as [st c pk ps s]. cbn [esp_state packet].
  intros -> Hav Hlen.
  destruct pk as [|x [|y pk]]; try discriminate Hlen.
  assert (Hkeep : forall e', status e' = s -> packet_available e' = false).
  { intros e' He'. unfold packet_available in *. cbn [status] in Hav.
    now rewrite He'. }
  split.
  - intros n. destruct (truncated_trace c ps s x y pk n) as (e' & Hf & Hs & _).
    exists e'. auto.
  - destruct (truncated_trace c ps s x y pk 10) as (e' & Hf & Hs & He').
    exists e'. specialize (He' (le_n _)).
    split; [exact Hf|]. split; [now rewrite He'|].
    apply receive_nothing. auto.
Qed.

(** C8, witness: the scenario on the booted engine. *)
Lemma truncated_packet_witness :
  (forall n : nat, exists e',
      feed Esp8266_boot (take n (packet_stream 2 [0])) = Ok e' /\
      packet_available e' = false) /\
  (exists e',
      feed Esp8266_boot (packet_stream 2 [0]) = Ok e' /\
      esp_state e' = ESP8266_GET_RX_PACKET /\
      Esp8266_ReceiveMsg e' (replicate 64 0) = Ok (0, e', replicate 64 0)).
Proof.
  apply truncated_packet_never_available; reflexivity.
Defined.

(** The status word stays an [unsigned char]. *)
Lemma to_uchar_range (z : Z) : 0 <= to_uchar z < 256.
Proof. unfold to_uchar. apply Z.mod_pos_bound. lia. Qed.

Lemma match_literal_status_byte (msg : list Z) (k : Engine -> Engine)
    (e e' : Engine) (b : Z) :
  (forall e1, status e1 = status e -> 0 <= status (k e1) < 256) ->
  0 <= status e < 256 ->
  match_literal msg k e b = Ok e' -> 0 <= status e' < 256.
Proof.
  intros Hk Hs. unfold match_literal.
  destruct (load msg (count e)) as [c|i]; cbn [bind]; [|discriminate].
  destruct (b =? c); [destruct (_ >=? _)|]; intros H; injection H as <-;
    try exact Hs; now apply Hk.
Qed.

Lemma step_status_byte (e e' : Engine) (b : Z) :
  0 <= status e < 256 ->
  Esp8266_ProcessRxByte e b = Ok e' -> 0 <= status e' < 256.
Proof.
  intros Hs. unfold Esp8266_ProcessRxByte.
  destruct (esp_state e).
  - intros H. injection H as <-. exact Hs.
  - apply match_literal_status_byte; [intros; apply to_uchar_range | exact Hs].
  - apply match_literal_status_byte; [intros; apply to_uchar_range | exact Hs].
  - apply match_literal_status_byte; [|exact Hs].
    intros e1 He1. cbn [set_count set_state status]. now rewrite He1.
  - destruct (negb (b =? 58)).
    + destruct (store _ _ _); cbn [bind]; [|discriminate].
      intros H. injection H as <-. exact Hs.
    + destruct (store _ _ _); cbn [bind]; [|discriminate].
      destruct (sscanf_d _); intros H; injection H as <-; exact Hs.
  - destruct (store _ _ _); cbn [bind]; [|discriminate].
    destruct (_ >=? _); intros H; injection H as <-;
      [apply to_uchar_range | exact Hs].
  - apply match_literal_status_byte; [intros; apply to_uchar_range | exact Hs].
Qed.

Lemma feed_status_byte (bytes : list Z) : forall e e' : Engine,
  0 <= status e < 256 -> feed e bytes = Ok e' -> 0 <= status e' < 256.
Proof.
  induction bytes as [|b bytes IH]; intros e e' Hs; cbn [feed].
  - intros H. now injection H as <-.
  - intros H. apply bind_Ok_inv in H as (e1 & Hstep & Hrest).
    eapply IH; [|exact Hrest]. eapply step_status_byte; eauto.
Qed.

(** *** WaitForResponse : C4, C5 *)

Section Waiting.

(** The two arguments of the call under study. *)
Variables (msgType timeout : Z).

Lemma wait_now (e : Engine) (irq : list (list Z)) :
  Z.land (status e) msgType = msgType ->
  WaitForResponse msgType timeout e irq = Returned 1 (clear msgType e) irq.
Proof.
  intros H. destruct irq; cbn [WaitForResponse]; now rewrite H, Z.eqb_refl.
Qed.

Lemma wait_starved (t : Z) (e : Engine) (n : nat) :
  Z.land (status e) msgType <> msgType ->
  WaitForResponse msgType t e (replicate n []) = Spinning e.
Proof.
  intros H. apply Z.eqb_neq in H.
  induction n as [|n IH]; cbn [replicate WaitForResponse feed]; now rewrite H.
Qed.

Lemma wait_timeout_irrelevant (t1 t2 : Z) (irq : list (list Z)) :
  forall e, WaitForResponse msgType t1 e irq = WaitForResponse msgType t2 e irq.
Proof.
  induction irq as [|burst later IH]; intros e; cbn [WaitForResponse];
    destruct (Z.land (status e) msgType =? msgType); try reflexivity.
  destruct (feed e burst); [apply IH | reflexivity].
Qed.

(** A return is always with 1, and on a status word holding the whole
    mask, reached through the bursts consumed so far. *)
Lemma wait_returned (irq : list (list Z)) :
  forall (e e' : Engine) (r : Z) (rest : list (list Z)),
  WaitForResponse msgType timeout e irq = Returned r e' rest ->
  r = 1 /\
  exists seen e_at,
    irq = seen ++ rest /\
    delivered_bursts e seen e_at /\
    Z.land (status e_at) msgType = msgType /\
    e' = clear msgType e_at.
Proof.
  unfold delivered_bursts.
  induction irq as [|burst later IH]; intros e e' r rest; cbn [WaitForResponse];
    destruct (Z.eqb_spec (Z.land (status e) msgType) msgType) as [Hset|Hclr].
  - intros H. injection H as <- <- <-. split; [reflexivity|].
    exists [], e. auto.
  - discriminate.
  - intros H. injection H as <- <- <-. split; [reflexivity|].
    exists [], e. auto.
  - destruct (feed e burst) as [e1|i] eqn:Hburst; [|discriminate].
    intros H. apply IH in H as (-> & seen & e_at & -> & Hfeed & Hset & ->).
    split; [reflexivity|].
    exists (burst :: seen), e_at. cbn [concat app].
    rewrite (feed_Ok_app _ _ _ _ Hburst). auto.
Qed.

(** C4: the timeout argument has no effect on the call, whatever its value
    (the two sentinels included); a call that returns returns 1, never 0,
    and does so on a status word in which every bit of the mask is set;
    without those bits the call keeps polling; with them it returns at
    once. *)
Theorem wait_ignores_timeout (e : Engine)
    (irq : list (list Z)) :
  (forall timeout',
      WaitForResponse msgType timeout' e irq
      = WaitForResponse msgType timeout e irq) /\
  WaitForResponse msgType TIMEOUT_LONG e irq
  = WaitForResponse msgType TIMEOUT_SHORT e irq /\
  (forall r e' rest,
      WaitForResponse msgType timeout e irq = Returned r e' rest ->
      r = 1 /\ r <> 0 /\
      exists seen e_at,
        irq = seen ++ rest /\
        delivered_bursts e seen e_at /\
        Z.land (status e_at) msgType = msgType /\
        e' = clear msgType e_at) /\
  (Z.land (status e) msgType = msgType ->
      WaitForResponse msgType timeout e irq = Returned 1 (clear msgType e) irq) /\
  (Z.land (status e) msgType <> msgType ->
      forall n, WaitForResponse msgType timeout e (replicate n []) = Spinning e).
Proof.
  split; [intros; apply wait_timeout_irrelevant|].
  split; [apply wait_timeout_irrelevant|].
  split; [|split; [apply wait_now | intros H n; now apply wait_starved]].
  intros r e' rest H. apply wait_returned in H as (-> & H).
  split; [reflexivity|]. split; [discriminate | exact H].
Qed.

(** C5: when a wait for a non-empty mask returns, the status word is the
    one observed at that moment with the bits of the mask cleared and all
    other bits as they were; and a second wait on the same mask does not
    return until the interrupt handler raises the flag again. *)
Theorem wait_clears_only_mask (e e' : Engine) (r : Z)
    (irq rest : list (list Z)) :
  0 < msgType ->
  0 <= status e < 256 ->
  WaitForResponse msgType timeout e irq = Returned r e' rest ->
  exists seen e_at,
    irq = seen ++ rest /\
    delivered_bursts e seen e_at /\
    Z.land (status e_at) msgType = msgType /\
    status e' = Z.land (status e_at) (Z.lnot msgType) /\
    (forall i, 0 <= i ->
       Z.testbit (status e') i
       = Z.testbit (status e_at) i && negb (Z.testbit msgType i)) /\
    (forall timeout2 n,
       WaitForResponse msgType timeout2 e' (replicate n []) = Spinning e').
Proof.
  intros Hm Hs H. apply wait_returned in H as (-> & seen & e_at & -> & Hfeed & Hset & ->).
  exists seen, e_at.
  assert (Hs_at : 0 <= status e_at < 256) by (eapply feed_status_byte; eauto).
  assert (Hst : status (clear msgType e_at)
                = Z.land (status e_at) (Z.lnot msgType)).
  { unfold clear, set_status. cbn [status]. now apply clear_byte. }
  assert (Hbits : forall i, 0 <= i ->
            Z.testbit (status (clear msgType e_at)) i
            = Z.testbit (status e_at) i && negb (Z.testbit msgType i)).
  { intros i Hi. now rewrite Hst, Z.land_spec, Z.lnot_spec. }
  repeat split; try assumption.
  intros timeout2 n. apply wait_starved. intros Hagain.
  pose proof (Z.bit_log2 msgType Hm) as Hbit.
  assert (Hlog : 0 <= Z.log2 msgType) by apply Z.log2_nonneg.
  apply (f_equal (fun z => Z.testbit z (Z.log2 msgType))) in Hagain.
  rewrite Z.land_spec, Hbits, Hbit in Hagain by assumption.
  cbn [negb] in Hagain. rewrite andb_false_r in Hagain. discriminate.
Qed.

End Waiting.

(** C4, witness: the wait for "OK" returns 1 once both halves of "OK\r\n"
    have arrived, for either sentinel. *)
Lemma wait_ignores_timeout_witness :
  WaitForResponse ESP8266_OK_MESSAGE TIMEOUT_SHORT Esp8266_boot
    [[79; 75]; [13; 10]]
  = Returned 1 (mkEngine ESP8266_RESET 4 (replicate 64 0) 0 0) [] /\
  WaitForResponse ESP8266_OK_MESSAGE TIMEOUT_LONG Esp8266_boot
    [[79; 75]; [13; 10]]
  = WaitForResponse ESP8266_OK_MESSAGE TIMEOUT_SHORT Esp8266_boot
      [[79; 75]; [13; 10]] /\
  forall n, WaitForResponse ESP8266_OK_MESSAGE TIMEOUT_SHORT Esp8266_boot
              (replicate n []) = Spinning Esp8266_boot.
Proof.
  destruct (wait_ignores_timeout ESP8266_OK_MESSAGE TIMEOUT_SHORT Esp8266_boot
              [[79; 75]; [13; 10]]) as (_ & Hsent & _ & _ & _).
  destruct (wait_ignores_timeout ESP8266_OK_MESSAGE TIMEOUT_SHORT Esp8266_boot
              []) as (_ & _ & _ & _ & Hspin).
  split; [reflexivity|]. split; [exact Hsent|].
  apply Hspin. vm_compute. discriminate.
Defined.

(** C5, witness: waiting for "OK" while "ready" is also pending clears bit 0
    alone, and a second wait finds nothing. *)
Lemma wait_clears_only_mask_witness :
  let e := mkEngine ESP8266_RESET 1 (replicate 64 0) 0 3 in
  exists e',
    WaitForResponse ESP8266_OK_MESSAGE TIMEOUT_SHORT e [] = Returned 1 e' [] /\
    status e' = 2 /\
    forall n, WaitForResponse ESP8266_OK_MESSAGE TIMEOUT_SHORT e' (replicate n [])
              = Spinning e'.
Proof.
  intros e. eexists. split; [reflexivity|].
  destruct (wait_clears_only_mask ESP8266_OK_MESSAGE TIMEOUT_SHORT e _ 1 [] []
              ltac:(unfold ESP8266_OK_MESSAGE; lia)
              ltac:(cbn [status e]; lia) eq_refl)
    as (seen & e_at & _ & _ & _ & _ & _ & Hspin).
  split; [reflexivity|]. intros n. apply Hspin.
Defined.

(** *** The UART FIFO : C7 *)

Lemma next_index_small (i : Z) :
  0 <= i < 64 ->
  Uart_FifoGetNextIndex i = (i + 1) mod 64 /\
  0 <= Uart_FifoGetNextIndex i < 64.
Proof.
  intros Hi. unfold Uart_FifoGetNextIndex, to_ulong, UART_BUFFER_SIZE.
  rewrite (Z.mod_small (i + 1)) by lia.
  destruct (Z.eq_dec i 63) as [->|]; [split; [reflexivity | vm_compute; split; congruence]|].
  replace (i + 1 >=? 64) with false by (symmetry; rewrite Z.geb_leb; apply Z.leb_gt; lia).
  rewrite Z.mod_small by lia. lia.
Qed.

Lemma fifo_count_range (f : Fifo) : 0 <= fifo_count f < 64.
Proof. unfold fifo_count, UART_BUFFER_SIZE. apply Z.mod_pos_bound. lia. Qed.

Lemma fifo_full_count (f : Fifo) :
  fifo_wf f -> Uart_FifoIsFull f = true <-> fifo_count f = 63.
Proof.
  intros (_ & He & Hd). unfold UART_BUFFER_SIZE in *.
  unfold Uart_FifoIsFull, fifo_count, UART_BUFFER_SIZE.
  destruct (next_index_small _ He) as [-> _]. rewrite Z.eqb_eq.
  Z.div_mod_to_equations. lia.
Qed.

Lemma fifo_empty_count (f : Fifo) :
  fifo_wf f -> Uart_FifoIsEmpty f = true <-> fifo_count f = 0.
Proof.
  intros (_ & He & Hd). unfold UART_BUFFER_SIZE in *.
  unfold Uart_FifoIsEmpty, fifo_count, UART_BUFFER_SIZE. rewrite Z.eqb_eq.
  Z.div_mod_to_equations. lia.
Qed.

Lemma nth_insert_same (l : list Z) (n : nat) (x : Z) :
  (n < length l)%nat -> nth n (<[n := x]> l) 0 = x.
Proof. intros H. now rewrite nth_lookup, list_lookup_insert_eq. Qed.

Lemma nth_insert_other (l : list Z) (n m : nat) (x : Z) :
  n <> m -> nth m (<[n := x]> l) 0 = nth m l 0.
Proof. intros H. now rewrite !nth_lookup, list_lookup_insert_ne. Qed.

Lemma read_from_snoc (buf : list Z) (n : nat) : forall i,
  0 <= i < 64 ->
  read_from buf i (S n)
  = read_from buf i n ++ [nth (Z.to_nat ((i + Z.of_nat n) mod 64)) buf 0].
Proof.
  induction n as [|n IH]; intros i Hi.
  - cbn [read_from app Z.of_nat]. now rewrite Z.add_0_r, Z.mod_small.
  - destruct (next_index_small i Hi) as [Hnext Hrange].
    change (read_from buf i (S (S n)))
      with (nth (Z.to_nat i) buf 0 :: read_from buf (Uart_FifoGetNextIndex i) (S n)).
    rewrite IH by assumption. cbn [read_from app].
    rewrite Hnext, Zplus_mod_idemp_l.
    now replace (i + 1 + Z.of_nat n) with (i + Z.of_nat (S n)) by lia.
Qed.

(** Writing the slot that lies [n] steps ahead does not disturb the [n]
    bytes before it. *)
Lemma read_from_insert_ahead (buf : list Z) (x : Z) (n : nat) : forall i j,
  0 <= i < 64 -> (n < 64)%nat -> j = (i + Z.of_nat n) mod 64 ->
  read_from (<[Z.to_nat j := x]> buf) i n = read_from buf i n.
Proof.
  induction n as [|n IH]; intros i j Hi Hn Hj; [reflexivity|].
  destruct (next_index_small i Hi) as [Hnext Hrange].
  cbn [read_from]. f_equal.
  - apply nth_insert_other. subst j. Z.div_mod_to_equations. lia.
  - apply IH; [assumption | lia |].
    subst j. rewrite Hnext, Zplus_mod_idemp_l. f_equal. lia.
Qed.

(** An enqueue on a FIFO that is not full appends to the queue. *)
Lemma enqueue_appends (f : Fifo) (x : Z) :
  fifo_wf f -> fifo_count f < 63 ->
  exists f',
    Uart_FifoEnqueue f x = Ok (1, f') /\
    fifo_wf f' /\
    dequeueIndex f' = dequeueIndex f /\
    fifo_count f' = fifo_count f + 1 /\
    fifo_contents f' = fifo_contents f ++ [x].
Proof.
  intros Hwf Hcnt. pose proof Hwf as (Hlen & He & Hd).
  unfold UART_BUFFER_SIZE in *. change (Z.to_nat 64) with 64%nat in Hlen.
  assert (Hnf : Uart_FifoIsFull f = false).
  { destruct (Uart_FifoIsFull f) eqn:Hfull; [|reflexivity].
    apply fifo_full_count in Hfull; [lia | assumption]. }
  destruct (next_index_small _ He) as [Hnext Hrange].
  pose proof (fifo_count_range f) as Hc.
  unfold Uart_FifoEnqueue. rewrite Hnf. cbn [negb].
  unfold store.
  replace ((0 <=? enqueueIndex f) && (enqueueIndex f <? Z.of_nat (length (fifo f))))
    with true
    by (symmetry; rewrite andb_true_iff, Z.leb_le, Z.ltb_lt; lia).
  cbn [bind]. eexists. split; [reflexivity|].
  assert (Hcnt' : fifo_count
                    (mkFifo (<[Z.to_nat (enqueueIndex f) := x]> (fifo f))
                       (Uart_FifoGetNextIndex (enqueueIndex f)) (dequeueIndex f))
                  = fifo_count f + 1).
  { unfold fifo_count in *. cbn [enqueueIndex dequeueIndex]. rewrite Hnext.
    unfold UART_BUFFER_SIZE in *. Z.div_mod_to_equations. lia. }
  assert (Henq : enqueueIndex f = (dequeueIndex f + fifo_count f) mod 64).
  { unfold fifo_count, UART_BUFFER_SIZE. Z.div_mod_to_equations. lia. }
  split; [|split; [reflexivity | split; [exact Hcnt'|]]].
  - unfold fifo_wf, UART_BUFFER_SIZE. cbn [fifo enqueueIndex dequeueIndex].
    rewrite length_insert. change (Z.to_nat 64) with 64%nat. lia.
  - unfold fifo_contents. rewrite Hcnt'. cbn [fifo dequeueIndex].
    replace (Z.to_nat (fifo_count f + 1)) with (S (Z.to_nat (fifo_count f))) by lia.
    rewrite read_from_snoc by assumption.
    rewrite Z2Nat.id by lia. rewrite <- Henq.
    rewrite nth_insert_same by lia.
    rewrite read_from_insert_ahead; [reflexivity | assumption | lia |].
    now rewrite Z2Nat.id by lia.
Qed.

(** An enqueue on a full FIFO is refused and changes nothing. *)
Lemma enqueue_refused (f : Fifo) (x : Z) :
  fifo_wf f -> fifo_count f = 63 ->
  Uart_FifoIsFull f = true /\ Uart_FifoEnqueue f x = Ok (0, f).
Proof.
  intros Hwf Hcnt. apply (fifo_full_count f Hwf) in Hcnt.
  unfold Uart_FifoEnqueue. now rewrite Hcnt.
Qed.

(** A dequeue on a FIFO that is not empty removes the oldest byte. *)
Lemma dequeue_pops (f : Fifo) (x : Z) (rest : list Z) :
  fifo_wf f -> fifo_contents f = x :: rest ->
  exists f',
    Uart_FifoDequeue f = Ok (x, f') /\
    fifo_wf f' /\
    fifo_contents f' = rest.
Proof.
  intros Hwf Hcont. pose proof Hwf as (Hlen & He & Hd).
  unfold UART_BUFFER_SIZE in *. change (Z.to_nat 64) with 64%nat in Hlen.
  pose proof (fifo_count_range f) as Hc.
  unfold fifo_contents in Hcont.
  destruct (Z.to_nat (fifo_count f)) as [|m] eqn:Hm; [discriminate|].
  cbn [read_from] in Hcont. injection Hcont as Hx Hrest.
  assert (Hne : Uart_FifoIsEmpty f = false).
  { destruct (Uart_FifoIsEmpty f) eqn:Hemp; [|reflexivity].
    apply fifo_empty_count in Hemp; [lia | assumption]. }
  destruct (next_index_small _ Hd) as [Hnext Hrange].
  unfold Uart_FifoDequeue. rewrite Hne. cbn [negb].
  rewrite load_in by lia. cbn [bind]. rewrite Hx.
  eexists. split; [reflexivity|].
  split; [repeat split; cbn [fifo enqueueIndex dequeueIndex];
          unfold UART_BUFFER_SIZE; try lia; assumption|].
  unfold fifo_contents. cbn [fifo dequeueIndex].
  replace (Z.to_nat _) with m; [exact Hrest|].
  unfold fifo_count in *. cbn [enqueueIndex dequeueIndex]. rewrite Hnext.
  unfold UART_BUFFER_SIZE in *. Z.div_mod_to_equations. lia.
Qed.

Lemma enqueue_all_appends (xs : list Z) : forall f : Fifo,
  fifo_wf f -> fifo_count f + Z.of_nat (length xs) <= 63 ->
  exists f',
    enqueue_all f xs = Ok (replicate (length xs) 1, f') /\
    fifo_wf f' /\
    fifo_count f' = fifo_count f + Z.of_nat (length xs) /\
    fifo_contents f' = fifo_contents f ++ xs.
Proof.
  induction xs as [|x xs IH]; intros f Hwf Hroom.
  - exists f. cbn [enqueue_all length replicate Z.of_nat].
    rewrite Z.add_0_r, app_nil_r. auto.
  - cbn [length] in Hroom. rewrite Nat2Z.inj_succ in Hroom.
    destruct (enqueue_appends f x Hwf ltac:(lia)) as (f1 & Henq & Hwf1 & _ & Hc1 & Hq1).
    destruct (IH f1 Hwf1 ltac:(lia)) as (f' & Hall & Hwf' & Hc' & Hq').
    exists f'. cbn [enqueue_all]. rewrite Henq. cbn [bind snd fst].
    rewrite Hall. cbn [bind snd fst length replicate].
    rewrite Hc', Hc1, Hq', Hq1, <- app_assoc, Nat2Z.inj_succ.
    split; [reflexivity | split; [assumption | split; [lia | reflexivity]]].
Qed.

Lemma dequeue_n_pops (xs : list Z) : forall (f : Fifo) (rest : list Z),
  fifo_wf f -> fifo_contents f = xs ++ rest ->
  exists f',
    dequeue_n f (length xs) = Ok (xs, f') /\
    fifo_wf f' /\
    fifo_contents f' = rest.
Proof.
  induction xs as [|x xs IH]; intros f rest Hwf Hq.
  - exists f. auto.
  - destruct (dequeue_pops f x (xs ++ rest) Hwf Hq) as (f1 & Hdeq & Hwf1 & Hq1).
    destruct (IH f1 rest Hwf1 Hq1) as (f' & Hall & Hwf' & Hq').
    exists f'. cbn [dequeue_n length]. rewrite Hdeq. cbn [bind snd fst].
    rewrite Hall. auto.
Qed.

Lemma enqueue_all_app (xs ys : list Z) : forall (f f1 : Fifo) (rs : list Z),
  enqueue_all f xs = Ok (rs, f1) ->
  enqueue_all f (xs ++ ys)
  = bind (enqueue_all f1 ys) (fun r => Ok (rs ++ fst r, snd r)).
Proof.
  induction xs as [|x xs IH]; intros f f1 rs; cbn [enqueue_all app].
  - intros H. injection H as <- <-. now destruct (enqueue_all f ys) as [[? ?]|].
  - destruct (Uart_FifoEnqueue f x) as [[r fx]|]; cbn [bind fst snd]; [|discriminate].
    destruct (enqueue_all fx xs) as [[rs' f']|] eqn:Hxs; cbn [bind fst snd];
      [|discriminate].
    intros H. injection H as <- <-.
    rewrite (IH _ _ _ Hxs).
    now destruct (enqueue_all f' ys) as [[? ?]|].
Qed.

Lemma empty_contents (f : Fifo) :
  fifo_wf f -> Uart_FifoIsEmpty f = true -> fifo_count f = 0 /\ fifo_contents f = [].
Proof.
  intros Hwf He. apply (fifo_empty_count f Hwf) in He.
  unfold fifo_contents. now rewrite He.
Qed.

(** C7: from an empty FIFO (cursors equal, anywhere in the array), N <= 63
    enqueues all succeed and N dequeues then give the bytes back in order,
    leaving the FIFO empty; and after 63 enqueues the FIFO reports full,
    the 64th enqueue returns 0 and leaves the FIFO, hence every stored
    byte, as it was. *)
Theorem fifo_round_trip (f : Fifo) (xs : list Z) (x : Z) :
  fifo_wf f ->
  Uart_FifoIsEmpty f = true ->
  (length xs <= 63)%nat ->
  exists f1 f2,
    enqueue_all f xs = Ok (replicate (length xs) 1, f1) /\
    dequeue_n f1 (length xs) = Ok (xs, f2) /\
    Uart_FifoIsEmpty f2 = true /\
    (length xs = 63%nat ->
       Uart_FifoIsFull f1 = true /\
       Uart_FifoEnqueue f1 x = Ok (0, f1) /\
       enqueue_all f (xs ++ [x]) = Ok (replicate 63 1 ++ [0], f1)).
Proof.
  intros Hwf Hemp Hn.
  destruct (empty_contents f Hwf Hemp) as [Hc Hq].
  destruct (enqueue_all_appends xs f Hwf ltac:(lia)) as (f1 & Hall & Hwf1 & Hc1 & Hq1).
  rewrite Hq in Hq1. cbn [app] in Hq1.
  destruct (dequeue_n_pops xs f1 [] Hwf1 ltac:(now rewrite app_nil_r))
    as (f2 & Hdeq & Hwf2 & Hq2).
  exists f1, f2.
  split; [assumption | split; [assumption | split; [|intros H; repeat split]]].
  - apply (fifo_empty_count f2 Hwf2).
    unfold fifo_contents in Hq2. pose proof (fifo_count_range f2).
    destruct (Z.to_nat (fifo_count f2)) eqn:Hz; [lia | discriminate].
  - apply (enqueue_refused f1 x); [assumption | lia].
  - apply (enqueue_refused f1 x); [assumption | lia].
  - rewrite (enqueue_all_app _ _ _ _ _ Hall). cbn [enqueue_all].
    destruct (enqueue_refused f1 x Hwf1 ltac:(lia)) as [_ ->].
    cbn [bind fst snd]. now rewrite H.
Qed.

(** C7, witness: three bytes through the booted FIFO, and the 64th enqueue
    into it refused. *)
Lemma fifo_round_trip_witness :
  (exists f1 f2,
     enqueue_all Uart_boot [10; 20; 30] = Ok ([1; 1; 1], f1) /\
     dequeue_n f1 3 = Ok ([10; 20; 30], f2)) /\
  (exists f1,
     enqueue_all Uart_boot (replicate 63 7) = Ok (replicate 63 1, f1) /\
     Uart_FifoIsFull f1 = true /\
     Uart_FifoEnqueue f1 9 = Ok (0, f1)).
Proof.
  assert (Hwf : fifo_wf Uart_boot) by (vm_compute; repeat split; congruence).
  split.
  - destruct (fifo_round_trip Uart_boot [10; 20; 30] 0 Hwf eq_refl
                ltac:(cbn [length]; lia)) as (f1 & f2 & H1 & H2 & _).
    exists f1, f2. auto.
  - destruct (fifo_round_trip Uart_boot (replicate 63 7) 9 Hwf eq_refl
                ltac:(vm_compute; lia)) as (f1 & f2 & H1 & _ & _ & Hfull).
    exists f1. destruct (Hfull eq_refl) as (Hf & Hr & _). auto.
Defined.

(** *** Writes into the packet buffer : C9 *)

Lemma in_state_eq (e : Engine) (s : RxState) :
  in_state e s = true <-> esp_state e = s.
Proof. unfold in_state. destruct (esp_state e), s; split; congruence. Qed.

Lemma match_literal_safe (msg : list Z) (k : Engine -> Engine) (e : Engine)
    (b : Z) (P : Engine -> Prop) :
  1 <= count e < sizeof msg - 1 ->
  P (set_state ESP8266_RESET e) ->
  (count e + 1 >= sizeof msg - 1 -> P (k (set_count (count e + 1) e))) ->
  (count e + 1 < sizeof msg - 1 -> P (set_count (count e + 1) e)) ->
  exists e', match_literal msg k e b = Ok e' /\ P e'.
Proof.
  intros Hc Hreset Hdone Hnext. unfold match_literal, sizeof in *.
  rewrite load_in by lia. cbn [bind].
  destruct (b =? _); [|eauto].
  cbn [count set_count].
  destruct (Z.geb_spec (count e + 1) (Z.of_nat (length msg) - 1)) as [Hge|Hlt];
    eexists; (split; [reflexivity|]); [apply Hdone | apply Hnext]; lia.
Qed.

Ltac literal_sizes :=
  change (sizeof READY_MSG) with 8 in *;
  change (sizeof OK_MSG) with 5 in *;
  change (sizeof RX_PACKET_MSG) with 8 in *;
  change (sizeof TX_READY_MSG) with 3 in *.

(** One byte keeps the engine inside its arrays, provided a length field
    in progress is shorter than the buffer; the invariant carries over when
    a length just declared fits the buffer. *)
Lemma step_safe (e : Engine) (b : Z) :
  engine_inv e ->
  (esp_state e = ESP8266_GET_RX_PACKET_SIZE -> count e < ESP8266_RX_BUFFER_SIZE) ->
  exists e',
    Esp8266_ProcessRxByte e b = Ok e' /\
    ((esp_state e = ESP8266_GET_RX_PACKET_SIZE ->
      esp_state e' = ESP8266_GET_RX_PACKET ->
      packetSize e' <= ESP8266_RX_BUFFER_SIZE) ->
     engine_inv e').
Proof.
  destruct e as [st c pk ps s]. unfold engine_inv, ESP8266_RX_BUFFER_SIZE.
  cbn [esp_state count packet packetSize]. change (Z.to_nat 64) with 64%nat.
  intros [Hlen Hst] Hfield. unfold Esp8266_ProcessRxByte. cbn [esp_state].
  destruct st.
  - (* idle *)
    eexists. split; [reflexivity|]. intros _.
    cbn [set_count set_state esp_state count packet packetSize status].
    split; [assumption|]. literal_sizes.
    unfold first_byte. cbn [nth OK_MSG READY_MSG RX_PACKET_MSG TX_READY_MSG].
    zcases; cbn; lia.
  - (* "ready" *)
    apply match_literal_safe; [assumption|..]; literal_sizes;
      cbn [raise set_status set_count set_state esp_state count packet packetSize];
      intros; split; auto; lia.
  - (* "OK" *)
    apply match_literal_safe; [assumption|..]; literal_sizes;
      cbn [raise set_status set_count set_state esp_state count packet packetSize];
      intros; split; auto; lia.
  - (* header *)
    apply match_literal_safe; [assumption|..]; literal_sizes;
      cbn [raise set_status set_count set_state esp_state count packet packetSize];
      intros; split; auto; lia.
  - (* length field *)
    specialize (Hfield eq_refl). cbn [packet count].
    destruct (negb (b =? 58)).
    + rewrite store_in by lia. cbn [bind]. eexists. split; [reflexivity|].
      intros _. cbn [set_count set_packet esp_state count packet].
      rewrite <- insert_take_drop, length_insert by lia. split; [assumption | lia].
    + rewrite store_in by lia. cbn [bind].
      cbn [set_packet packet esp_state count packetSize status].
      rewrite <- insert_take_drop by lia.
      destruct (sscanf_d _) as [size|]; eexists; (split; [reflexivity|]);
        cbn [set_count set_state set_packetSize set_packet
             esp_state count packet packetSize];
        rewrite length_insert; intros Hdecl; (split; [assumption|]); [|exact I].
      specialize (Hdecl eq_refl eq_refl). lia.
  - (* body *)
    destruct Hst as (Hc & Hless & Hbound). cbn [packet count].
    rewrite store_in by lia. cbn [bind].
    cbn [set_count set_packet esp_state count packet packetSize status].
    rewrite <- insert_take_drop by lia.
    destruct (Z.geb_spec (c + 1) ps); eexists; (split; [reflexivity|]); intros _;
      cbn [raise set_status set_state set_count set_packet
           esp_state count packet packetSize];
      rewrite length_insert; (split; [assumption|]); [exact I | lia].
  - (* "> " *)
    apply match_literal_safe; [assumption|..]; literal_sizes;
      cbn [raise set_status set_count set_state esp_state count packet packetSize];
      intros; split; auto; lia.
Qed.

Lemma idle_engine_inv (e : Engine) :
  esp_state e = ESP8266_RESET ->
  length (packet e) = Z.to_nat ESP8266_RX_BUFFER_SIZE ->
  engine_inv e.
Proof. intros Hst Hlen. unfold engine_inv. now rewrite Hst. Qed.

Lemma feed_safe (bytes : list Z) : forall e : Engine,
  engine_inv e ->
  fields_within ESP8266_RX_BUFFER_SIZE e bytes = true ->
  declared_within ESP8266_RX_BUFFER_SIZE e bytes = true ->
  exists e', feed e bytes = Ok e' /\ engine_inv e'.
Proof.
  induction bytes as [|b bytes IH]; intros e Hinv Hfields Hdecl.
  - exists e. auto.
  - cbn [fields_within declared_within] in Hfields, Hdecl.
    apply andb_true_iff in Hfields as [Hshort Hfields].
    destruct (step_safe e b Hinv) as (e1 & Hstep & Hinv1).
    { intros Hst. apply in_state_eq in Hst. rewrite Hst in Hshort.
      now apply Z.ltb_lt. }
    rewrite Hstep in Hfields, Hdecl.
    apply andb_true_iff in Hdecl as [Hsize Hdecl].
    destruct (IH e1) as (e' & Hfeed & Hinv'); try assumption.
    + apply Hinv1. intros Hs Hs1.
      apply in_state_eq in Hs, Hs1. rewrite Hs, Hs1 in Hsize.
      now apply Z.leb_le.
    + exists e'. cbn [feed]. rewrite Hstep. auto.
Qed.

(** C9 (amended): for every input byte stream in which every length field
    holds fewer than 64 bytes when its next byte arrives and every declared
    packet length is at most 64, fed to an idle engine, every access
    [Esp8266_ProcessRxByte] makes to the 64-byte packet buffer, while
    collecting the length field and while storing the body, is at an index
    below 64. *)
Theorem short_fields_stay_in_buffer (e : Engine) (bytes : list Z) :
  esp_state e = ESP8266_RESET ->
  length (packet e) = Z.to_nat ESP8266_RX_BUFFER_SIZE ->
  fields_within ESP8266_RX_BUFFER_SIZE e bytes = true ->
  declared_within ESP8266_RX_BUFFER_SIZE e bytes = true ->
  in_bounds e bytes.
Proof.
  intros Hst Hlen Hfields Hdecl.
  destruct (feed_safe bytes e (idle_engine_inv e Hst Hlen) Hfields Hdecl)
    as (e' & Hfeed & _).
  now exists e'.
Qed.

(** C9, witness: a full 64-byte packet, an "OK" and a packet whose length
    field is "-5", one after the other. *)
Lemma short_fields_witness :
  in_bounds Esp8266_boot
    (packet_stream 64 (replicate 64 9) ++ chars OK_MSG
       ++ chars RX_PACKET_MSG ++ [45; 53; 58; 7]).
Proof.
  apply short_fields_stay_in_buffer; reflexivity.
Defined.

(** C9, counterexample: a packet whose length field is sixty-four '0's
    followed by '1' declares length 1, yet the sixty-fifth byte of the field
    is written at index 64 of the 64-byte buffer. *)
Lemma long_length_field_overflows :
  let field := replicate 64 48 ++ [49] in
  let stream := chars RX_PACKET_MSG ++ field ++ [58; 7] in
  scan_d field = Some 1 /\
  declared_within ESP8266_RX_BUFFER_SIZE Esp8266_boot stream = true /\
  feed Esp8266_boot stream = OutOfBounds 64 /\
  ~ in_bounds Esp8266_boot stream.
Proof.
  repeat split; try reflexivity.
  intros (e' & H). vm_compute in H. discriminate.
Qed.

(** *** The main-loop dispatch : C3 *)

(** The five codes the [switch] of the main loop has a case for are acted
    on as the packet layout says, the second byte going to
    [DriveCtrl_SetSpeed] for the movement codes. *)
Lemma main_dispatch_handled (d speed : Z) (rest : list Z) :
  In d [STOP; FORWARD; BACKWARD; LEFT; RIGHT] ->
  main_dispatch (d :: speed :: rest) = layout_drive_action d speed.
Proof.
  cbn [In]. intros [<-|[<-|[<-|[<-|[<-|[]]]]]]; reflexivity.
Qed.

(** C3, as the code has it: for the direction codes 4
    (sharp-left) and 6 (sharp-right) the main-loop [switch] has no case, so
    the packet causes no motor action and its speed byte is not passed on,
    although [DriveCtrl_Turn] implements both turns. *)
Theorem main_dispatch_ignores_sharp_turns (speed : Z) (rest : list Z) :
  main_dispatch (SHARP_LEFT :: speed :: rest) = [] /\
  main_dispatch (SHARP_RIGHT :: speed :: rest) = [] /\
  layout_drive_action SHARP_LEFT speed
  = [GPIO_WriteLow GPIOA GPIO_PIN_3; GPIO_WriteHigh GPIOA GPIO_PIN_4;
     GPIO_WriteHigh GPIOG GPIO_PIN_0; GPIO_WriteLow GPIOG GPIO_PIN_1]
    ++ DriveCtrl_SetSpeed speed /\
  layout_drive_action SHARP_RIGHT speed
  = [GPIO_WriteHigh GPIOA GPIO_PIN_3; GPIO_WriteLow GPIOA GPIO_PIN_4;
     GPIO_WriteLow GPIOG GPIO_PIN_0; GPIO_WriteHigh GPIOG GPIO_PIN_1]
    ++ DriveCtrl_SetSpeed speed.
Proof. repeat split. Qed.

Example dispatch_forward_75 :
  main_dispatch ([1; 75] ++ replicate 62 0)
  = [GPIO_WriteHigh GPIOA GPIO_PIN_3; GPIO_WriteLow GPIOA GPIO_PIN_4;
     GPIO_WriteHigh GPIOG GPIO_PIN_0; GPIO_WriteLow GPIOG GPIO_PIN_1;
     TIM2_SetCompare1 750; TIM2_SetCompare2 750].
Proof. reflexivity. Qed.

Example dispatch_sharp_left_50 :
  main_dispatch ([4; 50] ++ replicate 62 0) = [].
Proof. reflexivity. Qed.

(* ===================================================================== *)
(** * Further properties of the protocol engine *)
(* ===================================================================== *)

(** *** The status word under the interrupt handler *)

Lemma match_literal_status (msg : list Z) (flag : Z) (st : RxState)
    (e e' : Engine) (b : Z) :
  match_literal msg (fun e1 => raise flag (set_state st e1)) e b = Ok e' ->
  status e' = status e \/ status e' = to_uchar (Z.lor (status e) flag).
Proof.
  unfold match_literal.
  destruct (load msg (count e)) as [c|i]; cbn [bind]; [|discriminate].
  destruct (b =? c); [destruct (_ >=? _)|]; intros H; injection H as <-; auto.
Qed.

(** A step leaves the status word alone or ors one of the four flags in. *)
Lemma step_status_cases (e e' : Engine) (b : Z) :
  Esp8266_ProcessRxByte e b = Ok e' ->
  status e' = status e \/
  exists flag,
    In flag [ESP8266_OK_MESSAGE; ESP8266_READY_MESSAGE;
             ESP8266_TX_READY_MESSAGE; ESP8266_RX_PACKET_MESSAGE] /\
    status e' = to_uchar (Z.lor (status e) flag).
Proof.
  unfold Esp8266_ProcessRxByte. destruct (esp_state e).
  - intros H. injection H as <-. auto.
  - intros H. apply match_literal_status in H as [H|H]; [auto|].
    right. eexists. split; [|exact H]. cbn [In]. auto.
  - intros H. apply match_literal_status in H as [H|H]; [auto|].
    right. eexists. split; [|exact H]. cbn [In]. auto.
  - unfold match_literal.
    destruct (load _ _); cbn [bind]; [|discriminate].
    destruct (b =? _); [destruct (_ >=? _)|]; intros H; injection H as <-; auto.
  - destruct (negb (b =? 58)).
    + destruct (store _ _ _); cbn [bind]; [|discriminate].
      intros H. injection H as <-. auto.
    + destruct (store _ _ _); cbn [bind]; [|discriminate].
      destruct (sscanf_d _); intros H; injection H as <-; auto.
  - destruct (store _ _ _); cbn [bind]; [|discriminate].
    destruct (_ >=? _); intros H; injection H as <-; [|auto].
    right. eexists. split; [|reflexivity]. cbn [In]. auto.
  - intros H. apply match_literal_status in H as [H|H]; [auto|].
    right. eexists. split; [|exact H]. cbn [In]. auto.
Qed.

Lemma lor_keeps_bits (s flag i : Z) :
  0 <= s < 256 -> 0 <= flag < 256 ->
  Z.testbit s i = true -> Z.testbit (to_uchar (Z.lor s flag)) i = true.
Proof.
  intros Hs Hf Hi. rewrite raise_byte by assumption.
  destruct (Z.ltb_spec i 0); [now rewrite Z.testbit_neg_r in Hi|].
  now rewrite Z.lor_spec, Hi.
Qed.

(** X1: the interrupt handler only ever sets status bits: after any burst
    that stays inside the arrays, every bit that was set is still set, and
    the status word is still an unsigned char. *)
Theorem feed_only_sets_bits (bytes : list Z) : forall e e' : Engine,
  0 <= status e < 256 ->
  feed e bytes = Ok e' ->
  0 <= status e' < 256 /\
  forall i, Z.testbit (status e) i = true -> Z.testbit (status e') i = true.
Proof.
  induction bytes as [|b bytes IH]; intros e e' Hs; cbn [feed].
  - intros H. injection H as <-. auto.
  - intros H. apply bind_Ok_inv in H as (e1 & Hstep & Hrest).
    pose proof (step_status_byte _ _ _ Hs Hstep) as Hs1.
    destruct (IH e1 e' Hs1 Hrest) as [Hs' Hbits].
    split; [assumption|]. intros i Hi. apply Hbits.
    destruct (step_status_cases _ _ _ Hstep) as [->|(flag & Hin & ->)];
      [assumption|].
    apply lor_keeps_bits; try assumption.
    cbn [In] in Hin.
    destruct Hin as [<-|[<-|[<-|[<-|[]]]]]; vm_compute; split; congruence.
Qed.

(** X1, witness: "OK\r\n" arriving while the ready flag is pending. *)
Lemma feed_only_sets_bits_witness :
  let e := mkEngine ESP8266_RESET 0 (replicate 64 0) 0 2 in
  exists e', feed e (chars OK_MSG) = Ok e' /\ status e' = 3 /\
             Z.testbit (status e') 1 = true.
Proof.
  intros e. eexists. split; [reflexivity|]. split; [reflexivity|].
  refine (proj2 (feed_only_sets_bits (chars OK_MSG) e _ _ eq_refl) 1 eq_refl).
  cbn [status e]. lia.
Defined.

(** *** Where a run can leave the arrays *)

Lemma idle_engine_shape (e : Engine) :
  esp_state e = ESP8266_RESET ->
  length (packet e) = Z.to_nat ESP8266_RX_BUFFER_SIZE ->
  engine_shape e.
Proof. intros Hst Hlen. unfold engine_shape. now rewrite Hst. Qed.

Ltac shape_goal :=
  unfold engine_shape, ESP8266_RX_BUFFER_SIZE;
  change (Z.to_nat 64) with 64%nat;
  cbn [raise set_status set_state set_count set_packet set_packetSize
       esp_state count packet packetSize status];
  rewrite ?length_insert; literal_sizes;
  split; [assumption | try exact I; lia].

Lemma step_shape (e : Engine) (b : Z) :
  engine_shape e ->
  match Esp8266_ProcessRxByte e b with
  | Ok e' => engine_shape e'
  | OutOfBounds i => i = ESP8266_RX_BUFFER_SIZE
  end.
Proof.
  destruct e as [st c pk ps s]. unfold engine_shape, ESP8266_RX_BUFFER_SIZE.
  cbn [esp_state count packet packetSize]. change (Z.to_nat 64) with 64%nat.
  intros [Hlen Hst]. unfold Esp8266_ProcessRxByte. cbn [esp_state].
  assert (Hlit : forall msg k,
    1 <= c < sizeof msg - 1 ->
    (c + 1 >= sizeof msg - 1 ->
       engine_shape (k (set_count (c + 1) (mkEngine st c pk ps s)))) ->
    (c + 1 < sizeof msg - 1 ->
       engine_shape (set_count (c + 1) (mkEngine st c pk ps s))) ->
    match match_literal msg k (mkEngine st c pk ps s) b with
    | Ok e' => engine_shape e'
    | OutOfBounds i => i = 64
    end).
  { intros msg k Hc Hdone Hnext.
    destruct (match_literal_safe msg k (mkEngine st c pk ps s) b engine_shape)
      as (e' & -> & He'); try assumption.
    split; [assumption | exact I]. }
  destruct st.
  - (* idle *)
    unfold engine_shape, ESP8266_RX_BUFFER_SIZE.
    cbn [set_count set_state esp_state count packet packetSize status].
    split; [assumption|]. cbn [esp_state count]. literal_sizes.
    unfold first_byte. cbn [nth OK_MSG READY_MSG RX_PACKET_MSG TX_READY_MSG].
    zcases; cbn; lia.
  - apply Hlit; [assumption|..]; literal_sizes; intros; shape_goal.
  - apply Hlit; [assumption|..]; literal_sizes; intros; shape_goal.
  - apply Hlit; [assumption|..]; literal_sizes; intros; shape_goal.
  - (* length field *)
    cbn [packet count].
    destruct (Z.eq_dec c 64) as [->|Hc].
    + rewrite !store_out by lia. now destruct (negb (b =? 58)).
    + rewrite !store_in by lia. rewrite <- !insert_take_drop by lia.
      destruct (negb (b =? 58)); cbn [bind].
      * shape_goal.
      * cbn [set_packet packet esp_state count packetSize status].
        destruct (sscanf_d _); shape_goal.
  - (* body *)
    cbn [packet count].
    destruct (Z.eq_dec c 64) as [->|Hc].
    + now rewrite store_out by lia.
    + rewrite store_in by lia. rewrite <- insert_take_drop by lia. cbn [bind].
      cbn [set_count set_packet esp_state count packet packetSize status].
      destruct (c + 1 >=? ps); shape_goal.
  - apply Hlit; [assumption|..]; literal_sizes; intros; shape_goal.
Qed.

Lemma feed_shape (bytes : list Z) : forall e : Engine,
  engine_shape e ->
  match feed e bytes with
  | Ok e' => engine_shape e'
  | OutOfBounds i => i = ESP8266_RX_BUFFER_SIZE
  end.
Proof.
  induction bytes as [|b bytes IH]; intros e Hshape; cbn [feed]; [assumption|].
  pose proof (step_shape e b Hshape) as Hstep.
  destruct (Esp8266_ProcessRxByte e b) as [e1|i]; cbn [bind]; [|assumption].
  now apply IH.
Qed.

(** A byte that makes the handler leave an array is one received in the
    length-field or in the body state with the cursor at 64. *)
Lemma step_overflow (e : Engine) (b i : Z) :
  engine_shape e ->
  Esp8266_ProcessRxByte e b = OutOfBounds i ->
  i = ESP8266_RX_BUFFER_SIZE /\
  count e = ESP8266_RX_BUFFER_SIZE /\
  (esp_state e = ESP8266_GET_RX_PACKET_SIZE \/
   esp_state e = ESP8266_GET_RX_PACKET).
Proof.
  destruct e as [st c pk ps s]. unfold engine_shape, ESP8266_RX_BUFFER_SIZE.
  cbn [esp_state count packet packetSize]. change (Z.to_nat 64) with 64%nat.
  intros [Hlen Hst]. unfold Esp8266_ProcessRxByte. cbn [esp_state].
  assert (Hlit : forall msg k,
    1 <= c < sizeof msg - 1 ->
    match_literal msg k (mkEngine st c pk ps s) b <> OutOfBounds i).
  { intros msg k Hc.
    destruct (match_literal_safe msg k (mkEngine st c pk ps s) b (fun _ => True))
      as (e' & -> & _); auto; discriminate. }
  destruct st.
  - discriminate.
  - intros H. now apply Hlit in H.
  - intros H. now apply Hlit in H.
  - intros H. now apply Hlit in H.
  - (* length field *)
    cbn [packet count].
    destruct (Z.eq_dec c 64) as [->|Hc].
    + rewrite !store_out by lia.
      destruct (negb (b =? 58)); cbn [bind]; intros H; injection H as <-; auto.
    + rewrite !store_in by lia.
      destruct (negb (b =? 58)); cbn [bind]; [discriminate|].
      destruct (sscanf_d _); discriminate.
  - (* body *)
    cbn [packet count].
    destruct (Z.eq_dec c 64) as [->|Hc].
    + rewrite store_out by lia. cbn [bind]. intros H; injection H as <-; auto.
    + rewrite store_in by lia. cbn [bind].
      destruct (_ >=? _); discriminate.
  - intros H. now apply Hlit in H.
Qed.

Lemma feed_overflow (bytes : list Z) : forall (e : Engine) (i : Z),
  engine_shape e ->
  feed e bytes = OutOfBounds i ->
  i = ESP8266_RX_BUFFER_SIZE /\
  exists pre b post e1,
    bytes = pre ++ b :: post /\
    feed e pre = Ok e1 /\
    (esp_state e1 = ESP8266_GET_RX_PACKET_SIZE \/
     esp_state e1 = ESP8266_GET_RX_PACKET) /\
    count e1 = ESP8266_RX_BUFFER_SIZE /\
    Esp8266_ProcessRxByte e1 b = OutOfBounds ESP8266_RX_BUFFER_SIZE.
Proof.
  induction bytes as [|b bytes IH]; intros e i Hshape; [discriminate|].
  rewrite feed_cons.
  pose proof (step_shape e b Hshape) as Hstep.
  destruct (Esp8266_ProcessRxByte e b) as [e1|j] eqn:Hb; cbn [bind].
  - intros H. destruct (IH e1 i Hstep H)
      as (-> & pre & b' & post & e2 & -> & Hpre & Hst & Hc & Hb').
    split; [reflexivity|].
    exists (b :: pre), b', post, e2. rewrite feed_cons, Hb. cbn [bind]. auto.
  - intros H. injection H as <-.
    destruct (step_overflow e b j Hshape Hb) as (-> & Hc & Hst).
    split; [reflexivity|]. exists [], b, bytes, e. auto.
Qed.

(** X2: from an engine of the expected shape (a 64-byte packet buffer, a
    literal counter inside its literal, a packet cursor between 0 and 64) a
    run of bytes either stays inside every array and ends in an engine of
    that shape, or the first access that leaves an array is at index 64 and
    is made for a byte received in the length-field or in the body state
    with the cursor at 64: the store to the packet buffer one past its end.
    Before that access the literal tables are never read outside their
    bounds and the cursor is never negative; the model stops at it. *)
Theorem first_overflow_is_past_the_packet (bytes : list Z) (e : Engine) :
  engine_shape e ->
  match feed e bytes with
  | Ok e' => engine_shape e'
  | OutOfBounds i =>
      i = ESP8266_RX_BUFFER_SIZE /\
      exists pre b post e1,
        bytes = pre ++ b :: post /\
        feed e pre = Ok e1 /\
        (esp_state e1 = ESP8266_GET_RX_PACKET_SIZE \/
         esp_state e1 = ESP8266_GET_RX_PACKET) /\
        count e1 = ESP8266_RX_BUFFER_SIZE /\
        Esp8266_ProcessRxByte e1 b = OutOfBounds ESP8266_RX_BUFFER_SIZE
  end.
Proof.
  intros Hshape. pose proof (feed_shape bytes e Hshape) as Hok.
  destruct (feed e bytes) as [e'|i] eqn:Hfeed; [exact Hok|].
  exact (feed_overflow bytes e i Hshape Hfeed).
Qed.

(** X2, witness: a length field of sixty-five digits on the booted engine. *)
Lemma first_overflow_is_past_the_packet_witness :
  feed Esp8266_boot (chars RX_PACKET_MSG ++ replicate 65 49) = OutOfBounds 64.
Proof.
  pose proof (first_overflow_is_past_the_packet
                (chars RX_PACKET_MSG ++ replicate 65 49) Esp8266_boot
                (idle_engine_shape Esp8266_boot eq_refl eq_refl)) as H.
  destruct (feed Esp8266_boot (chars RX_PACKET_MSG ++ replicate 65 49))
    as [e'|i] eqn:Hf.
  - vm_compute in Hf. discriminate Hf.
  - now rewrite (proj1 H).
Defined.

(** *** Bytes the idle machine has no use for *)

Lemma idle_noise (bytes : list Z) : forall e : Engine,
  esp_state e = ESP8266_RESET ->
  bytes <> [] ->
  Forall (fun b => starts_literal b = false) bytes ->
  feed e bytes
  = Ok (mkEngine ESP8266_RESET 1 (packet e) (packetSize e) (status e)).
Proof.
  induction bytes as [|b bytes IH]; intros e Hst Hne Hnoise; [congruence|].
  inversion Hnoise as [|? ? Hb Hrest]; subst.
  rewrite feed_cons, step_idle by assumption.
  assert (Hfirst : first_byte b = ESP8266_RESET).
  { unfold starts_literal in Hb.
    apply orb_false_iff in Hb as [Hb H62]. apply orb_false_iff in Hb as [Hb H43].
    apply orb_false_iff in Hb as [H79 H114].
    apply first_byte_other; now apply Z.eqb_neq. }
  rewrite Hfirst. cbn [bind].
  destruct bytes as [|b' bytes]; [reflexivity|].
  now rewrite IH.
Qed.

(** X3: in the idle state a byte that starts none of the four literals is
    dropped: any non-empty run of such bytes leaves the machine idle with
    packet, recorded length and status untouched (the counter is left
    at 1). *)
Theorem idle_discards_noise (bytes : list Z) (e : Engine) :
  esp_state e = ESP8266_RESET ->
  bytes <> [] ->
  Forall (fun b => starts_literal b = false) bytes ->
  feed e bytes
  = Ok (mkEngine ESP8266_RESET 1 (packet e) (packetSize e) (status e)).
Proof. apply idle_noise. Qed.

(** X3, witness: "AT\r\n" echoed back to the booted engine. *)
Lemma idle_discards_noise_witness :
  feed Esp8266_boot [65; 84; 13; 10]
  = Ok (mkEngine ESP8266_RESET 1 (replicate 64 0) 0 0).
Proof.
  apply (idle_discards_noise [65; 84; 13; 10] Esp8266_boot eq_refl).
  - discriminate.
  - repeat constructor.
Defined.

(** *** The length field as free text *)

Lemma c_str_nul_cut (field post : list Z) :
  c_str (field ++ 0 :: post) = c_str (field ++ [0]).
Proof.
  induction field as [|c field IH]; cbn [app c_str]; [reflexivity|].
  destruct (c =? 0); [reflexivity | now rewrite IH].
Qed.

(** The header, any text without a colon and the colon: the text replaces
    the front of [packet] and is handed to [sscanf]. *)
Lemma feed_field (e : Engine) (field : list Z) :
  esp_state e = ESP8266_RESET ->
  length (packet e) = Z.to_nat ESP8266_RX_BUFFER_SIZE ->
  Forall (fun c => c <> 58) field ->
  (length field < 64)%nat ->
  feed e (chars RX_PACKET_MSG ++ field ++ [58])
  = Ok match sscanf_d (field ++ [0]) with
       | Some size =>
           mkEngine ESP8266_GET_RX_PACKET 0
             (field ++ 0 :: drop (S (length field)) (packet e)) size (status e)
       | None =>
           mkEngine ESP8266_RESET (Z.of_nat (length field))
             (field ++ 0 :: drop (S (length field)) (packet e))
             (packetSize e) (status e)
       end.
Proof.
  unfold ESP8266_RX_BUFFER_SIZE. change (Z.to_nat 64) with 64%nat.
  intros Hst Hlen Hfield Hshort.
  rewrite (feed_Ok_app _ _ _ _ (feed_header e Hst)).
  set (k := length field) in *.
  set (e1 := mkEngine ESP8266_GET_RX_PACKET_SIZE 0 (packet e) (packetSize e) (status e)).
  assert (H1 : feed e1 field
               = Ok (mkEngine ESP8266_GET_RX_PACKET_SIZE (Z.of_nat k)
                       (field ++ drop k (packet e)) (packetSize e) (status e))).
  { apply (feed_length_field field [] (take k (packet e)) (drop k (packet e)) e1);
      try reflexivity; try assumption.
    - symmetry. apply (take_drop k (packet e)).
    - rewrite length_take. fold k. lia. }
  rewrite (feed_Ok_app _ _ _ _ H1). clear H1.
  destruct (drop k (packet e)) as [|old post] eqn:Hdrop.
  { apply (f_equal length) in Hdrop. rewrite length_drop in Hdrop.
    cbn [length] in Hdrop. lia. }
  assert (Hpost : drop (S k) (packet e) = post).
  { change (S k) with (1 + k)%nat. rewrite Nat.add_comm, <- drop_drop, Hdrop.
    reflexivity. }
  rewrite Hpost. cbn [feed].
  unfold Esp8266_ProcessRxByte. cbn [esp_state packet count negb Z.eqb Pos.eqb].
  fold k. rewrite store_middle. cbn [bind].
  unfold sscanf_d. cbn [set_packet packet]. rewrite c_str_nul_cut.
  now destruct (scan_d _).
Qed.

(** X4: a length field without a number (no digit after optional blanks
    and sign) makes the colon reset the machine: idle again, no flag raised,
    recorded length unchanged; the text has nevertheless replaced the front
    of the packet buffer. *)
Theorem unparsable_length_resets (e : Engine) (field : list Z) :
  esp_state e = ESP8266_RESET ->
  length (packet e) = Z.to_nat ESP8266_RX_BUFFER_SIZE ->
  Forall (fun c => c <> 58) field ->
  (length field < 64)%nat ->
  sscanf_d (field ++ [0]) = None ->
  exists e',
    feed e (chars RX_PACKET_MSG ++ field ++ [58]) = Ok e' /\
    esp_state e' = ESP8266_RESET /\
    status e' = status e /\
    packetSize e' = packetSize e /\
    take (S (length field)) (packet e') = field ++ [0].
Proof.
  intros Hst Hlen Hfield Hshort Hnone.
  rewrite feed_field, Hnone by assumption.
  eexists. split; [reflexivity|]. cbn [esp_state status packetSize packet].
  repeat split.
  change (field ++ 0 :: drop (S (length field)) (packet e))
    with (field ++ [0] ++ drop (S (length field)) (packet e)).
  rewrite app_assoc, take_app_length'; [reflexivity|].
  rewrite length_app. cbn [length]. lia.
Qed.

(** X4, witness: the field "abc" and the empty field. *)
Lemma unparsable_length_resets_witness :
  (exists e',
     feed Esp8266_boot (chars RX_PACKET_MSG ++ [97; 98; 99] ++ [58]) = Ok e' /\
     esp_state e' = ESP8266_RESET /\ status e' = 0) /\
  (exists e',
     feed Esp8266_boot (chars RX_PACKET_MSG ++ [] ++ [58]) = Ok e' /\
     esp_state e' = ESP8266_RESET /\ status e' = 0).
Proof.
  split.
  - destruct (unparsable_length_resets Esp8266_boot [97; 98; 99] eq_refl eq_refl
                ltac:(repeat constructor; discriminate)
                ltac:(cbn [length]; lia) eq_refl)
      as (e' & H & Hs & Hf & _).
    exists e'. auto.
  - destruct (unparsable_length_resets Esp8266_boot [] eq_refl eq_refl
                ltac:(constructor) ltac:(cbn [length]; lia) eq_refl)
      as (e' & H & Hs & Hf & _).
    exists e'. auto.
Defined.

(** Body bytes short of the declared length are stored and nothing else
    happens. *)
Lemma feed_body_partial (bs : list Z) : forall (pre mid post : list Z) (e : Engine),
  esp_state e = ESP8266_GET_RX_PACKET ->
  packet e = pre ++ mid ++ post ->
  count e = Z.of_nat (length pre) ->
  length mid = length bs ->
  Z.of_nat (length pre) + Z.of_nat (length bs) < packetSize e ->
  feed e bs
  = Ok (mkEngine ESP8266_GET_RX_PACKET
          (Z.of_nat (length pre) + Z.of_nat (length bs))
          (pre ++ bs ++ post) (packetSize e) (status e)).
Proof.
  induction bs as [|b bs IH]; intros pre mid post [st c pk ps s] Hst Hpk Hc Hmid Hps;
    simpl in Hst, Hpk, Hc, Hps; subst st pk c.
  - destruct mid; [|discriminate]. cbn [feed length app]. now rewrite Z.add_0_r.
  - destruct mid as [|m mid]; [discriminate|]. injection Hmid as Hmid.
    cbn [length] in Hps. rewrite Nat2Z.inj_succ in Hps.
    cbn [feed]. unfold Esp8266_ProcessRxByte. cbn [esp_state packet count app].
    rewrite store_middle. cbn [bind].
    unfold set_count, set_packet; cbn [esp_state packet count packetSize status].
    replace (Z.of_nat (length pre) + 1 >=? ps) with false
      by (symmetry; rewrite Z.geb_leb; apply Z.leb_gt; lia).
    cbn [bind].
    rewrite (IH (pre ++ [b]) mid post);
      cbn [esp_state packet count packetSize status]; try easy.
    + rewrite length_app, <- !app_assoc. cbn [length app].
      f_equal. f_equal. lia.
    + now rewrite <- app_assoc.
    + rewrite length_app. simpl. lia.
    + rewrite length_app. cbn [length]. lia.
Qed.

Lemma field_packet_delivered (e : Engine) (field body : list Z) (L : Z) :
  esp_state e = ESP8266_RESET ->
  length (packet e) = Z.to_nat ESP8266_RX_BUFFER_SIZE ->
  Forall (fun c => c <> 58) field ->
  (length field < 64)%nat ->
  sscanf_d (field ++ [0]) = Some L ->
  1 <= L <= ESP8266_RX_BUFFER_SIZE ->
  Z.of_nat (length body) = L ->
  exists e',
    feed e (field_stream field body) = Ok e' /\
    esp_state e' = ESP8266_RESET /\
    packet_available e' = true /\
    packetSize e' = L /\
    take (Z.to_nat L) (packet e') = body.
Proof.
  intros Hst Hlen Hfield Hshort Hscan HL Hbody.
  unfold field_stream. rewrite !app_assoc, <- (app_assoc _ field).
  rewrite (feed_Ok_app _ _ _ _ (feed_field e field Hst Hlen Hfield Hshort)), Hscan.
  unfold ESP8266_RX_BUFFER_SIZE in *. change (Z.to_nat 64) with 64%nat in Hlen.
  set (pk2 := field ++ 0 :: drop (S (length field)) (packet e)).
  assert (Hpk2 : length pk2 = 64%nat).
  { unfold pk2. rewrite length_app. cbn [length]. rewrite length_drop. lia. }
  rewrite (feed_body body [] (take (Z.to_nat L) pk2) (drop (Z.to_nat L) pk2));
    cbn [esp_state packet count packetSize status length app Z.of_nat Z.add];
    try easy.
  - eexists. split; [reflexivity|].
    cbn [esp_state packet count packetSize status].
    rewrite packet_available_bit. cbn [status].
    repeat split.
    + now apply raised_bit.
    + rewrite take_app_length'; [reflexivity | lia].
  - now rewrite take_drop.
  - rewrite length_take. lia.
  - destruct body; [cbn [length] in Hbody; lia | discriminate].
Qed.

(** X5: the declared length is whatever [sscanf] reads from the field, not
    its spelling: for any colon-free text of at most 63 bytes that parses to
    L in [1, 64] (leading blanks, a plus sign, leading zeros and trailing
    non-digits included), L body bytes complete the packet. *)
Theorem any_spelling_of_length_delivers (e : Engine) (field body : list Z) (L : Z) :
  esp_state e = ESP8266_RESET ->
  length (packet e) = Z.to_nat ESP8266_RX_BUFFER_SIZE ->
  Forall (fun c => c <> 58) field ->
  (length field < 64)%nat ->
  sscanf_d (field ++ [0]) = Some L ->
  1 <= L <= ESP8266_RX_BUFFER_SIZE ->
  Z.of_nat (length body) = L ->
  exists e',
    feed e (field_stream field body) = Ok e' /\
    esp_state e' = ESP8266_RESET /\
    packet_available e' = true /\
    packetSize e' = L /\
    take (Z.to_nat L) (packet e') = body.
Proof. apply field_packet_delivered. Qed.

(** X5, witness: the field " +007x" announces seven bytes. *)
Lemma any_spelling_of_length_delivers_witness :
  exists e',
    feed Esp8266_boot (field_stream [32; 43; 48; 48; 55; 120] [1; 2; 3; 4; 5; 6; 7])
    = Ok e' /\
    esp_state e' = ESP8266_RESET /\
    packet_available e' = true /\
    packetSize e' = 7 /\
    take 7 (packet e') = [1; 2; 3; 4; 5; 6; 7].
Proof.
  apply (any_spelling_of_length_delivers Esp8266_boot
           [32; 43; 48; 48; 55; 120] [1; 2; 3; 4; 5; 6; 7] 7);
    try reflexivity.
  - repeat constructor; discriminate.
  - cbn [length]. lia.
  - unfold ESP8266_RX_BUFFER_SIZE. lia.
Defined.

Lemma nonpositive_length_step (e : Engine) (field : list Z) (L x : Z) :
  esp_state e = ESP8266_RESET ->
  length (packet e) = Z.to_nat ESP8266_RX_BUFFER_SIZE ->
  Forall (fun c => c <> 58) field ->
  (length field < 64)%nat ->
  sscanf_d (field ++ [0]) = Some L ->
  L <= 0 ->
  exists e',
    feed e (field_stream field [x]) = Ok e' /\
    esp_state e' = ESP8266_RESET /\
    packet_available e' = true /\
    packetSize e' = L /\
    nth 0 (packet e') 0 = x.
Proof.
  intros Hst Hlen Hfield Hshort Hscan HL.
  unfold field_stream. rewrite !app_assoc, <- (app_assoc _ field).
  rewrite (feed_Ok_app _ _ _ _ (feed_field e field Hst Hlen Hfield Hshort)), Hscan.
  set (pk2 := field ++ 0 :: drop (S (length field)) (packet e)).
  destruct pk2 as [|y pk3] eqn:Hpk2.
  { destruct field; discriminate Hpk2. }
  cbn [feed]. unfold Esp8266_ProcessRxByte. cbn [esp_state packet count].
  change (store (y :: pk3) 0 x) with (Ok (x :: pk3)). cbn [bind app].
  cbn [set_count set_packet esp_state packet count packetSize status].
  replace (0 + 1 >=? L) with true
    by (symmetry; rewrite Z.geb_leb; apply Z.leb_le; lia).
  eexists. split; [reflexivity|].
  cbn [raise set_status set_state esp_state packet count packetSize status].
  rewrite packet_available_bit. cbn [status nth].
  repeat split. now apply raised_bit.
Qed.

(** X6: a declared length of zero or less still takes one body byte: the
    byte after the colon is stored in [packet[0]], the flag is raised with
    the non-positive length recorded, and the machine returns to idle. *)
Theorem nonpositive_length_takes_one_byte (e : Engine) (field : list Z) (L x : Z) :
  esp_state e = ESP8266_RESET ->
  length (packet e) = Z.to_nat ESP8266_RX_BUFFER_SIZE ->
  Forall (fun c => c <> 58) field ->
  (length field < 64)%nat ->
  sscanf_d (field ++ [0]) = Some L ->
  L <= 0 ->
  exists e',
    feed e (field_stream field [x]) = Ok e' /\
    esp_state e' = ESP8266_RESET /\
    packet_available e' = true /\
    packetSize e' = L /\
    nth 0 (packet e') 0 = x.
Proof. apply nonpositive_length_step. Qed.

(** X6, witness: the fields "0" and "-5". *)
Lemma nonpositive_length_takes_one_byte_witness :
  (exists e', feed Esp8266_boot (field_stream [48] [43]) = Ok e' /\
              packet_available e' = true /\ packetSize e' = 0) /\
  (exists e', feed Esp8266_boot (field_stream [45; 53] [9]) = Ok e' /\
              packet_available e' = true /\ packetSize e' = -5).
Proof.
  split.
  - destruct (nonpositive_length_takes_one_byte Esp8266_boot [48] 0 43
                eq_refl eq_refl ltac:(repeat constructor; discriminate)
                ltac:(cbn [length]; lia) eq_refl ltac:(lia))
      as (e' & H & _ & Hav & Hps & _).
    exists e'. auto.
  - destruct (nonpositive_length_takes_one_byte Esp8266_boot [45; 53] (-5) 9
                eq_refl eq_refl ltac:(repeat constructor; discriminate)
                ltac:(cbn [length]; lia) eq_refl ltac:(lia))
      as (e' & H & _ & Hav & Hps & _).
    exists e'. auto.
Defined.

(** X7: a declared length above 64 is not checked against the buffer: the
    first 64 body bytes fill [packet] without raising the flag, and the
    sixty-fifth is written at [packet[64]], outside the array. *)
Theorem oversized_length_overflows (e : Engine) (field body : list Z) (L : Z) :
  esp_state e = ESP8266_RESET ->
  length (packet e) = Z.to_nat ESP8266_RX_BUFFER_SIZE ->
  Forall (fun c => c <> 58) field ->
  (length field < 64)%nat ->
  sscanf_d (field ++ [0]) = Some L ->
  ESP8266_RX_BUFFER_SIZE < L ->
  (64 < length body)%nat ->
  feed e (field_stream field (take 64 body))
  = Ok (mkEngine ESP8266_GET_RX_PACKET 64 (take 64 body) L (status e)) /\
  feed e (field_stream field body) = OutOfBounds ESP8266_RX_BUFFER_SIZE.
Proof.
  intros Hst Hlen Hfield Hshort Hscan HL Hbody.
  unfold ESP8266_RX_BUFFER_SIZE in *. change (Z.to_nat 64) with 64%nat in Hlen.
  set (pk2 := field ++ 0 :: drop (S (length field)) (packet e)).
  assert (Hpk2 : length pk2 = 64%nat).
  { unfold pk2. rewrite length_app. cbn [length]. rewrite length_drop. lia. }
  assert (Hhead : feed e (chars RX_PACKET_MSG ++ field ++ [58])
                  = Ok (mkEngine ESP8266_GET_RX_PACKET 0 pk2 L (status e))).
  { rewrite feed_field, Hscan; try assumption; reflexivity. }
  assert (Hfill : feed e (field_stream field (take 64 body))
                  = Ok (mkEngine ESP8266_GET_RX_PACKET 64 (take 64 body) L (status e))).
  { unfold field_stream. rewrite !app_assoc, <- (app_assoc _ field).
    rewrite (feed_Ok_app _ _ _ _ Hhead).
    rewrite (feed_body_partial (take 64 body) [] pk2 []);
      cbn [esp_state packet count packetSize status length app Z.of_nat Z.add];
      try easy.
    - rewrite length_take, app_nil_r.
      replace (Z.of_nat (64 `min` length body)) with 64 by lia. reflexivity.
    - now rewrite app_nil_r.
    - rewrite length_take. lia.
    - rewrite length_take. lia. }
  split; [exact Hfill|].
  rewrite <- (take_drop 64 body) at 1.
  unfold field_stream in *. rewrite !app_assoc in *.
  rewrite (feed_Ok_app _ _ _ _ Hfill).
  destruct (drop 64 body) as [|b rest] eqn:Hdrop.
  { apply (f_equal length) in Hdrop. rewrite length_drop in Hdrop.
    cbn [length] in Hdrop. lia. }
  cbn [feed]. unfold Esp8266_ProcessRxByte. cbn [esp_state packet count].
  rewrite store_out; [reflexivity|]. rewrite length_take. lia.
Qed.

(** X7, witness: "+IPD,1,65:" followed by sixty-five bytes. *)
Lemma oversized_length_overflows_witness :
  feed Esp8266_boot (field_stream [54; 53] (replicate 65 7)) = OutOfBounds 64.
Proof.
  refine (proj2 (oversized_length_overflows Esp8266_boot [54; 53]
                   (replicate 65 7) 65 eq_refl eq_refl _ _ eq_refl _ _)).
  - repeat constructor; discriminate.
  - cbn [length]. lia.
  - unfold ESP8266_RX_BUFFER_SIZE. lia.
  - rewrite length_replicate. lia.
Defined.

(** *** From the wire to the caller of Esp8266_ReceiveMsg *)

Lemma decimal_field (L : Z) :
  0 <= L < 1000 ->
  Forall (fun c => c <> 58) (decimal L) /\
  (length (decimal L) < 64)%nat /\
  sscanf_d (decimal L ++ [0]) = Some L.
Proof.
  intros HL. pose proof (decimal_chars L HL) as Hch.
  pose proof (decimal_length L) as Hlen.
  split; [eapply Forall_impl; [exact Hch | cbn beta; lia]|].
  split; [lia|].
  unfold sscanf_d. rewrite c_str_app_nul.
  - now apply scan_d_decimal.
  - eapply Forall_impl; [exact Hch | cbn beta; lia].
Qed.

(** A well-formed packet leaves the idle engine idle, with the flag raised
    and a 64-byte buffer that starts with the body. *)
Lemma packet_arrives (e : Engine) (L : Z) (body : list Z) :
  esp_state e = ESP8266_RESET ->
  length (packet e) = Z.to_nat ESP8266_RX_BUFFER_SIZE ->
  1 <= L <= ESP8266_RX_BUFFER_SIZE ->
  Z.of_nat (length body) = L ->
  exists e',
    feed e (packet_stream L body) = Ok e' /\
    esp_state e' = ESP8266_RESET /\
    length (packet e') = Z.to_nat ESP8266_RX_BUFFER_SIZE /\
    packet_available e' = true /\
    packetSize e' = L /\
    take (Z.to_nat L) (packet e') = body.
Proof.
  intros Hst Hlen HL Hbody.
  destruct (decimal_field L) as (Hcol & Hshort & Hscan);
    [unfold ESP8266_RX_BUFFER_SIZE in HL; lia|].
  destruct (field_packet_delivered e (decimal L) body L)
    as (e' & Hfeed & Hst' & Hav & Hps & Htake); try assumption.
  exists e'. change (packet_stream L body) with (field_stream (decimal L) body).
  repeat split; try assumption.
  pose proof (feed_shape (field_stream (decimal L) body) e
                (idle_engine_shape e Hst Hlen)) as Hshape.
  rewrite Hfeed in Hshape. apply Hshape.
Qed.

Lemma receive_after_arrival (e : Engine) (L : Z) (body p : list Z) :
  esp_state e = ESP8266_RESET ->
  length (packet e) = Z.to_nat ESP8266_RX_BUFFER_SIZE ->
  1 <= L <= ESP8266_RX_BUFFER_SIZE ->
  Z.of_nat (length body) = L ->
  L <= Z.of_nat (length p) ->
  exists e1 e2,
    feed e (packet_stream L body) = Ok e1 /\
    Esp8266_ReceiveMsg e1 p = Ok (L, e2, body ++ drop (Z.to_nat L) p) /\
    Esp8266_ReceiveMsg e2 (body ++ drop (Z.to_nat L) p)
    = Ok (0, e2, body ++ drop (Z.to_nat L) p).
Proof.
  intros Hst Hlen HL Hbody Hp.
  destruct (packet_arrives e L body Hst Hlen HL Hbody)
    as (e1 & Hfeed & _ & Hlen1 & Hav & Hps & Htake).
  exists e1, (clear ESP8266_RX_PACKET_MESSAGE e1).
  split; [assumption|]. split.
  - rewrite receive_packet; rewrite ?Hps, ?Htake; try assumption; [reflexivity|].
    rewrite Hlen1. unfold ESP8266_RX_BUFFER_SIZE in *. lia.
  - apply receive_nothing, cleared_not_available.
Qed.

(** X8: what arrives is what the caller gets: after a packet of L bytes,
    1 <= L <= 64, [Esp8266_ReceiveMsg] returns L and has copied exactly the
    body to the front of the caller's buffer, leaving the rest of that
    buffer as it was; the next call returns 0. *)
Theorem packet_round_trip (e : Engine) (L : Z) (body p : list Z) :
  esp_state e = ESP8266_RESET ->
  length (packet e) = Z.to_nat ESP8266_RX_BUFFER_SIZE ->
  1 <= L <= ESP8266_RX_BUFFER_SIZE ->
  Z.of_nat (length body) = L ->
  L <= Z.of_nat (length p) ->
  exists e1 e2,
    feed e (packet_stream L body) = Ok e1 /\
    Esp8266_ReceiveMsg e1 p = Ok (L, e2, body ++ drop (Z.to_nat L) p) /\
    Esp8266_ReceiveMsg e2 (body ++ drop (Z.to_nat L) p)
    = Ok (0, e2, body ++ drop (Z.to_nat L) p).
Proof. apply receive_after_arrival. Qed.

(** X8, witness: the forward-at-75 command into main's zeroed buffer. *)
Lemma packet_round_trip_witness :
  exists e1 e2,
    feed Esp8266_boot (packet_stream 2 [1; 75]) = Ok e1 /\
    Esp8266_ReceiveMsg e1 (replicate 64 0)
    = Ok (2, e2, [1; 75] ++ replicate 62 0).
Proof.
  destruct (packet_round_trip Esp8266_boot 2 [1; 75] (replicate 64 0)
              eq_refl eq_refl ltac:(unfold ESP8266_RX_BUFFER_SIZE; lia)
              eq_refl ltac:(rewrite length_replicate; lia))
    as (e1 & e2 & Hfeed & Hrecv & _).
  exists e1, e2. split; [exact Hfeed | exact Hrecv].
Defined.

(** X9: there is one packet slot and no queue: when a second packet
    completes before the first was fetched, [Esp8266_ReceiveMsg] returns the
    second packet, and the call after that returns 0; the first packet is
    lost. *)
Theorem second_packet_replaces_first (e : Engine) (L1 L2 : Z)
    (body1 body2 p : list Z) :
  esp_state e = ESP8266_RESET ->
  length (packet e) = Z.to_nat ESP8266_RX_BUFFER_SIZE ->
  1 <= L1 <= ESP8266_RX_BUFFER_SIZE -> Z.of_nat (length body1) = L1 ->
  1 <= L2 <= ESP8266_RX_BUFFER_SIZE -> Z.of_nat (length body2) = L2 ->
  L2 <= Z.of_nat (length p) ->
  exists e1 e2,
    feed e (packet_stream L1 body1 ++ packet_stream L2 body2) = Ok e1 /\
    Esp8266_ReceiveMsg e1 p = Ok (L2, e2, body2 ++ drop (Z.to_nat L2) p) /\
    Esp8266_ReceiveMsg e2 (body2 ++ drop (Z.to_nat L2) p)
    = Ok (0, e2, body2 ++ drop (Z.to_nat L2) p).
Proof.
  intros Hst Hlen HL1 Hb1 HL2 Hb2 Hp.
  destruct (packet_arrives e L1 body1 Hst Hlen HL1 Hb1)
    as (ea & Hfa & Hsta & Hlena & _).
  destruct (packet_arrives ea L2 body2 Hsta Hlena HL2 Hb2)
    as (e1 & Hfeed & _ & Hlen1 & Hav & Hps & Htake).
  exists e1, (clear ESP8266_RX_PACKET_MESSAGE e1).
  split; [now rewrite (feed_Ok_app _ _ _ _ Hfa)|]. split.
  - rewrite receive_packet; rewrite ?Hps, ?Htake; try assumption; [reflexivity|].
    rewrite Hlen1. unfold ESP8266_RX_BUFFER_SIZE in *. lia.
  - apply receive_nothing, cleared_not_available.
Qed.

(** X9, witness: "stop" overtaken by "forward at 75". *)
Lemma second_packet_replaces_first_witness :
  exists e1 e2,
    feed Esp8266_boot (packet_stream 1 [0] ++ packet_stream 2 [1; 75]) = Ok e1 /\
    Esp8266_ReceiveMsg e1 (replicate 64 0)
    = Ok (2, e2, [1; 75] ++ replicate 62 0).
Proof.
  destruct (second_packet_replaces_first Esp8266_boot 1 2 [0] [1; 75]
              (replicate 64 0) eq_refl eq_refl
              ltac:(unfold ESP8266_RX_BUFFER_SIZE; lia) eq_refl
              ltac:(unfold ESP8266_RX_BUFFER_SIZE; lia) eq_refl
              ltac:(rewrite length_replicate; lia))
    as (e1 & e2 & Hfeed & Hrecv & _).
  exists e1, e2. split; [exact Hfeed | exact Hrecv].
Defined.

(** X10: the pending packet is not protected while it waits: as soon as the
    header of a further packet and one byte of its length field have
    arrived, that byte sits in [packet[0]], while the flag and the recorded
    length still describe the earlier packet; [Esp8266_ReceiveMsg] then
    returns the old length with the new byte in front. *)
Theorem pending_packet_overwritten (e : Engine) (d : Z) (p : list Z) :
  esp_state e = ESP8266_RESET ->
  length (packet e) = Z.to_nat ESP8266_RX_BUFFER_SIZE ->
  packet_available e = true ->
  1 <= packetSize e <= ESP8266_RX_BUFFER_SIZE ->
  packetSize e <= Z.of_nat (length p) ->
  d <> 58 ->
  exists e1 e2 p',
    feed e (chars RX_PACKET_MSG ++ [d]) = Ok e1 /\
    Esp8266_ReceiveMsg e1 p = Ok (packetSize e, e2, p') /\
    nth 0 p' 0 = d /\
    drop 1 (take (Z.to_nat (packetSize e)) p')
    = drop 1 (take (Z.to_nat (packetSize e)) (packet e)).
Proof.
  intros Hst Hlen Hav Hps Hp Hd.
  unfold ESP8266_RX_BUFFER_SIZE in *. change (Z.to_nat 64) with 64%nat in Hlen.
  destruct (packet e) as [|y pk] eqn:Hpk; [discriminate|].
  assert (Hfeed : feed e (chars RX_PACKET_MSG ++ [d])
                  = Ok (mkEngine ESP8266_GET_RX_PACKET_SIZE 1 (d :: pk)
                          (packetSize e) (status e))).
  { rewrite (feed_Ok_app _ _ _ _ (feed_header e Hst)). rewrite Hpk.
    rewrite (feed_length_field [d] [] [y] pk); try reflexivity.
    repeat constructor. exact Hd. }
  set (e1 := mkEngine ESP8266_GET_RX_PACKET_SIZE 1 (d :: pk) (packetSize e) (status e)).
  assert (Hav1 : packet_available e1 = true) by exact Hav.
  exists e1, (clear ESP8266_RX_PACKET_MESSAGE e1). eexists.
  split; [exact Hfeed|]. split.
  - rewrite receive_packet; try assumption; [reflexivity|].
    cbn [e1 packet packetSize length] in *. lia.
  - cbn [e1 packet packetSize].
    assert (Hn : Z.to_nat (packetSize e) = S (Z.to_nat (packetSize e) - 1)) by lia.
    rewrite !take_app_length' by (rewrite length_take; cbn [length] in *; lia).
    rewrite Hn. cbn [take nth app drop]. auto.
Qed.

(** X10, witness: "forward at 75" pending, then "+IPD,1,9". *)
Lemma pending_packet_overwritten_witness :
  let e := mkEngine ESP8266_RESET 2 ([1; 75] ++ replicate 62 0) 2 8 in
  exists e1 e2,
    feed e (chars RX_PACKET_MSG ++ [57]) = Ok e1 /\
    Esp8266_ReceiveMsg e1 (replicate 64 0)
    = Ok (2, e2, [57; 75] ++ replicate 62 0).
Proof.
  intros e.
  destruct (pending_packet_overwritten e 57 (replicate 64 0) eq_refl eq_refl
              eq_refl ltac:(cbn; unfold ESP8266_RX_BUFFER_SIZE; lia)
              ltac:(cbn; lia) ltac:(discriminate))
    as (e1 & e2 & p' & Hfeed & Hrecv & _).
  vm_compute in Hfeed. injection Hfeed as <-.
  vm_compute in Hrecv. injection Hrecv as <- <-.
  do 2 eexists. split; reflexivity.
Defined.

(** *** Replies one after the other *)

(** X11: the three modem replies compose: any sequence of "OK\r\n",
    "ready\r\n" and "> " messages, fed back to back to the idle engine,
    leaves it idle with exactly the flags of the messages seen added to the
    status word, and packet and recorded length untouched. *)
Theorem replies_accumulate (msgs : list (list Z * Z)) : forall e : Engine,
  esp_state e = ESP8266_RESET ->
  0 <= status e < 256 ->
  Forall (fun mf => In mf flag_literals) msgs ->
  exists e',
    feed e (concat (map (fun mf => chars (fst mf)) msgs)) = Ok e' /\
    esp_state e' = ESP8266_RESET /\
    status e' = fold_left (fun s mf => Z.lor s (snd mf)) msgs (status e) /\
    packet e' = packet e /\ packetSize e' = packetSize e.
Proof.
  induction msgs as [|[msg flag] msgs IH]; intros e Hst Hs Hall.
  - exists e. cbn. auto.
  - inversion Hall as [|? ? Hin Hrest]; subst.
    destruct (literal_recognised e msg flag Hst Hs Hin)
      as (e1 & Hfeed & Hst1 & Hs1 & Hpk1 & Hps1).
    assert (Hb1 : 0 <= status e1 < 256)
      by (eapply feed_status_byte; [exact Hs | exact Hfeed]).
    destruct (IH e1 Hst1 Hb1 Hrest) as (e' & Hfeed' & Hst' & Hs' & Hpk' & Hps').
    exists e'. cbn [map concat fold_left fst snd].
    rewrite (feed_Ok_app _ _ _ _ Hfeed).
    rewrite Hs', Hs1, Hpk', Hpk1, Hps', Hps1. auto.
Qed.

(** X11, witness: "ready\r\n", "OK\r\n", "OK\r\n" raise bits 1 and 0. *)
Lemma replies_accumulate_witness :
  exists e',
    feed Esp8266_boot (chars READY_MSG ++ chars OK_MSG ++ chars OK_MSG) = Ok e' /\
    esp_state e' = ESP8266_RESET /\ status e' = 3.
Proof.
  destruct (replies_accumulate
              [(READY_MSG, ESP8266_READY_MESSAGE); (OK_MSG, ESP8266_OK_MESSAGE);
               (OK_MSG, ESP8266_OK_MESSAGE)] Esp8266_boot eq_refl
              ltac:(cbn [status Esp8266_boot]; lia)
              ltac:(repeat first [ apply List.Forall_nil
                                 | apply List.Forall_cons; [cbn; tauto|] ]))
    as (e' & Hfeed & Hst & Hs & _).
  exists e'. split; [exact Hfeed|]. split; [exact Hst | exact Hs].
Defined.

(* ===================================================================== *)
(** * Properties of the drive controller and of the dispatch *)
(* ===================================================================== *)

(** X12: every drive command is absolute: whatever the pins were before,
    after the drive call of a direction code the two motors' inputs are
    those of that direction (stop: both off; forward / backward: both
    motors alike; left: left off, right forward; sharp left: left backward,
    right forward; right and sharp right mirrored), and no motor is left
    with both inputs high. *)
Theorem drive_commands_are_absolute (h : Hw) :
  (left_inputs (exec h DriveCtrl_Stop), right_inputs (exec h DriveCtrl_Stop))
  = (OFF, OFF) /\
  (left_inputs (exec h DriveCtrl_Forward), right_inputs (exec h DriveCtrl_Forward))
  = (FWD, FWD) /\
  (left_inputs (exec h DriveCtrl_Backward), right_inputs (exec h DriveCtrl_Backward))
  = (BWD, BWD) /\
  (left_inputs (exec h (DriveCtrl_Turn LEFT)),
   right_inputs (exec h (DriveCtrl_Turn LEFT))) = (OFF, FWD) /\
  (left_inputs (exec h (DriveCtrl_Turn SHARP_LEFT)),
   right_inputs (exec h (DriveCtrl_Turn SHARP_LEFT))) = (BWD, FWD) /\
  (left_inputs (exec h (DriveCtrl_Turn RIGHT)),
   right_inputs (exec h (DriveCtrl_Turn RIGHT))) = (FWD, OFF) /\
  (left_inputs (exec h (DriveCtrl_Turn SHARP_RIGHT)),
   right_inputs (exec h (DriveCtrl_Turn SHARP_RIGHT))) = (FWD, BWD).
Proof. repeat split. Qed.

(** X13: a call of [Motor] or [DriveCtrl_Turn] with a code it has no case
    for does nothing at all: [Motor] acts only for the motor ids LEFT and
    RIGHT with a direction among STOP, FORWARD, BACKWARD, and
    [DriveCtrl_Turn] only for the four turn codes; in particular
    [DriveCtrl_Turn] does not stop or drive straight. *)
Theorem unknown_codes_do_nothing (m d : Z) :
  (Motor m d <> [] <->
     (m = LEFT \/ m = RIGHT) /\ (d = STOP \/ d = FORWARD \/ d = BACKWARD)) /\
  (DriveCtrl_Turn d <> [] <->
     d = LEFT \/ d = SHARP_LEFT \/ d = RIGHT \/ d = SHARP_RIGHT).
Proof.
  unfold Motor, DriveCtrl_Turn, Motor, LEFT, RIGHT, STOP, FORWARD, BACKWARD,
    SHARP_LEFT, SHARP_RIGHT.
  split.
  - destruct (Z.eqb_spec m 3) as [->|]; [|destruct (Z.eqb_spec m 5) as [->|]];
      (destruct (Z.eqb_spec d 0) as [->|];
       [|destruct (Z.eqb_spec d 1) as [->|];
         [|destruct (Z.eqb_spec d 2) as [->|]]]);
      split; intros H; try congruence; try lia; try (split; auto; lia);
      try (exfalso; lia).
  - destruct (Z.eqb_spec d 3) as [->|];
      [|destruct (Z.eqb_spec d 4) as [->|];
        [|destruct (Z.eqb_spec d 5) as [->|];
          [|destruct (Z.eqb_spec d 6) as [->|]]]];
      cbn; split; intros H; try congruence; try lia; auto.
Qed.

Lemma set_speed_range (p : Z) (h : Hw) :
  let h' := exec h (DriveCtrl_SetSpeed p) in
  pa3 h' = pa3 h /\ pa4 h' = pa4 h /\ pg0 h' = pg0 h /\ pg1 h' = pg1 h /\
  ccr1 h' = ccr2 h' /\ 0 <= ccr1 h' <= PWM_TIMER_MAX_COUNT /\
  ccr1 h' = 10 * Z.min (to_uchar p) 100.
Proof.
  pose proof (to_uchar_range p) as Hp.
  unfold DriveCtrl_SetSpeed, PWM_TIMER_MAX_COUNT.
  change (1000 / 100) with 10. cbn [exec fold_left exec_op pa3 pa4 pg0 pg1 ccr1 ccr2].
  destruct (Z.gtb_spec (to_uchar p) 100); repeat split; lia.
Qed.

(** X14: [DriveCtrl_SetSpeed] never asks for more than full duty: whatever
    argument it is called with, it loads both compare registers with the
    same value, ten times the percentage capped at 100, where the percentage
    is the argument as the [unsigned char] the function receives (the
    argument modulo 256); the value lies between 0 and the timer period of
    1000, and no motor pin is touched. *)
Theorem set_speed_is_clamped (p : Z) (h : Hw) :
  let h' := exec h (DriveCtrl_SetSpeed p) in
  left_inputs h' = left_inputs h /\ right_inputs h' = right_inputs h /\
  ccr1 h' = 10 * Z.min (to_uchar p) 100 /\
  ccr2 h' = 10 * Z.min (to_uchar p) 100 /\
  0 <= ccr1 h' <= PWM_TIMER_MAX_COUNT.
Proof.
  intros h'.
  destruct (set_speed_range p h) as (H3 & H4 & H0 & H1 & Heq & Hr & Hv).
  fold h' in H3, H4, H0, H1, Heq, Hr, Hv.
  unfold left_inputs, right_inputs. rewrite H3, H4, H0, H1.
  repeat split; lia.
Qed.

(** 255 percent is cut to full duty; an argument of 300 reaches the
    function as 44. *)
Example set_speed_of_255_and_300 :
  let h := mkHw false false false false 0 0 in
  ccr1 (exec h (DriveCtrl_SetSpeed 255)) = 1000 /\
  ccr1 (exec h (DriveCtrl_SetSpeed 300)) = 440.
Proof. split; reflexivity. Qed.

(** X15: whatever packet main's buffer holds, acting on it cannot leave the
    hardware in a bad state: if no motor had both inputs high and the two
    PWM duties were equal and within the period before, the same holds
    after the dispatch. *)
Theorem dispatch_keeps_hardware_sane (pkt : list Z) (h : Hw) :
  Forall (fun b => 0 <= b < 256) pkt ->
  hw_ok h ->
  hw_ok (exec h (main_dispatch pkt)).
Proof.
  intros Hbytes (Hl & Hr & Hc & Hrange).
  assert (Hset : forall p h0,
             left_inputs h0 <> (true, true) ->
             right_inputs h0 <> (true, true) ->
             hw_ok (exec h0 (DriveCtrl_SetSpeed p))).
  { intros p h0 Hl0 Hr0.
    destruct (set_speed_range p h0) as (H3 & H4 & H0 & H1 & Heq & Hrg & _).
    unfold hw_ok, left_inputs, right_inputs in *.
    rewrite H3, H4, H0, H1. auto. }
  unfold main_dispatch, STOP, FORWARD, BACKWARD, LEFT, RIGHT.
  destruct (nth 0 pkt 0 =? 0);
    [|destruct (nth 0 pkt 0 =? 1);
      [|destruct (nth 0 pkt 0 =? 2);
        [|destruct (nth 0 pkt 0 =? 3);
          [|destruct (nth 0 pkt 0 =? 5)]]]];
    try (unfold exec; rewrite fold_left_app; apply Hset; discriminate).
  cbn [exec fold_left]. unfold hw_ok. auto.
Qed.

(** X15, witness: "backward at 200 percent" on idle hardware. *)
Lemma dispatch_keeps_hardware_sane_witness :
  hw_ok (exec (mkHw false false false false 0 0) (main_dispatch [2; 200])).
Proof.
  apply dispatch_keeps_hardware_sane.
  - repeat constructor; lia.
  - unfold hw_ok, PWM_TIMER_MAX_COUNT. cbn. repeat split; try discriminate; lia.
Defined.

(** X16: a reversal is not glitch-free: [Motor] writes its two pins one
    after the other, first pin first, so switching a motor from backward to
    forward passes through a state with both inputs high, while switching
    from forward to backward passes through both inputs low. *)
Theorem reversal_passes_through_both_high (h : Hw) :
  (left_inputs h = BWD ->
   map left_inputs (passes h (Motor LEFT FORWARD)) = [(true, true); FWD]) /\
  (left_inputs h = FWD ->
   map left_inputs (passes h (Motor LEFT BACKWARD)) = [OFF; BWD]) /\
  (right_inputs h = BWD ->
   map right_inputs (passes h (Motor RIGHT FORWARD)) = [(true, true); FWD]) /\
  (right_inputs h = FWD ->
   map right_inputs (passes h (Motor RIGHT BACKWARD)) = [OFF; BWD]).
Proof.
  destruct h as [a3 a4 g0 g1 c1 c2]. unfold left_inputs, right_inputs, BWD, FWD, OFF.
  cbn. repeat split; intros H; injection H as -> ->; reflexivity.
Qed.

(** X16, witness: the left motor running backward, then told forward. *)
Lemma reversal_passes_through_both_high_witness :
  map left_inputs (passes (mkHw false true false true 0 0) (Motor LEFT FORWARD))
  = [(true, true); FWD].
Proof.
  exact (proj1 (reversal_passes_through_both_high
                  (mkHw false true false true 0 0)) eq_refl).
Defined.

(** X17: from the wire to the motors: for a packet whose first byte is one
    of the five codes the main loop handles, receiving it into main's buffer
    and dispatching issues the drive call of that code with the speed taken
    from byte 1 of main's buffer; that is the packet's second byte when the
    packet has one, and for a one-byte packet whatever an earlier packet
    left at that place. *)
Theorem dispatch_after_receive (e : Engine) (L d : Z) (rest p : list Z) :
  esp_state e = ESP8266_RESET ->
  length (packet e) = Z.to_nat ESP8266_RX_BUFFER_SIZE ->
  1 <= L <= ESP8266_RX_BUFFER_SIZE ->
  Z.of_nat (length (d :: rest)) = L ->
  length p = Z.to_nat ESP8266_RX_BUFFER_SIZE ->
  In d [STOP; FORWARD; BACKWARD; LEFT; RIGHT] ->
  exists e1 e2 p',
    feed e (packet_stream L (d :: rest)) = Ok e1 /\
    Esp8266_ReceiveMsg e1 p = Ok (L, e2, p') /\
    main_dispatch p' = layout_drive_action d (nth 1 p' 0) /\
    (2 <= L -> nth 1 p' 0 = nth 0 rest 0) /\
    (L = 1 -> nth 1 p' 0 = nth 1 p 0).
Proof.
  intros Hst Hlen HL Hbody Hp Hd.
  unfold ESP8266_RX_BUFFER_SIZE in *. change (Z.to_nat 64) with 64%nat in *.
  destruct (receive_after_arrival e L (d :: rest) p Hst Hlen HL Hbody ltac:(lia))
    as (e1 & e2 & Hfeed & Hrecv & _).
  exists e1, e2, ((d :: rest) ++ drop (Z.to_nat L) p).
  split; [exact Hfeed|]. split; [exact Hrecv|].
  cbn [length] in Hbody.
  destruct rest as [|sp rest].
  - (* one byte *)
    assert (L = 1) by (cbn [length] in Hbody; lia). subst L.
    change (Z.to_nat 1) with 1%nat.
    destruct p as [|p0 [|p1 p]]; try (cbn [length] in Hp; lia).
    cbn [app drop nth]. split; [|split; [lia | reflexivity]].
    apply (main_dispatch_handled d p1 p Hd).
  - cbn [app nth]. split; [|split; [reflexivity | cbn [length] in Hbody; lia]].
    apply (main_dispatch_handled d sp _ Hd).
Qed.

(** X17, witness: the one-byte packet "forward" after an earlier speed of
    75 is driven at 75. *)
Lemma dispatch_after_receive_witness :
  exists e1 e2 p',
    feed Esp8266_boot (packet_stream 1 [1]) = Ok e1 /\
    Esp8266_ReceiveMsg e1 ([0; 75] ++ replicate 62 0) = Ok (1, e2, p') /\
    main_dispatch p' = layout_drive_action FORWARD 75.
Proof.
  destruct (dispatch_after_receive Esp8266_boot 1 1 [] ([0; 75] ++ replicate 62 0)
              eq_refl eq_refl ltac:(unfold ESP8266_RX_BUFFER_SIZE; lia)
              eq_refl eq_refl ltac:(cbn; auto))
    as (e1 & e2 & p' & Hfeed & Hrecv & Hdisp & _ & Hstale).
  exists e1, e2, p'. split; [exact Hfeed|]. split; [exact Hrecv|].
  rewrite Hdisp, (Hstale eq_refl). reflexivity.
Defined.

(* ===================================================================== *)
(** * Further properties of the UART FIFO *)
(* ===================================================================== *)

Lemma read_from_length (buf : list Z) (n : nat) : forall i,
  length (read_from buf i n) = n.
Proof. induction n as [|n IH]; intros i; cbn [read_from length]; auto. Qed.

Lemma fifo_contents_length (f : Fifo) :
  Z.of_nat (length (fifo_contents f)) = fifo_count f.
Proof.
  unfold fifo_contents. rewrite read_from_length.
  pose proof (fifo_count_range f). lia.
Qed.

Lemma dequeue_empty (f : Fifo) :
  fifo_wf f -> fifo_contents f = [] -> Uart_FifoDequeue f = Ok (0, f).
Proof.
  intros Hwf Hq. pose proof (fifo_contents_length f) as Hlen.
  rewrite Hq in Hlen. cbn [length] in Hlen.
  unfold Uart_FifoDequeue.
  now rewrite (proj2 (fifo_empty_count f Hwf)) by lia.
Qed.

Lemma clear_is_empty (f : Fifo) :
  fifo_wf (Uart_FifoClear f) /\ fifo_contents (Uart_FifoClear f) = [].
Proof. split; [vm_compute; repeat split; congruence | reflexivity]. Qed.

Lemma ready_iff_nonempty (f : Fifo) :
  fifo_wf f ->
  Uart_IsRxDataReady f = match fifo_contents f with [] => 0 | _ => 1 end.
Proof.
  intros Hwf. pose proof (fifo_contents_length f) as Hlen.
  unfold Uart_IsRxDataReady.
  destruct (Uart_FifoIsEmpty f) eqn:He.
  - apply (fifo_empty_count f Hwf) in He. rewrite He in Hlen.
    now destruct (fifo_contents f).
  - destruct (fifo_contents f); [|reflexivity].
    cbn [length] in Hlen.
    rewrite (proj2 (fifo_empty_count f Hwf)) in He by lia. discriminate.
Qed.

Lemma run_ops_refines (ops : list FifoOp) : forall f : Fifo,
  fifo_wf f ->
  exists f',
    run_ops f ops = Ok (fst (queue_ops (fifo_contents f) ops), f') /\
    fifo_wf f' /\
    fifo_contents f' = snd (queue_ops (fifo_contents f) ops).
Proof.
  induction ops as [|op ops IH]; intros f Hwf.
  - exists f. cbn. auto.
  - assert (Hstep : exists r f1 q1,
              match op with
              | Enqueue x => Uart_FifoEnqueue f x
              | Dequeue => Uart_GetRxData f
              | IsRxDataReady => Ok (Uart_IsRxDataReady f, f)
              | ClearRxFifo => Ok (0, Uart_ClearRxFifo f)
              end = Ok (r, f1) /\
              match op with
              | Enqueue x =>
                  if (length (fifo_contents f) <? 63)%nat
                  then (1, fifo_contents f ++ [x]) else (0, fifo_contents f)
              | Dequeue =>
                  match fifo_contents f with
                  | [] => (0, [])
                  | x :: q' => (x, q')
                  end
              | IsRxDataReady =>
                  (match fifo_contents f with [] => 0 | _ => 1 end, fifo_contents f)
              | ClearRxFifo => (0, [])
              end = (r, q1) /\
              fifo_wf f1 /\ fifo_contents f1 = q1).
    { pose proof (fifo_contents_length f) as Hlen.
      pose proof (fifo_count_range f) as Hrange.
      destruct op as [x| | |].
      - destruct (Nat.ltb_spec (length (fifo_contents f)) 63) as [Hroom|Hfull].
        + destruct (enqueue_appends f x Hwf ltac:(lia)) as (f1 & He & Hwf1 & _ & _ & Hq1).
          exists 1, f1, (fifo_contents f ++ [x]). auto.
        + destruct (enqueue_refused f x Hwf ltac:(lia)) as [_ He].
          exists 0, f, (fifo_contents f). auto.
      - unfold Uart_GetRxData.
        destruct (fifo_contents f) as [|x q'] eqn:Hq.
        + exists 0, f, []. rewrite (dequeue_empty f Hwf Hq). auto.
        + destruct (dequeue_pops f x q' Hwf Hq) as (f1 & Hd & Hwf1 & Hq1).
          exists x, f1, q'. auto.
      - exists (Uart_IsRxDataReady f), f, (fifo_contents f).
        rewrite <- (ready_iff_nonempty f Hwf). auto.
      - destruct (clear_is_empty f) as [Hwf1 Hq1].
        exists 0, (Uart_ClearRxFifo f), []. auto. }
    destruct Hstep as (r & f1 & q1 & Hrun & Hspec & Hwf1 & Hq1).
    destruct (IH f1 Hwf1) as (f' & Hrest & Hwf' & Hq').
    exists f'. cbn [run_ops queue_ops]. rewrite Hrun, Hspec. cbn [bind fst snd].
    rewrite Hrest. cbn [bind fst snd]. rewrite Hq1 in *.
    destruct (queue_ops q1 ops) as [rs q2]. cbn [fst snd] in *. auto.
Qed.

(** X18: the circular buffer is a queue of capacity 63: on any well-formed
    FIFO, any sequence of enqueue, dequeue, data-ready and clear calls
    returns exactly what the same calls return on a plain list used as a
    queue of at most 63 bytes (an enqueue beyond that is refused with 0 and
    drops the byte, a dequeue from the empty queue returns 0), and leaves a
    well-formed FIFO holding that list. *)
Theorem fifo_is_bounded_queue (f : Fifo) (ops : list FifoOp) :
  fifo_wf f ->
  exists f',
    run_ops f ops = Ok (fst (queue_ops (fifo_contents f) ops), f') /\
    fifo_wf f' /\
    fifo_contents f' = snd (queue_ops (fifo_contents f) ops).
Proof. apply run_ops_refines. Qed.

(** X18, witness: interleaved calls on the booted FIFO. *)
Lemma fifo_is_bounded_queue_witness :
  exists f',
    run_ops Uart_boot
      [Dequeue; Enqueue 5; Enqueue 6; IsRxDataReady; Dequeue; ClearRxFifo;
       IsRxDataReady; Enqueue 7]
    = Ok ([0; 1; 1; 1; 5; 0; 0; 1], f') /\
    fifo_contents f' = [7].
Proof.
  destruct (fifo_is_bounded_queue Uart_boot
              [Dequeue; Enqueue 5; Enqueue 6; IsRxDataReady; Dequeue; ClearRxFifo;
               IsRxDataReady; Enqueue 7])
    as (f' & Hrun & _ & Hq).
  - vm_compute; repeat split; congruence.
  - exists f'. split; [exact Hrun | exact Hq].
Defined.

(* ===================================================================== *)
(** * Properties of the transmit path and of the command functions *)
(* ===================================================================== *)

(** *** Uart_Send *)

Lemma send_loop_inside (buffer : list Z) (n : nat) : forall i : nat,
  (i + n <= length buffer)%nat ->
  send_loop buffer (Z.of_nat i) n = Ok (take n (drop i buffer)).
Proof.
  induction n as [|n IH]; intros i Hin; cbn [send_loop]; [reflexivity|].
  rewrite load_in by lia. cbn [bind].
  replace (Z.of_nat i + 1) with (Z.of_nat (S i)) by lia.
  rewrite IH by lia. cbn [bind]. rewrite Nat2Z.id.
  destruct (drop i buffer) as [|c rest] eqn:Hdrop.
  { apply (f_equal length) in Hdrop. rewrite length_drop in Hdrop.
    cbn [length] in Hdrop. lia. }
  assert (Hnth : nth i buffer 0 = c).
  { rewrite <- (take_drop i buffer) at 1. rewrite Hdrop.
    rewrite app_nth2 by (rewrite length_take; lia).
    rewrite length_take. replace (i - i `min` length buffer)%nat with 0%nat by lia.
    reflexivity. }
  assert (Hrest : drop (S i) buffer = rest).
  { change (S i) with (1 + i)%nat. rewrite Nat.add_comm, <- drop_drop, Hdrop.
    reflexivity. }
  now rewrite Hnth, Hrest.
Qed.

Lemma send_loop_outside (buffer : list Z) (n : nat) : forall i : nat,
  (i <= length buffer)%nat ->
  (length buffer < i + n)%nat ->
  send_loop buffer (Z.of_nat i) n = OutOfBounds (Z.of_nat (length buffer)).
Proof.
  induction n as [|n IH]; intros i Hi Hin; [lia|]. cbn [send_loop].
  destruct (Nat.eq_dec i (length buffer)) as [->|Hne].
  - unfold load.
    replace (Z.of_nat (length buffer) <? Z.of_nat (length buffer)) with false
      by (symmetry; apply Z.ltb_ge; lia).
    now rewrite andb_false_r.
  - rewrite load_in by lia. cbn [bind].
    replace (Z.of_nat i + 1) with (Z.of_nat (S i)) by lia.
    now rewrite IH by lia.
Qed.

Lemma uart_send_prefix_lemma (buffer : list Z) (len : Z) :
  0 <= len ->
  Uart_Send buffer len
  = if len <=? Z.of_nat (length buffer)
    then Ok (take (Z.to_nat len) buffer)
    else OutOfBounds (Z.of_nat (length buffer)).
Proof.
  intros Hlen. unfold Uart_Send. change 0 with (Z.of_nat 0).
  destruct (Z.leb_spec len (Z.of_nat (length buffer))).
  - now rewrite send_loop_inside by lia.
  - now rewrite send_loop_outside by lia.
Qed.

(** X19: [Uart_Send] puts exactly the first [length] bytes of the buffer
    on the wire, in order; asked for more bytes than the buffer holds it
    reads past the end of the buffer, the first such read being at the
    index that equals the buffer's size. *)
Theorem uart_send_prefix (buffer : list Z) (len : Z) :
  0 <= len ->
  Uart_Send buffer len
  = if len <=? Z.of_nat (length buffer)
    then Ok (take (Z.to_nat len) buffer)
    else OutOfBounds (Z.of_nat (length buffer)).
Proof. apply uart_send_prefix_lemma. Qed.

(** X19, witness: five bytes of "Hello", and six asked of it. *)
Lemma uart_send_prefix_witness :
  Uart_Send (bytes_of "Hello" ++ [0]) 5 = Ok (bytes_of "Hello") /\
  Uart_Send (bytes_of "Hello") 6 = OutOfBounds 5.
Proof.
  split.
  - exact (uart_send_prefix (bytes_of "Hello" ++ [0]) 5 ltac:(lia)).
  - exact (uart_send_prefix (bytes_of "Hello") 6 ltac:(lia)).
Defined.

(** *** Sending and waiting in a world *)

Lemma send_inside (buffer : list Z) (len : Z) (w : World) :
  0 <= len <= Z.of_nat (length buffer) ->
  send buffer len w
  = Finished tt (mkWorld (eng w) (irq w)
                   (tx w ++ take (Z.to_nat len) buffer) (drive w)).
Proof.
  intros Hlen. unfold send. rewrite uart_send_prefix_lemma by lia.
  now replace (len <=? Z.of_nat (length buffer)) with true
    by (symmetry; apply Z.leb_le; lia).
Qed.

(** A wait transmits nothing and drives nothing; when it returns, the
    bits it waited for are clear. *)
Lemma wait_effect (msgType timeout : Z) (w : World) :
  match wait msgType timeout w with
  | Finished r w' =>
      r = 1 /\ tx w' = tx w /\ drive w' = drive w /\
      forall i, 0 <= i < 8 -> Z.testbit msgType i = true ->
                Z.testbit (status (eng w')) i = false
  | Blocked w' => tx w' = tx w /\ drive w' = drive w
  | Failed _ => True
  end.
Proof.
  unfold wait.
  destruct (WaitForResponse msgType timeout (eng w) (irq w)) as [r e rest|e|i] eqn:Hw;
    cbn [tx drive eng]; auto.
  apply wait_returned in Hw as (-> & seen & e_at & _ & _ & _ & ->).
  repeat split. intros i Hi Hbit.
  unfold clear, set_status. cbn [status].
  rewrite clear_bit, Hbit by assumption. apply andb_false_r.
Qed.

(** What the polls of a wait have seen, for each way the wait can end. *)
Lemma wait_trace (msgType timeout : Z) (irq : list (list Z)) : forall e : Engine,
  match WaitForResponse msgType timeout e irq with
  | Returned r e' rest => r = 1 /\ wait_ends msgType e irq e' rest
  | Spinning e' => wait_starves msgType e irq /\ delivered_bursts e irq e'
  | Crashed i => bursts_overflow e irq i
  end.
Proof.
  unfold wait_ends, wait_starves, bursts_overflow, delivered_bursts.
  induction irq as [|burst later IH]; intros e; cbn [WaitForResponse];
    destruct (Z.eqb_spec (Z.land (status e) msgType) msgType) as [Hset|Hclr].
  - split; [reflexivity|]. exists [], e. repeat split; auto.
    intros k e_k Hk. cbn [length] in Hk. lia.
  - split; [|reflexivity]. intros k Hk. exists e. rewrite take_nil. auto.
  - split; [reflexivity|]. exists [], e. repeat split; auto.
    intros k e_k Hk. cbn [length] in Hk. lia.
  - destruct (feed e burst) as [e1|i] eqn:Hburst.
    + specialize (IH e1).
      destruct (WaitForResponse msgType timeout e1 later) as [r e' rest|e'|i].
      * destruct IH as (-> & seen & e_at & -> & Hfeed & Hset & Hmin & ->).
        split; [reflexivity|].
        exists (burst :: seen), e_at. cbn [concat app].
        rewrite (feed_Ok_app _ _ _ _ Hburst).
        repeat split; auto.
        intros [|k] e_k Hk; cbn [take concat feed].
        -- intros H; injection H as <-. exact Hclr.
        -- rewrite (feed_Ok_app _ _ _ _ Hburst). apply Hmin.
           cbn [length] in Hk. lia.
      * destruct IH as [Hnever Hall]. split.
        -- intros [|k] Hk; cbn [take concat].
           ++ exists e. auto.
           ++ rewrite (feed_Ok_app _ _ _ _ Hburst). apply Hnever.
              cbn [length] in Hk. lia.
        -- cbn [concat]. now rewrite (feed_Ok_app _ _ _ _ Hburst).
      * destruct IH as (seen & rest & -> & Hfeed).
        exists (burst :: seen), rest. cbn [concat].
        rewrite (feed_Ok_app _ _ _ _ Hburst). auto.
    + exists [burst], later. cbn [concat]. rewrite app_nil_r. auto.
Qed.

(** A wait in a world: besides what its polls have seen, it transmits
    nothing and drives nothing. *)
Lemma wait_report (msgType timeout : Z) (w : World) :
  match wait msgType timeout w with
  | Finished r w' =>
      r = 1 /\ tx w' = tx w /\ drive w' = drive w /\
      wait_ends msgType (eng w) (irq w) (eng w') (irq w')
  | Blocked w' =>
      tx w' = tx w /\ drive w' = drive w /\
      wait_starves msgType (eng w) (irq w)
  | Failed i => bursts_overflow (eng w) (irq w) i
  end.
Proof.
  unfold wait. pose proof (wait_trace msgType timeout (irq w) (eng w)) as H.
  destruct (WaitForResponse msgType timeout (eng w) (irq w)) as [r e rest|e|i];
    cbn [tx drive eng irq]; [destruct H as [-> H] | destruct H as [H _] |]; auto.
Qed.

Lemma utoa_aux_length (fuel : nat) : forall n acc,
  (length (utoa_aux fuel n acc) <= fuel + length acc)%nat.
Proof.
  induction fuel as [|fuel IH]; intros n acc; cbn [utoa_aux]; [lia|].
  destruct (n / 10 =? 0); [cbn [length]; lia|].
  specialize (IH (n / 10) ((48 + n mod 10) :: acc)). cbn [length] in IH. lia.
Qed.

Lemma send_command_length (len : Z) : (length (send_command len) < 32)%nat.
Proof.
  unfold send_command, itoa, utoa.
  rewrite !length_app. change (length (bytes_of "AT+CIPSEND=1,")) with 13%nat.
  change (length CR_LF) with 2%nat.
  destruct (to_int len <? 0); cbn [length];
    match goal with
    | |- context [utoa_aux 10 ?n []] =>
        pose proof (utoa_aux_length 10 n []) as H; cbn [length] in H
    end; lia.
Qed.

Lemma print_and_send_fits (buf text : list Z) (w : World) :
  (length text < length buf)%nat ->
  print_and_send buf text w
  = Finished (text ++ 0 :: drop (S (length text)) buf)
      (mkWorld (eng w) (irq w) (tx w ++ text) (drive w)).
Proof.
  intros Hfit. unfold print_and_send, sprintf.
  replace (length text <? length buf)%nat with true
    by (symmetry; apply Nat.ltb_lt; lia).
  rewrite send_inside by (rewrite length_app; cbn [length]; lia).
  cbn [and_then]. rewrite Nat2Z.id, take_app_length. reflexivity.
Qed.

Lemma print_and_send_overflows (buf text : list Z) (w : World) :
  (length buf <= length text)%nat ->
  print_and_send buf text w = Failed (Z.of_nat (length buf)).
Proof.
  intros Hbig. unfold print_and_send, sprintf.
  now replace (length text <? length buf)%nat with false
    by (symmetry; apply Nat.ltb_ge; lia).
Qed.

(** *** Esp8266_SendMsg *)


(** X20: [Esp8266_SendMsg] transmits the payload only after a poll has
    found the TX-ready bit in the status word.  If it returns, the wire
    carries "AT+CIPSEND=1,<length>\r\n", then the first [length] bytes of the
    buffer, then "\r\n"; the wait has ended at the first poll that found
    the bit, after the bursts received until then, and has cleared it.  The
    bit counts whether the "> " prompt raised it during the wait or it was
    already set when the call was made: the call does not clear it before
    sending its command.  If no poll finds the bit, the call is still
    waiting with only the command on the wire.  The call itself leaves no
    array: it fails only when the interrupt handler does.  The drive pins
    are not touched. *)
Theorem send_msg_waits_for_prompt (buffer : list Z) (len : Z) (w : World) :
  0 <= len <= Z.of_nat (length buffer) ->
  match Esp8266_SendMsg buffer len w with
  | Finished _ w' =>
      tx w' = tx w ++ send_command len ++ take (Z.to_nat len) buffer ++ CR_LF /\
      drive w' = drive w /\
      Z.testbit (status (eng w')) 2 = false /\
      wait_ends ESP8266_TX_READY_MESSAGE (eng w) (irq w) (eng w') (irq w')
  | Blocked w' =>
      tx w' = tx w ++ send_command len /\ drive w' = drive w /\
      wait_starves ESP8266_TX_READY_MESSAGE (eng w) (irq w)
  | Failed i => bursts_overflow (eng w) (irq w) i
  end.
Proof.
  intros Hlen. unfold Esp8266_SendMsg.
  rewrite print_and_send_fits
    by (rewrite length_replicate; apply send_command_length).
  cbn [and_then].
  set (w1 := mkWorld (eng w) (irq w) (tx w ++ send_command len) (drive w)).
  pose proof (wait_report ESP8266_TX_READY_MESSAGE TIMEOUT_SHORT w1) as Hwait.
  pose proof (wait_effect ESP8266_TX_READY_MESSAGE TIMEOUT_SHORT w1) as Hbits.
  destruct (wait ESP8266_TX_READY_MESSAGE TIMEOUT_SHORT w1) as [r w2|w2|i];
    cbn [and_then]; [|exact Hwait|exact Hwait].
  destruct Hwait as (_ & Htx & Hdrive & Hends).
  destruct Hbits as (_ & _ & _ & Hbit).
  rewrite send_inside by assumption. cbn [and_then].
  rewrite send_inside by (cbn [length CR_LF app]; lia).
  cbn [tx drive eng irq]. rewrite Htx, Hdrive. cbn [w1 tx drive].
  change (take (Z.to_nat 2) (CR_LF ++ [0])) with CR_LF.
  rewrite <- !app_assoc.
  split; [reflexivity|]. split; [reflexivity|].
  split; [apply Hbit; [lia | reflexivity] | exact Hends].
Qed.

(** A prompt flag left pending from before the call lets the payload out
    although nothing is received during the call. *)
Example send_msg_with_pending_prompt :
  Esp8266_SendMsg (bytes_of "Hello" ++ [0]) 5
    (mkWorld (mkEngine ESP8266_RESET 0 (replicate 64 0) 0 4) [] [] [])
  = Finished tt
      (mkWorld (mkEngine ESP8266_RESET 0 (replicate 64 0) 0 0) []
         (bytes_of "AT+CIPSEND=1,5" ++ CR_LF ++ bytes_of "Hello" ++ CR_LF) []).
Proof. reflexivity. Qed.

(** X20, witness: "Hello" sent once the prompt arrives, and left unsent
    when only "OK\r\n" arrives. *)
Lemma send_msg_waits_for_prompt_witness :
  (exists w',
     Esp8266_SendMsg (bytes_of "Hello" ++ [0]) 5
       (mkWorld Esp8266_boot [chars OK_MSG; chars TX_READY_MSG] [] [])
     = Finished tt w' /\
     tx w' = bytes_of "AT+CIPSEND=1,5" ++ CR_LF ++ bytes_of "Hello" ++ CR_LF) /\
  (exists w',
     Esp8266_SendMsg (bytes_of "Hello" ++ [0]) 5
       (mkWorld Esp8266_boot [chars OK_MSG] [] [])
     = Blocked w' /\
     tx w' = bytes_of "AT+CIPSEND=1,5" ++ CR_LF).
Proof.
  split.
  - pose proof (send_msg_waits_for_prompt (bytes_of "Hello" ++ [0]) 5
                  (mkWorld Esp8266_boot [chars OK_MSG; chars TX_READY_MSG] [] [])
                  ltac:(cbn; lia)) as H.
    destruct (Esp8266_SendMsg _ _ _) as [[] w'|w'|i] eqn:Hrun;
      [|vm_compute in Hrun; discriminate Hrun..].
    exists w'. split; [reflexivity|]. exact (proj1 H).
  - pose proof (send_msg_waits_for_prompt (bytes_of "Hello" ++ [0]) 5
                  (mkWorld Esp8266_boot [chars OK_MSG] [] [])
                  ltac:(cbn; lia)) as H.
    destruct (Esp8266_SendMsg _ _ _) as [[] w'|w'|i] eqn:Hrun;
      [vm_compute in Hrun; discriminate Hrun| |vm_compute in Hrun; discriminate Hrun].
    exists w'. split; [reflexivity|]. exact (proj1 H).
Defined.

(** *** Command, then wait *)

Lemma and_then_outcome {A B : Type} (m : Result A) (k : A -> World -> Result B)
    (mid during after : World -> Prop) :
  wire_outcome m mid during ->
  (forall a w1, mid w1 -> wire_outcome (k a w1) after during) ->
  wire_outcome (and_then m k) after during.
Proof.
  intros Hm Hk. destruct m as [a w1|w1|i]; cbn [and_then wire_outcome] in *; auto.
Qed.

Lemma wait_outcome (msgType timeout : Z) (w : World) (sent : list Z)
    (pins : list HwOp) :
  tx w = sent -> drive w = pins ->
  wire_outcome (and_then (wait msgType timeout w) (fun _ => Finished tt))
    (fun w' => tx w' = sent /\ drive w' = pins)
    (fun w' => tx w' = sent /\ drive w' = pins).
Proof.
  intros Htx Hdrive. pose proof (wait_effect msgType timeout w) as H.
  destruct (wait msgType timeout w) as [r w'|w'|i]; cbn [and_then wire_outcome];
    [destruct H as (_ & -> & -> & _) | destruct H as (-> & ->) | exact I]; auto.
Qed.

Lemma fixed_command_report (cmd : list Z) (msgType timeout : Z) (w : World) :
  (1 <= length cmd)%nat ->
  match and_then (send cmd (sizeof cmd - 1) w)
          (fun _ w1 => and_then (wait msgType timeout w1) (fun _ => Finished tt))
  with
  | Finished _ w' =>
      tx w' = tx w ++ removelast cmd /\ drive w' = drive w /\
      wait_ends msgType (eng w) (irq w) (eng w') (irq w')
  | Blocked w' =>
      tx w' = tx w ++ removelast cmd /\ drive w' = drive w /\
      wait_starves msgType (eng w) (irq w)
  | Failed _ => True
  end.
Proof.
  intros Hlen. unfold sizeof. rewrite send_inside by lia. cbn [and_then].
  replace (take (Z.to_nat (Z.of_nat (length cmd) - 1)) cmd) with (removelast cmd).
  2:{ replace (Z.to_nat (Z.of_nat (length cmd) - 1)) with (length cmd - 1)%nat by lia.
      rewrite Nat.sub_1_r. apply removelast_firstn_len. }
  set (w1 := mkWorld (eng w) (irq w) (tx w ++ removelast cmd) (drive w)).
  pose proof (wait_report msgType timeout w1) as H.
  destruct (wait msgType timeout w1) as [r w'|w'|i]; cbn [and_then];
    [destruct H as (_ & H) | | exact I]; exact H.
Qed.

(** X21: [Esp8266_Initialize] clears the status word, sends "AT\r\n",
    "AT+RST\r\n" and "ATE0\r\n" in this order and waits after each for its
    flag: OK, ready, OK.  Each wait ends at the first poll that finds its
    flag in the status word and clears that flag only, so a flag raised
    before its command was sent counts as the reply to it.  When the call
    returns, all three commands are on the wire and the status word is 0
    again, whatever flags were pending.  When a wait never finds its flag,
    the call is still waiting with exactly the commands up to that wait on
    the wire.  The drive pins are not touched. *)
Theorem initialize_handshake (w : World) :
  let c1 := bytes_of "AT" ++ CR_LF in
  let c2 := bytes_of "AT+RST" ++ CR_LF in
  let c3 := bytes_of "ATE0" ++ CR_LF in
  let e0 := set_status 0 (eng w) in
  match Esp8266_Initialize w with
  | Finished _ w' =>
      tx w' = tx w ++ c1 ++ c2 ++ c3 /\ drive w' = drive w /\
      status (eng w') = 0 /\
      exists e1 q1 e2 q2 e3,
        wait_ends ESP8266_OK_MESSAGE e0 (irq w) e1 q1 /\
        wait_ends ESP8266_READY_MESSAGE e1 q1 e2 q2 /\
        wait_ends ESP8266_OK_MESSAGE e2 q2 e3 (irq w') /\
        eng w' = set_status 0 e3
  | Blocked w' =>
      drive w' = drive w /\
      ((tx w' = tx w ++ c1 /\
        wait_starves ESP8266_OK_MESSAGE e0 (irq w)) \/
       (tx w' = tx w ++ c1 ++ c2 /\
        exists e1 q1,
          wait_ends ESP8266_OK_MESSAGE e0 (irq w) e1 q1 /\
          wait_starves ESP8266_READY_MESSAGE e1 q1) \/
       (tx w' = tx w ++ c1 ++ c2 ++ c3 /\
        exists e1 q1 e2 q2,
          wait_ends ESP8266_OK_MESSAGE e0 (irq w) e1 q1 /\
          wait_ends ESP8266_READY_MESSAGE e1 q1 e2 q2 /\
          wait_starves ESP8266_OK_MESSAGE e2 q2))
  | Failed _ => True
  end.
Proof.
  intros c1 c2 c3 e0. unfold Esp8266_Initialize.
  set (w0 := set_world_status 0 w).
  assert (H1 := fixed_command_report (bytes_of "AT" ++ CR_LF ++ [0])
                  ESP8266_OK_MESSAGE TIMEOUT_SHORT w0 ltac:(cbn; lia)).
  unfold Esp8266_Validate.
  destruct (and_then (send _ _ w0) _) as [[] w1|w1|i]; cbn [and_then] in *;
    [|destruct H1 as (-> & -> & Hs1); split; [reflexivity|]; left;
      split; [reflexivity | exact Hs1]
     |exact I].
  destruct H1 as (Htx1 & Hd1 & He1).
  assert (H2 := fixed_command_report (bytes_of "AT+RST" ++ CR_LF ++ [0])
                  ESP8266_READY_MESSAGE TIMEOUT_LONG w1 ltac:(cbn; lia)).
  unfold Esp8266_Reset.
  destruct (and_then (send _ _ w1) _) as [[] w2|w2|i]; cbn [and_then] in *;
    [|destruct H2 as (-> & -> & Hs2); rewrite Htx1, Hd1; split; [reflexivity|];
      right; left; split; [now rewrite <- app_assoc|];
      exists (eng w1), (irq w1); split; [exact He1 | exact Hs2]
     |exact I].
  destruct H2 as (Htx2 & Hd2 & He2).
  assert (H3 := fixed_command_report (bytes_of "ATE0" ++ CR_LF ++ [0])
                  ESP8266_OK_MESSAGE TIMEOUT_SHORT w2 ltac:(cbn; lia)).
  unfold Esp8266_DisableEcho.
  destruct (and_then (send _ _ w2) _) as [[] w3|w3|i]; cbn [and_then] in *;
    [|destruct H3 as (-> & -> & Hs3); rewrite Htx2, Hd2, Htx1, Hd1;
      split; [reflexivity|];
      right; right; split; [now rewrite <- !app_assoc|];
      exists (eng w1), (irq w1), (eng w2), (irq w2); auto
     |exact I].
  destruct H3 as (Htx3 & Hd3 & He3).
  cbn [set_world_status tx drive eng irq set_status status].
  rewrite Htx3, Hd3, Htx2, Hd2, Htx1, Hd1. cbn [w0 set_world_status tx drive].
  rewrite <- !app_assoc.
  split; [reflexivity|]. split; [reflexivity|]. split; [reflexivity|].
  exists (eng w1), (irq w1), (eng w2), (irq w2), (eng w3). auto.
Qed.

Example initialize_with_responsive_modem :
  Esp8266_Initialize
    (mkWorld Esp8266_boot [chars OK_MSG; chars READY_MSG; chars OK_MSG] [] [])
  = Finished tt
      (mkWorld (mkEngine ESP8266_RESET 4 (replicate 64 0) 0 0) []
         (bytes_of "AT" ++ CR_LF ++ bytes_of "AT+RST" ++ CR_LF
            ++ bytes_of "ATE0" ++ CR_LF) []).
Proof. reflexivity. Qed.

(** The modem answers "AT+RST" with "OK" and "ready" in one burst: the
    wait after "ATE0" ends on that "OK", before any reply to "ATE0". *)
Example initialize_with_early_ok :
  Esp8266_Initialize
    (mkWorld Esp8266_boot [chars OK_MSG; chars OK_MSG ++ chars READY_MSG] [] [])
  = Finished tt
      (mkWorld (mkEngine ESP8266_RESET 7 (replicate 64 0) 0 0) []
         (bytes_of "AT" ++ CR_LF ++ bytes_of "AT+RST" ++ CR_LF
            ++ bytes_of "ATE0" ++ CR_LF) []).
Proof. reflexivity. Qed.

Example initialize_with_silent_modem :
  Esp8266_Initialize (mkWorld Esp8266_boot [[]; []; []] [] [])
  = Blocked (mkWorld Esp8266_boot [] (bytes_of "AT" ++ CR_LF) []).
Proof. reflexivity. Qed.

(** *** Esp8266_SetAccessPointName *)

(** X22: the access-point name has to fit the 64-byte command buffer: up to
    43 characters the command "AT+CWSAP=<quote>name<quote>,<quote><quote>,5,0\r\n"
    goes out whole and the function waits for "OK"; from 44 characters on,
    [sprintf] runs past the end of the buffer and nothing is transmitted. *)
Theorem access_point_name_limit (name : list Z) (w : World) :
  let text := bytes_of "AT+CWSAP=" ++ [QUOTE] ++ c_str name ++ [QUOTE]
              ++ bytes_of "," ++ [QUOTE; QUOTE] ++ bytes_of ",5,0" ++ CR_LF in
  (strlen name <= 43 ->
   wire_outcome (Esp8266_SetAccessPointName name w)
     (fun w' => tx w' = tx w ++ text /\ drive w' = drive w)
     (fun w' => tx w' = tx w ++ text /\ drive w' = drive w)) /\
  (44 <= strlen name ->
   Esp8266_SetAccessPointName name w = Failed 64).
Proof.
  intros text. unfold strlen, Esp8266_SetAccessPointName. fold text.
  assert (Hlen : length text = (length (c_str name) + 20)%nat).
  { unfold text. rewrite !length_app. cbn [length bytes_of CR_LF].
    change (length (bytes_of "AT+CWSAP=")) with 9%nat.
    change (length (bytes_of ",")) with 1%nat.
    change (length (bytes_of ",5,0")) with 4%nat. cbn [length]. lia. }
  split; intros Hname.
  - rewrite print_and_send_fits by (rewrite length_replicate; lia).
    cbn [and_then]. apply wait_outcome; reflexivity.
  - rewrite print_and_send_overflows by (rewrite length_replicate; lia).
    reflexivity.
Qed.

(** X22, witness: the name main.c uses, and a name of 44 letters. *)
Lemma access_point_name_limit_witness :
  Esp8266_SetAccessPointName (bytes_of "STM8S_Robot" ++ [0])
    (mkWorld Esp8266_boot [chars OK_MSG] [] [])
  = Finished tt
      (mkWorld (mkEngine ESP8266_RESET 4 (replicate 64 0) 0 0) []
         (bytes_of "AT+CWSAP=" ++ [QUOTE] ++ bytes_of "STM8S_Robot" ++ [QUOTE]
            ++ bytes_of "," ++ [QUOTE; QUOTE] ++ bytes_of ",5,0" ++ CR_LF) []) /\
  Esp8266_SetAccessPointName (replicate 44 65 ++ [0])
    (mkWorld Esp8266_boot [chars OK_MSG] [] [])
  = Failed 64.
Proof.
  split; [reflexivity|].
  apply (proj2 (access_point_name_limit (replicate 44 65 ++ [0])
                  (mkWorld Esp8266_boot [chars OK_MSG] [] []))).
  vm_compute. discriminate.
Defined.

(** *** The packet branch of the main loop *)




(** X24: a packet that declares length 0 is swallowed without trace: the
    byte after its colon completes it, and the next pass of the main loop
    clears the flag but drives nothing and echoes nothing. *)
Theorem zero_length_packet_is_silent (e : Engine) (field p : list Z) (x : Z)
    (sched : list (list Z)) (sent : list Z) (pins : list HwOp) :
  esp_state e = ESP8266_RESET ->
  length (packet e) = Z.to_nat ESP8266_RX_BUFFER_SIZE ->
  Forall (fun c => c <> 58) field ->
  (length field < 64)%nat ->
  sscanf_d (field ++ [0]) = Some 0 ->
  exists e1 e2,
    feed e (field_stream field [x]) = Ok e1 /\
    packet_available e1 = true /\
    main_poll p (mkWorld e1 sched sent pins)
    = Finished p (mkWorld e2 sched sent pins) /\
    packet_available e2 = false.
Proof.
  intros Hst Hlen Hfield Hshort Hscan.
  destruct (nonpositive_length_step e field 0 x Hst Hlen Hfield Hshort Hscan
              ltac:(lia)) as (e1 & Hfeed & _ & Hav & Hps & _).
  exists e1, (clear ESP8266_RX_PACKET_MESSAGE e1).
  split; [exact Hfeed|]. split; [exact Hav|].
  split; [|apply cleared_not_available].
  unfold main_poll. cbn [eng irq tx drive].
  rewrite receive_packet; rewrite ?Hps; try assumption; try lia.
  change (Z.to_nat 0) with 0%nat. cbn [take drop app].
  change (to_ushort 0 =? 0) with true. reflexivity.
Qed.

(** X24, witness: "+IPD,1,0:" followed by the '+' of the next header. *)
Lemma zero_length_packet_is_silent_witness :
  exists e1 e2,
    feed Esp8266_boot (field_stream [48] [43]) = Ok e1 /\
    packet_available e1 = true /\
    main_poll (replicate 64 0) (mkWorld e1 [] [] [])
    = Finished (replicate 64 0) (mkWorld e2 [] [] []) /\
    packet_available e2 = false.
Proof.
  apply (zero_length_packet_is_silent Esp8266_boot [48] (replicate 64 0) 43 [] [] []);
    try reflexivity.
  - repeat constructor; discriminate.
  - cbn [length]. lia.
Defined.

(** *** Esp8266_StartClient *)

(** X25: [Esp8266_StartClient] first switches the modem to multiplexed
    mode and only after its "OK" sends the socket command with the type, the
    address and the port twice; for a type and an address of at most 17
    characters together both commands fit the buffer, and at every moment
    the wire carries the first command alone or both. *)
Theorem start_client_in_order (type ip : list Z) (port : Z) (w : World) :
  strlen type + strlen ip <= 17 ->
  let mux := bytes_of "AT+CIPMUX=1" ++ CR_LF in
  let start := bytes_of "AT+CIPSTART=1," ++ [QUOTE] ++ c_str type ++ [QUOTE]
               ++ bytes_of "," ++ [QUOTE] ++ c_str ip ++ [QUOTE]
               ++ bytes_of "," ++ utoa (to_ushort port)
               ++ bytes_of "," ++ utoa (to_ushort port)
               ++ bytes_of ",0" ++ CR_LF in
  wire_outcome (Esp8266_StartClient type ip port w)
    (fun w' => tx w' = tx w ++ mux ++ start /\ drive w' = drive w)
    (fun w' => (tx w' = tx w ++ mux \/ tx w' = tx w ++ mux ++ start) /\
               drive w' = drive w).
Proof.
  intros Hfit mux start. unfold strlen in Hfit. unfold Esp8266_StartClient.
  fold mux. fold start.
  rewrite print_and_send_fits by (rewrite length_replicate; cbn; lia).
  cbn [and_then].
  set (w1 := mkWorld (eng w) (irq w) (tx w ++ mux) (drive w)).
  set (buf1 := mux ++ 0 :: drop (S (length mux)) (replicate 64 0)).
  assert (Hbuf1 : length buf1 = 64%nat) by reflexivity.
  assert (Hstart : (length start < 64)%nat).
  { unfold start, utoa. rewrite !length_app.
    pose proof (utoa_aux_length 10 (to_ushort port) []) as Hu.
    cbn [length] in Hu.
    change (length (bytes_of "AT+CIPSTART=1,")) with 14%nat.
    change (length (bytes_of ",")) with 1%nat.
    change (length (bytes_of ",0")) with 2%nat.
    change (length CR_LF) with 2%nat. cbn [length]. lia. }
  pose proof (wait_effect ESP8266_OK_MESSAGE TIMEOUT_SHORT w1) as Hwait.
  destruct (wait ESP8266_OK_MESSAGE TIMEOUT_SHORT w1) as [r w2|w2|i];
    cbn [and_then wire_outcome]; [|destruct Hwait as [-> ->]; auto|exact I].
  destruct Hwait as (_ & Htx2 & Hd2 & _).
  rewrite print_and_send_fits by lia. cbn [and_then].
  eapply and_then_outcome with
    (mid := fun w' => tx w' = tx w ++ mux ++ start /\ drive w' = drive w).
  - pose proof (wait_effect ESP8266_OK_MESSAGE TIMEOUT_SHORT
                  (mkWorld (eng w2) (irq w2) (tx w2 ++ start) (drive w2))) as H.
    destruct (wait _ _ _) as [r3 w3|w3|i]; cbn [wire_outcome];
      [destruct H as (_ & -> & -> & _) | destruct H as (-> & ->) | exact I];
      cbn [tx drive]; rewrite Htx2, Hd2; cbn [w1 tx drive];
      rewrite <- app_assoc; auto.
  - intros a w3 H. cbn [wire_outcome]. exact H.
Qed.

(** X25, witness: the socket main.c opens. *)
Lemma start_client_in_order_witness :
  Esp8266_StartClient (bytes_of "UDP" ++ [0]) (bytes_of "192.168.4.2" ++ [0]) 49999
    (mkWorld Esp8266_boot [chars OK_MSG; chars OK_MSG] [] [])
  = Finished tt
      (mkWorld (mkEngine ESP8266_RESET 4 (replicate 64 0) 0 0) []
         (bytes_of "AT+CIPMUX=1" ++ CR_LF
            ++ bytes_of "AT+CIPSTART=1," ++ [QUOTE] ++ bytes_of "UDP" ++ [QUOTE]
            ++ bytes_of "," ++ [QUOTE] ++ bytes_of "192.168.4.2" ++ [QUOTE]
            ++ bytes_of ",49999,49999,0" ++ CR_LF) []).
Proof.
  pose proof (start_client_in_order (bytes_of "UDP" ++ [0])
                (bytes_of "192.168.4.2" ++ [0]) 49999
                (mkWorld Esp8266_boot [chars OK_MSG; chars OK_MSG] [] [])
                ltac:(vm_compute; discriminate)) as H.
  cbn zeta in H.
  destruct (Esp8266_StartClient _ _ _ _) as [[] w'|w'|i] eqn:Hrun;
    [|vm_compute in Hrun; discriminate Hrun..].
  vm_compute in Hrun. injection Hrun as <-. reflexivity.
Defined.

(* ===================================================================== *)
(** * Properties of the main loop's LED counter *)
(* ===================================================================== *)

(** X26: the LED counter counts timer expirations modulo 250 and never
    leaves [0, 250): started at 0, after n expirations it holds n mod 250
    and the LED has been toggled n / 250 times, that is, it differs from its
    initial level exactly when n / 250 is odd. *)
Theorem led_toggles_every_250_ticks (n : nat) (led : bool) :
  led_ticks n (0, led)
  = (Z.of_nat n mod 250, if Z.odd (Z.of_nat n / 250) then negb led else led).
Proof.
  unfold led_ticks. induction n as [|n IH]; [now cbn|].
  rewrite Nat.iter_succ, IH. clear IH.
  set (m := Z.of_nat n).
  replace (Z.of_nat (S n)) with (m + 1) by lia.
  assert (Hm : 0 <= m) by lia.
  pose proof (Z.div_mod m 250 ltac:(lia)) as Hdm.
  pose proof (Z.mod_pos_bound m 250 ltac:(lia)) as Hr.
  set (q := m / 250) in *. set (r := m mod 250) in *.
  unfold led_tick.
  destruct (Z.eq_dec r 249) as [Hfull|Hpart].
  - replace (r + 1 >=? 250) with true
      by (symmetry; rewrite Z.geb_leb; apply Z.leb_le; lia).
    assert (Hq1 : (m + 1) / 250 = q + 1).
    { symmetry. apply (Z.div_unique (m + 1) 250 (q + 1) 0); lia. }
    assert (Hr1 : (m + 1) mod 250 = 0).
    { symmetry. apply (Z.mod_unique (m + 1) 250 (q + 1) 0); lia. }
    rewrite Hq1, Hr1. f_equal.
    replace (q + 1) with (Z.succ q) by lia. rewrite Z.odd_succ.
    rewrite <- Z.negb_odd. destruct (Z.odd q), led; reflexivity.
  - replace (r + 1 >=? 250) with false
      by (symmetry; rewrite Z.geb_leb; apply Z.leb_gt; lia).
    assert (Hq1 : (m + 1) / 250 = q).
    { symmetry. apply (Z.div_unique (m + 1) 250 q (r + 1)); lia. }
    assert (Hr1 : (m + 1) mod 250 = r + 1).
    { symmetry. apply (Z.mod_unique (m + 1) 250 q (r + 1)); lia. }
    now rewrite Hq1, Hr1.
Qed.

(* ===================================================================== *)
(** * Losing and regaining synchronisation *)
(* ===================================================================== *)

(** X27: the matcher does not back up: when a message breaks off after k
    of its bytes and the same message then arrives whole, the whole one is
    lost too: its first byte is taken for the continuation of the broken
    one, fails the comparison and is dropped, and the rest finds the machine
    idle.  No flag is raised and the machine ends idle. *)
Theorem broken_message_hides_the_next (e : Engine) (msg : list Z) (k : nat) :
  esp_state e = ESP8266_RESET ->
  In msg literals ->
  (1 <= k < length (chars msg))%nat ->
  rejected e (take k (chars msg) ++ chars msg).
Proof.
  unfold rejected.
  destruct e as [st c pk ps s]. cbn [esp_state status packet packetSize].
  intros -> Hin Hk.
  unfold literals in Hin. cbn [In] in Hin.
  destruct Hin as [<-|[<-|[<-|[<-|[]]]]];
    cbn in Hk;
    (destruct k as [|k]; [exfalso; lia|]);
    repeat (destruct k as [|k]; [ | try (exfalso; lia) ]);
    match goal with
    | |- context [feed _ ?l] => let l' := eval cbv in l in change l with l'
    end;
    repeat step_known; eexists; (split; [reflexivity | repeat split]).
Qed.

(** X27, witness: "OK" cut short, then "OK\r\n". *)
Lemma broken_message_hides_the_next_witness :
  rejected Esp8266_boot ([79; 75] ++ chars OK_MSG).
Proof.
  apply (broken_message_hides_the_next Esp8266_boot OK_MSG 2 eq_refl).
  - cbn. auto.
  - cbn. lia.
Defined.

(** X28: after any run of bytes that start no literal, the machine is in
    step again: a following "OK\r\n", "ready\r\n" or "> " raises exactly its
    flag and leaves packet and recorded length alone. *)
Theorem reply_after_noise (e : Engine) (noise msg : list Z) (flag : Z) :
  esp_state e = ESP8266_RESET ->
  0 <= status e < 256 ->
  Forall (fun b => starts_literal b = false) noise ->
  In (msg, flag) flag_literals ->
  exists e',
    feed e (noise ++ chars msg) = Ok e' /\
    esp_state e' = ESP8266_RESET /\
    status e' = Z.lor (status e) flag /\
    packet e' = packet e /\ packetSize e' = packetSize e.
Proof.
  intros Hst Hs Hnoise Hin.
  destruct noise as [|b noise].
  - apply (literal_recognised e msg flag Hst Hs Hin).
  - rewrite (feed_Ok_app _ _ _ _
               (idle_noise (b :: noise) e Hst ltac:(discriminate) Hnoise)).
    apply (literal_recognised
             (mkEngine ESP8266_RESET 1 (packet e) (packetSize e) (status e))
             msg flag eq_refl Hs Hin).
Qed.

(** X28, witness: "ready\r\n" after the text "busy p..." . *)
Lemma reply_after_noise_witness :
  exists e',
    feed Esp8266_boot (bytes_of "busy p..." ++ chars READY_MSG) = Ok e' /\
    esp_state e' = ESP8266_RESET /\ status e' = 2.
Proof.
  destruct (reply_after_noise Esp8266_boot (bytes_of "busy p...") READY_MSG
              ESP8266_READY_MESSAGE eq_refl
              ltac:(cbn [status Esp8266_boot]; lia)
              ltac:(repeat constructor) ltac:(cbn; auto))
    as (e' & Hfeed & Hst & Hs & _).
  exists e'. split; [exact Hfeed|]. split; [exact Hst | exact Hs].
Defined.

(* ===================================================================== *)
(** * The server commands *)
(* ===================================================================== *)

Lemma command_outcome (buf text : list Z) (msgType timeout : Z) (w : World)
    (sent : list Z) :
  (length text < length buf)%nat ->
  tx w = sent ->
  wire_outcome
    (and_then (print_and_send buf text w)
       (fun _ w1 => and_then (wait msgType timeout w1) (fun _ => Finished tt)))
    (fun w' => tx w' = sent ++ text /\ drive w' = drive w)
    (fun w' => tx w' = sent ++ text /\ drive w' = drive w).
Proof.
  intros Hfit Htx. rewrite print_and_send_fits by assumption. cbn [and_then].
  apply wait_outcome; cbn [tx drive]; [now rewrite Htx | reflexivity].
Qed.

(** X29: [Esp8266_StartTcpServer] sends three commands, each after the
    "OK" to the one before: multiplexed mode, the server on the given port,
    and the idle timeout of 300 seconds; at every moment the wire carries
    the first, the first two or all three. *)
Theorem start_tcp_server_in_order (port : Z) (w : World) :
  let mux := bytes_of "AT+CIPMUX=1" ++ CR_LF in
  let server := bytes_of "AT+CIPSERVER=1," ++ utoa (to_ushort port) ++ CR_LF in
  let sto := bytes_of "AT+CIPSTO=300" ++ CR_LF in
  wire_outcome (Esp8266_StartTcpServer port w)
    (fun w' => tx w' = tx w ++ mux ++ server ++ sto /\ drive w' = drive w)
    (fun w' => (tx w' = tx w ++ mux \/ tx w' = tx w ++ mux ++ server \/
                tx w' = tx w ++ mux ++ server ++ sto) /\
               drive w' = drive w).
Proof.
  intros mux server sto. unfold Esp8266_StartTcpServer. fold mux. fold server.
  rewrite print_and_send_fits by (rewrite length_replicate; cbn; lia).
  cbn [and_then].
  set (w1 := mkWorld (eng w) (irq w) (tx w ++ mux) (drive w)).
  assert (Hserver : (length server < 64)%nat).
  { unfold server, utoa. rewrite !length_app.
    pose proof (utoa_aux_length 10 (to_ushort port) []) as Hu.
    cbn [length] in Hu.
    change (length (bytes_of "AT+CIPSERVER=1,")) with 15%nat.
    change (length CR_LF) with 2%nat. lia. }
  pose proof (wait_effect ESP8266_OK_MESSAGE TIMEOUT_SHORT w1) as Hwait.
  destruct (wait ESP8266_OK_MESSAGE TIMEOUT_SHORT w1) as [r w2|w2|i];
    cbn [and_then wire_outcome]; [|destruct Hwait as [-> ->]; auto|exact I].
  destruct Hwait as (_ & Htx2 & Hd2 & _). cbn [w1 tx drive] in Htx2, Hd2.
  rewrite print_and_send_fits by (cbn [length app]; exact Hserver).
  cbn [and_then].
  set (w3 := mkWorld (eng w2) (irq w2) (tx w2 ++ server) (drive w2)).
  pose proof (wait_effect ESP8266_OK_MESSAGE TIMEOUT_SHORT w3) as Hwait3.
  destruct (wait ESP8266_OK_MESSAGE TIMEOUT_SHORT w3) as [r4 w4|w4|i];
    cbn [and_then wire_outcome];
    [|destruct Hwait3 as [-> ->]; cbn [w3 tx drive];
      rewrite Htx2, Hd2, <- app_assoc; auto|exact I].
  destruct Hwait3 as (_ & Htx4 & Hd4 & _). cbn [w3 tx drive] in Htx4, Hd4.
  unfold Esp8266_SetTcpServerTimeout.
  change (bytes_of "AT+CIPSTO=" ++ utoa (to_ushort ESP8266_SERVER_TIMEOUT) ++ CR_LF)
    with sto.
  pose proof (command_outcome (replicate 64 0) sto ESP8266_OK_MESSAGE
                TIMEOUT_SHORT w4 (tx w4) ltac:(cbn; lia) eq_refl) as H.
  destruct (and_then (print_and_send _ sto w4) _) as [[] w5|w5|i];
    cbn [wire_outcome] in *; try exact I;
    destruct H as [-> ->]; rewrite Htx4, Hd4, Htx2, Hd2, <- !app_assoc; auto.
Qed.

Example start_tcp_server_on_49999 :
  Esp8266_StartTcpServer 49999
    (mkWorld Esp8266_boot [chars OK_MSG; chars OK_MSG; chars OK_MSG] [] [])
  = Finished tt
      (mkWorld (mkEngine ESP8266_RESET 4 (replicate 64 0) 0 0) []
         (bytes_of "AT+CIPMUX=1" ++ CR_LF ++ bytes_of "AT+CIPSERVER=1,49999"
            ++ CR_LF ++ bytes_of "AT+CIPSTO=300" ++ CR_LF) []).
Proof. reflexivity. Qed.
